(** * Limo: the conversational app builder (LimoApp component)

    A shallow embedding of the two [LimoApp] components of the repository:
    the chat-driven component (the 684-line file) at top level, and the
    earlier single-prompt component of [src/index.tsx] in [Module Legacy].

    Layout:
    - [JS]: the part of the JavaScript platform the component relies on
      (strings as sequences of UTF-16 code units, [JSON.parse], property
      reads, string conversion, thrown values);
    - the data model ([Attachment], [DisplayMessage], [HistoryContent],
      [LimoApp]);
    - the event handlers, each split at its [await] into a [_begin] part
      (the synchronous prefix, which issues the request), the [_try] block
      that runs when the request settles, and the [_resume] part that
      wraps it in the [catch] and [finally] clauses;
    - the preview renderers, and in [Module Legacy] the single-prompt
      component with its handler, its views and its page;
    - the transition system of the page ([fire], [reachable]);
    - what [render] shows: the emphasis of message texts, the output
      panel and the chat panel, each template kept as the values it is
      filled with;
    - the vocabulary of the statements and the example pages;
    - the lemmas and theorems: strings and [JSON.parse], the handlers,
      the responses of build and modification, routing, the renderers,
      the Build button; then texts and data URLs, what each operation
      leaves, the invariants of the page, what the page shows, and the
      single-prompt component. *)

From Stdlib Require Import String Ascii.
From Stdlib Require Import List NArith ZArith Bool Lia.
Import ListNotations.

Set Warnings "-register-all".

(* ================================================================== *)
(** * The JavaScript platform *)
(* ================================================================== *)

Module JS.

(** ** Strings

    A JavaScript string is a finite sequence of 16-bit code units.  Code
    units are kept as [N]; literals are written [lit "..."]. *)

Definition code_unit := N.
Definition jsstring := list code_unit.

Definition lit (s : string) : jsstring :=
  map N_of_ascii (list_ascii_of_string s).
Arguments lit s%_string.

(** The double quote, which cannot be written inside a literal. *)
Definition dq : jsstring := [34%N].

Fixpoint jsstring_eqb (a b : jsstring) : bool :=
  match a, b with
  | [], [] => true
  | c :: a', d :: b' => (c =? d)%N && jsstring_eqb a' b'
  | _, _ => false
  end.

(** [String.prototype.startsWith] (position 0). *)
Fixpoint startsWith (s p : jsstring) : bool :=
  match p, s with
  | [], _ => true
  | c :: p', d :: s' => (c =? d)%N && startsWith s' p'
  | _ :: _, [] => false
  end.

(** [String.prototype.endsWith]. *)
Definition endsWith (s p : jsstring) : bool := startsWith (rev s) (rev p).

(** [String.prototype.indexOf]: the first position at which [p] occurs. *)
Fixpoint indexOf (s p : jsstring) : option nat :=
  if startsWith s p then Some 0
  else match s with
       | [] => None
       | _ :: s' => option_map S (indexOf s' p)
       end.

(** [String.prototype.includes]. *)
Definition includes (s p : jsstring) : bool :=
  match indexOf s p with Some _ => true | None => false end.

(** [s.replace(p, r)] for a string pattern [p]: only the first occurrence
    is replaced.  The replacement [r] is inserted as it is, which is what
    JavaScript does for a replacement without [$] (the component only
    passes the empty string). *)
Definition replace (s p r : jsstring) : jsstring :=
  match indexOf s p with
  | None => s
  | Some i => firstn i s ++ r ++ skipn (i + length p) s
  end.

(** [s.replace(/ /g, '+')]: every space becomes a plus sign. *)
Definition replace_spaces (s : jsstring) : jsstring :=
  map (fun c => if (c =? 32)%N then 43%N else c) s.

(** White space and line terminators, the characters [trim] removes. *)
Definition isWhiteSpace (c : code_unit) : bool :=
  ((9 <=? c) && (c <=? 13) || (c =? 32) || (c =? 160) || (c =? 5760)
   || (8192 <=? c) && (c <=? 8202) || (c =? 8232) || (c =? 8233)
   || (c =? 8239) || (c =? 8287) || (c =? 12288) || (c =? 65279))%N.

Fixpoint trimStart (s : jsstring) : jsstring :=
  match s with
  | c :: r => if isWhiteSpace c then trimStart r else s
  | [] => []
  end.

Definition trimEnd (s : jsstring) : jsstring := rev (trimStart (rev s)).

(** [String.prototype.trim]. *)
Definition trim (s : jsstring) : jsstring := trimEnd (trimStart s).

(** [s.split(sep)] for a one-character separator; the result is never
    empty ([''.split(',')] is [['']]). *)
Fixpoint split_on (sep : code_unit) (s : jsstring) : list jsstring :=
  match s with
  | [] => [[]]
  | c :: r =>
      if (c =? sep)%N then [] :: split_on sep r
      else match split_on sep r with
           | h :: t => (c :: h) :: t
           | [] => [[c]]
           end
  end.

(** The regular expression [/:(.*?);/]: [.] matches any code unit that is
    not a line terminator.  [lazy_to_semicolon s] is the capture when the
    text after a colon is [s]; [match_colon_semicolon] tries the colons
    from left to right and returns the capture of the first match. *)
Definition isLineTerminator (c : code_unit) : bool :=
  ((c =? 10) || (c =? 13) || (c =? 8232) || (c =? 8233))%N.

Fixpoint lazy_to_semicolon (s : jsstring) : option jsstring :=
  match s with
  | [] => None
  | c :: r =>
      if (c =? 59)%N then Some []
      else if isLineTerminator c then None
      else option_map (cons c) (lazy_to_semicolon r)
  end.

Fixpoint match_colon_semicolon (s : jsstring) : option jsstring :=
  match s with
  | [] => None
  | c :: r =>
      if (c =? 58)%N then
        match lazy_to_semicolon r with
        | Some cap => Some cap
        | None => match_colon_semicolon r
        end
      else match_colon_semicolon r
  end.

(** ** JSON values and [JSON.parse]

    A number keeps the exact decimal it was written as: [JNumber neg m e]
    is [(-1)^neg * m * 10^e].  An object keeps its members in the order of
    their first occurrence; a repeated key overwrites the earlier value. *)

Inductive json : Type :=
| JNull
| JBool (b : bool)
| JNumber (neg : bool) (mantissa : N) (exp10 : Z)
| JString (s : jsstring)
| JArray (elements : list json)
| JObject (members : list (jsstring * json)).

Fixpoint obj_get (ms : list (jsstring * json)) (k : jsstring) : option json :=
  match ms with
  | [] => None
  | (k', v') :: r => if jsstring_eqb k' k then Some v' else obj_get r k
  end.

Fixpoint obj_set (ms : list (jsstring * json)) (k : jsstring) (v : json)
  : list (jsstring * json) :=
  match ms with
  | [] => [(k, v)]
  | (k', v') :: r =>
      if jsstring_eqb k' k then (k', v) :: r else (k', v') :: obj_set r k v
  end.

Definition isJsonWs (c : code_unit) : bool :=
  ((c =? 32) || (c =? 9) || (c =? 10) || (c =? 13))%N.

Fixpoint skip_ws (s : jsstring) : jsstring :=
  match s with
  | c :: r => if isJsonWs c then skip_ws r else s
  | [] => []
  end.

Definition isDigit (c : code_unit) : bool := ((48 <=? c) && (c <=? 57))%N.

(** The longest run of decimal digits at the head of [s], as digit values. *)
Fixpoint take_digits (s : jsstring) : list N * jsstring :=
  match s with
  | c :: r =>
      if isDigit c then
        let '(ds, r') := take_digits r in ((c - 48)%N :: ds, r')
      else ([], s)
  | [] => ([], [])
  end.

Definition digits_value (ds : list N) : N :=
  fold_left (fun a d => (10 * a + d)%N) ds 0%N.

Definition is_nil {A} (l : list A) : bool :=
  match l with [] => true | _ => false end.

(** A number: an optional minus sign; then a single 0 or a digit run
    without leading zero; then optionally a point and at least one digit;
    then optionally e or E, an optional sign and at least one digit. *)
Definition parse_number (s : jsstring) : option (json * jsstring) :=
  let '(neg, s1) :=
    match s with
    | c :: r => if (c =? 45)%N then (true, r) else (false, s)
    | [] => (false, s)
    end in
  let '(ip, s2) := take_digits s1 in
  match ip with
  | [] => None
  | d :: ip' =>
      if (d =? 0)%N && negb (is_nil ip') then None
      else
        let frac :=
          match s2 with
          | c :: r =>
              if (c =? 46)%N then
                let '(fp, r') := take_digits r in
                if is_nil fp then None else Some (fp, r')
              else Some ([], s2)
          | [] => Some ([], s2)
          end in
        match frac with
        | None => None
        | Some (fp, s3) =>
            let expo :=
              match s3 with
              | c :: r =>
                  if ((c =? 101) || (c =? 69))%N then
                    let '(eneg, r1) :=
                      match r with
                      | c1 :: r0 =>
                          if (c1 =? 45)%N then (true, r0)
                          else if (c1 =? 43)%N then (false, r0)
                          else (false, r)
                      | [] => (false, r)
                      end in
                    let '(ep, r2) := take_digits r1 in
                    if is_nil ep then None
                    else
                      let e := Z.of_N (digits_value ep) in
                      Some (if eneg then (- e)%Z else e, r2)
                  else Some (0%Z, s3)
              | [] => Some (0%Z, s3)
              end in
            match expo with
            | None => None
            | Some (e, s4) =>
                Some (JNumber neg (digits_value (ip ++ fp))
                        (e - Z.of_nat (length fp))%Z, s4)
            end
        end
  end.

Definition hex_value (c : code_unit) : option N :=
  if isDigit c then Some (c - 48)%N
  else if ((97 <=? c) && (c <=? 102))%N then Some (c - 87)%N
  else if ((65 <=? c) && (c <=? 70))%N then Some (c - 55)%N
  else None.

Definition hex4 (a b c d : code_unit) : option code_unit :=
  match hex_value a, hex_value b, hex_value c, hex_value d with
  | Some x, Some y, Some z, Some w => Some (((x * 16 + y) * 16 + z) * 16 + w)%N
  | _, _, _, _ => None
  end.

(** The single-character escapes of a JSON string. *)
Definition simple_escape (c : code_unit) : option code_unit :=
  (if c =? 34 then Some 34          (* quote *)
   else if c =? 92 then Some 92     (* backslash *)
   else if c =? 47 then Some 47     (* slash *)
   else if c =? 98 then Some 8      (* b: backspace *)
   else if c =? 102 then Some 12    (* f: form feed *)
   else if c =? 110 then Some 10    (* n: line feed *)
   else if c =? 114 then Some 13    (* r: carriage return *)
   else if c =? 116 then Some 9     (* t: tab *)
   else None)%N.

(** The text after an opening quote, up to and including the closing one. *)
Fixpoint parse_string_body (s : jsstring) : option (jsstring * jsstring) :=
  match s with
  | [] => None
  | c :: r =>
      if (c =? 34)%N then Some ([], r)
      else if (c =? 92)%N then
        match r with
        | e :: r1 =>
            if (e =? 117)%N then
              match r1 with
              | h1 :: h2 :: h3 :: h4 :: r2 =>
                  match hex4 h1 h2 h3 h4, parse_string_body r2 with
                  | Some u, Some (body, rest) => Some (u :: body, rest)
                  | _, _ => None
                  end
              | _ => None
              end
            else
              match simple_escape e, parse_string_body r1 with
              | Some u, Some (body, rest) => Some (u :: body, rest)
              | _, _ => None
              end
        | [] => None
        end
      else if (c <? 32)%N then None
      else
        match parse_string_body r with
        | Some (body, rest) => Some (c :: body, rest)
        | None => None
        end
  end.

(** The recursive descent over values, members and elements.  Parsing a
    value, or the rest of an object or array, that takes up [n] code units
    needs at most [n] units of fuel, so the [S (length s)] units that
    [JSON_parse] gives are enough for a text [s] (lemma
    [JSON_parse_complete] below). *)
Fixpoint parse_value (fuel : nat) (s : jsstring) : option (json * jsstring) :=
  match fuel with
  | O => None
  | S fuel' =>
      match skip_ws s with
      | [] => None
      | c :: r =>
          if (c =? 123)%N then                                  (* { *)
            match skip_ws r with
            | c1 :: r1 =>
                if (c1 =? 125)%N then Some (JObject [], r1)
                else parse_members fuel' [] r
            | [] => None
            end
          else if (c =? 91)%N then                              (* [ *)
            match skip_ws r with
            | c1 :: r1 =>
                if (c1 =? 93)%N then Some (JArray [], r1)
                else parse_elements fuel' [] r
            | [] => None
            end
          else if (c =? 34)%N then
            match parse_string_body r with
            | Some (str, rest) => Some (JString str, rest)
            | None => None
            end
          else if startsWith (c :: r) (lit "true") then
            Some (JBool true, skipn 4 (c :: r))
          else if startsWith (c :: r) (lit "false") then
            Some (JBool false, skipn 5 (c :: r))
          else if startsWith (c :: r) (lit "null") then
            Some (JNull, skipn 4 (c :: r))
          else parse_number (c :: r)
      end
  end
with parse_members (fuel : nat) (acc : list (jsstring * json)) (s : jsstring)
  : option (json * jsstring) :=
  match fuel with
  | O => None
  | S fuel' =>
      match skip_ws s with
      | c :: r =>
          if (c =? 34)%N then
            match parse_string_body r with
            | Some (k, r1) =>
                match skip_ws r1 with
                | c2 :: r2 =>
                    if (c2 =? 58)%N then
                      match parse_value fuel' r2 with
                      | Some (v, r3) =>
                          match skip_ws r3 with
                          | c4 :: r4 =>
                              if (c4 =? 44)%N then
                                parse_members fuel' (obj_set acc k v) r4
                              else if (c4 =? 125)%N then
                                Some (JObject (obj_set acc k v), r4)
                              else None
                          | [] => None
                          end
                      | None => None
                      end
                    else None
                | [] => None
                end
            | None => None
            end
          else None
      | [] => None
      end
  end
with parse_elements (fuel : nat) (acc : list json) (s : jsstring)
  : option (json * jsstring) :=
  match fuel with
  | O => None
  | S fuel' =>
      match parse_value fuel' s with
      | Some (v, r) =>
          match skip_ws r with
          | c :: r1 =>
              if (c =? 44)%N then parse_elements fuel' (acc ++ [v]) r1
              else if (c =? 93)%N then Some (JArray (acc ++ [v]), r1)
              else None
          | [] => None
          end
      | None => None
      end
  end.

(** [JSON.parse text]: [None] stands for the [SyntaxError] it throws. *)
Definition JSON_parse (text : jsstring) : option json :=
  match parse_value (S (length text)) text with
  | Some (v, rest) => if is_nil (skip_ws rest) then Some v else None
  | None => None
  end.

(** ** Thrown values

    What a [catch] clause can receive: an instance of [Error] with its
    message, or any other value. *)

Inductive Thrown : Type :=
| ErrorObject (message : jsstring)
| OtherValue.

(** The errors the engine itself raises in the component. *)
Inductive EngineError : Type :=
| JsonSyntaxError (text : jsstring)
| ReadOfNullish (base_is_null : bool) (property : jsstring)
| NotAFunction (property : jsstring)
| NotPrimitive.

(** ** What is left to the platform

    The Unicode case mapping, the printing of numbers and the wording of
    the engine's own error messages are not written in the repository;
    they are taken as given. *)

Class Platform : Type := {
  toLowerCase : jsstring -> jsstring;
  Number_toString : bool -> N -> Z -> jsstring;
  engine_message : EngineError -> jsstring
}.

Definition Completion (A : Type) : Type := (Thrown + A)%type.

Definition bind {A B} (c : Completion A) (k : A -> Completion B)
  : Completion B :=
  match c with
  | inl t => inl t
  | inr a => k a
  end.

Notation "'let!' x ':=' c 'in' k" := (bind c (fun x => k))
  (at level 10, x name, c at level 100, k at level 200).

Section WithPlatform.
Context {P : Platform}.

Definition throwEngine {A} (e : EngineError) : Completion A :=
  inl (ErrorObject (engine_message e)).

(** [JSON.parse] as a completion. *)
Definition JSON_parse_c (text : jsstring) : Completion json :=
  match JSON_parse text with
  | Some v => inr v
  | None => throwEngine (JsonSyntaxError text)
  end.

(** A value read from parsed JSON: [None] is [undefined]. *)
Definition jsval : Type := option json.

(** The properties the component reads.  None of these names belongs to a
    built-in prototype, so reading one from a string, number, boolean or
    array yields [undefined]. *)
Inductive Field : Type :=
| f_appName | f_theme | f_code
| f_html | f_css | f_javascript
| f_backgroundColor | f_primaryColor | f_textColor | f_headerFont | f_bodyFont.

Definition field_name (f : Field) : jsstring :=
  match f with
  | f_appName => lit "appName"
  | f_theme => lit "theme"
  | f_code => lit "code"
  | f_html => lit "html"
  | f_css => lit "css"
  | f_javascript => lit "javascript"
  | f_backgroundColor => lit "backgroundColor"
  | f_primaryColor => lit "primaryColor"
  | f_textColor => lit "textColor"
  | f_headerFont => lit "headerFont"
  | f_bodyFont => lit "bodyFont"
  end.

(** [base.f]: a [TypeError] on [undefined] and [null]. *)
Definition get (base : jsval) (f : Field) : Completion jsval :=
  match base with
  | None => throwEngine (ReadOfNullish false (field_name f))
  | Some JNull => throwEngine (ReadOfNullish true (field_name f))
  | Some (JObject ms) => inr (obj_get ms (field_name f))
  | Some _ => inr None
  end.

(** [ToString] on parsed JSON.  An object prints as [[object Object]]
    unless it has a member named [toString], which hides the inherited
    method and is not callable: the conversion then throws.  An array is
    joined with commas, [null] elements printing as the empty string. *)
Fixpoint json_toString (v : json) : Completion jsstring :=
  match v with
  | JNull => inr (lit "null")
  | JBool b => inr (if b then lit "true" else lit "false")
  | JNumber neg m e => inr (Number_toString neg m e)
  | JString s => inr s
  | JObject ms =>
      match obj_get ms (lit "toString") with
      | Some _ => throwEngine NotPrimitive
      | None => inr (lit "[object Object]")
      end
  | JArray vs =>
      (fix join (l : list json) : Completion jsstring :=
         match l with
         | [] => inr []
         | x :: r =>
             let! sx :=
               match x with JNull => inr [] | _ => json_toString x end in
             match r with
             | [] => inr sx
             | _ :: _ => let! sr := join r in inr (sx ++ lit "," ++ sr)
             end
         end) vs
  end.

Definition ToString (v : jsval) : Completion jsstring :=
  match v with
  | None => inr (lit "undefined")
  | Some j => json_toString j
  end.

End WithPlatform.

(** A decimal [m * 10^e] becomes the number zero when it is at most
    [2^-1075], half of the smallest positive double. *)
Definition number_is_zero (m : N) (e : Z) : bool :=
  if (m =? 0)%N then true
  else match e with
       | Z.neg p => (Z.of_N m * 2 ^ 1075 <=? 10 ^ Z.pos p)%Z
       | _ => false
       end.

(** [ToBoolean]: what [if (v)] and [!v] test. *)
Definition toBoolean (v : json) : bool :=
  match v with
  | JNull => false
  | JBool b => b
  | JNumber _ m e => negb (number_is_zero m e)
  | JString s => negb (is_nil s)
  | JArray _ => true
  | JObject _ => true
  end.

End JS.

Import JS.

(* ================================================================== *)
(** * Data model *)
(* ================================================================== *)

Definition BUILD_PROPOSAL_TOKEN : jsstring := lit "[PROPOSE_BUILD]".

(** ['image' | 'audio'] *)
Inductive MediaType : Type := image | audio.

(** What the component reads of a [File]: its name and its MIME type. *)
Record File : Type := {
  file_name : jsstring;
  file_type : jsstring
}.

Record Attachment : Type := {
  file : File;
  dataUrl : jsstring;
  type : MediaType
}.

Inductive Author : Type := limo | user.

Record DisplayAttachment : Type := {
  url : jsstring;
  url_type : MediaType
}.

(** Optional members are [option]s: [None] is an absent member. *)
Record DisplayMessage : Type := {
  author : Author;
  text : jsstring;
  msg_attachment : option DisplayAttachment;
  proposeBuild : option bool;
  buildCompleted : option bool
}.

(** [data] is the second piece of the data URL split at commas, which is
    [undefined] when the URL has no comma. *)
Record InlineData : Type := {
  mimeType : jsstring;
  data : option jsstring
}.

Record HistoryPart : Type := {
  part_text : option jsstring;
  inlineData : option InlineData
}.

Inductive Role : Type := role_user | role_model.

Record HistoryContent : Type := {
  role : Role;
  parts : list HistoryPart
}.

Inductive Tab : Type := tab_preview | tab_code.

(** The reactive state of the component.  [ai] tells whether the client
    object exists; [appData] holds whatever [JSON.parse] returned, [JNull]
    being [null]. *)
Record LimoApp : Type := {
  apiKeyMissing : bool;
  ai : bool;
  currentPrompt : jsstring;
  isLoading : bool;
  error : option jsstring;
  appData : json;
  activeTab : Tab;
  history : list HistoryContent;
  displayHistory : list DisplayMessage;
  isFullscreen : bool;
  attachment : option Attachment
}.

Definition set_currentPrompt (v : jsstring) (st : LimoApp) : LimoApp :=
  {| apiKeyMissing := apiKeyMissing st; ai := ai st; currentPrompt := v;
     isLoading := isLoading st; error := error st; appData := appData st;
     activeTab := activeTab st; history := history st;
     displayHistory := displayHistory st; isFullscreen := isFullscreen st;
     attachment := attachment st |}.

Definition set_isLoading (v : bool) (st : LimoApp) : LimoApp :=
  {| apiKeyMissing := apiKeyMissing st; ai := ai st;
     currentPrompt := currentPrompt st;
     isLoading := v; error := error st; appData := appData st;
     activeTab := activeTab st; history := history st;
     displayHistory := displayHistory st; isFullscreen := isFullscreen st;
     attachment := attachment st |}.

Definition set_error (v : option jsstring) (st : LimoApp) : LimoApp :=
  {| apiKeyMissing := apiKeyMissing st; ai := ai st;
     currentPrompt := currentPrompt st;
     isLoading := isLoading st; error := v; appData := appData st;
     activeTab := activeTab st; history := history st;
     displayHistory := displayHistory st; isFullscreen := isFullscreen st;
     attachment := attachment st |}.

Definition set_appData (v : json) (st : LimoApp) : LimoApp :=
  {| apiKeyMissing := apiKeyMissing st; ai := ai st;
     currentPrompt := currentPrompt st;
     isLoading := isLoading st; error := error st; appData := v;
     activeTab := activeTab st; history := history st;
     displayHistory := displayHistory st; isFullscreen := isFullscreen st;
     attachment := attachment st |}.

Definition set_activeTab (v : Tab) (st : LimoApp) : LimoApp :=
  {| apiKeyMissing := apiKeyMissing st; ai := ai st;
     currentPrompt := currentPrompt st;
     isLoading := isLoading st; error := error st; appData := appData st;
     activeTab := v; history := history st;
     displayHistory := displayHistory st; isFullscreen := isFullscreen st;
     attachment := attachment st |}.

Definition set_history (v : list HistoryContent) (st : LimoApp) : LimoApp :=
  {| apiKeyMissing := apiKeyMissing st; ai := ai st;
     currentPrompt := currentPrompt st;
     isLoading := isLoading st; error := error st; appData := appData st;
     activeTab := activeTab st; history := v;
     displayHistory := displayHistory st; isFullscreen := isFullscreen st;
     attachment := attachment st |}.

Definition set_displayHistory (v : list DisplayMessage) (st : LimoApp)
  : LimoApp :=
  {| apiKeyMissing := apiKeyMissing st; ai := ai st;
     currentPrompt := currentPrompt st;
     isLoading := isLoading st; error := error st; appData := appData st;
     activeTab := activeTab st; history := history st;
     displayHistory := v; isFullscreen := isFullscreen st;
     attachment := attachment st |}.

Definition set_isFullscreen (v : bool) (st : LimoApp) : LimoApp :=
  {| apiKeyMissing := apiKeyMissing st; ai := ai st;
     currentPrompt := currentPrompt st;
     isLoading := isLoading st; error := error st; appData := appData st;
     activeTab := activeTab st; history := history st;
     displayHistory := displayHistory st; isFullscreen := v;
     attachment := attachment st |}.

Definition set_attachment (v : option Attachment) (st : LimoApp) : LimoApp :=
  {| apiKeyMissing := apiKeyMissing st; ai := ai st;
     currentPrompt := currentPrompt st;
     isLoading := isLoading st; error := error st; appData := appData st;
     activeTab := activeTab st; history := history st;
     displayHistory := displayHistory st; isFullscreen := isFullscreen st;
     attachment := v |}.

(** [constructor]: the key is missing when [process.env.API_KEY] is
    undefined or empty. *)
Definition constructor (apiKey : option jsstring) : LimoApp :=
  let missing :=
    match apiKey with
    | None => true
    | Some k => is_nil k
    end in
  {| apiKeyMissing := missing;
     ai := negb missing;
     currentPrompt := [];
     isLoading := false;
     error := None;
     appData := JNull;
     activeTab := tab_preview;
     history := [];
     displayHistory :=
       [ {| author := limo;
            text := lit "Hello! I'm Limo, now upgraded with advanced capabilities. I can help you design and build complex web applications, interactive 3D experiences, data visualizations, and more. Describe your most ambitious idea, and let's build it together.";
            msg_attachment := None;
            proposeBuild := None;
            buildCompleted := None |} ];
     isFullscreen := false;
     attachment := None |}.

(** ** The model call

    [ai.models.generateContent] is the one external call.  A request
    carries the conversation and either a system instruction or a response
    schema; the call settles by rejecting with a thrown value or by
    fulfilling with a response whose [text] may be undefined. *)

Inductive Schema : Type :=
| SString (description : jsstring)
| SObject (description : option jsstring)
          (properties : list (jsstring * Schema))
          (required : list jsstring).

Inductive Config : Type :=
| ChatConfig (systemInstruction : jsstring)
| JsonConfig (responseMimeType : jsstring) (responseSchema : Schema).

Record Request : Type := {
  model : jsstring;
  contents : list HistoryContent;
  config : Config
}.

Inductive Outcome : Type :=
| Rejected (e : Thrown)
| Fulfilled (response_text : option jsstring).

(** What a handler keeps across its [await]: which continuation runs when
    the request settles, with the local variables it still needs. *)
Inductive Pending : Type :=
| AwaitChat (currentHistory : list HistoryContent)
| AwaitModification (historyUserParts : list HistoryPart)
| AwaitBuild.

(** How the synchronous part of a handler ends. *)
Inductive Started : Type :=
| Returned
| Waiting (request : Request) (continuation : Pending).

(** ** Handlers as state transformers that may throw *)

Definition Action (A : Type) : Type := LimoApp -> LimoApp * Completion A.

Definition ret {A} (a : A) : Action A := fun st => (st, inr a).

Definition throw {A} (e : Thrown) : Action A := fun st => (st, inl e).

Definition seq {A B} (m : Action A) (k : A -> Action B) : Action B :=
  fun st =>
    match m st with
    | (st1, inl e) => (st1, inl e)
    | (st1, inr a) => k a st1
    end.

Definition this : Action LimoApp := fun st => (st, inr st).

Definition assign (f : LimoApp -> LimoApp) : Action unit :=
  fun st => (f st, inr tt).

Definition lift {A} (c : Completion A) : Action A := fun st => (st, c).

Notation "x <- m ;; k" := (seq m (fun x => k))
  (at level 61, m at next level, right associativity).
Notation "m ;; k" := (seq m (fun _ => k))
  (at level 61, right associativity).

(** [try { body } catch (e) { handler } finally { final }] *)
Definition try_catch_finally (body : Action unit)
  (handler : Thrown -> Action unit) (final : Action unit) : Action unit :=
  fun st =>
    match body st with
    | (st1, inr _) => final st1
    | (st1, inl e) =>
        match handler e st1 with
        | (st2, inr _) => final st2
        | (st2, inl e') =>
            match final st2 with
            | (st3, inr _) => (st3, inl e')
            | (st3, inl e'') => (st3, inl e'')
            end
        end
    end.

(** [this.displayHistory.pop()]: removes the last element in place; on an
    empty array it does nothing. *)
Definition displayHistory_pop : Action unit :=
  assign (fun st => set_displayHistory (removelast (displayHistory st)) st).

(** [this.displayHistory = [...this.displayHistory, m]] *)
Definition displayHistory_push (m : DisplayMessage) : Action unit :=
  assign (fun st => set_displayHistory (displayHistory st ++ [m]) st).

Definition limo_says (t : jsstring) : DisplayMessage :=
  {| author := limo; text := t; msg_attachment := None;
     proposeBuild := None; buildCompleted := None |}.

Definition text_part (t : jsstring) : HistoryPart :=
  {| part_text := Some t; inlineData := None |}.

(* ================================================================== *)
(** * The event handlers *)
(* ================================================================== *)

Definition is_some {A} (o : option A) : bool :=
  match o with Some _ => true | None => false end.

(** [array.map((x, index) => f index x)] *)
Fixpoint mapi_from {A B} (f : nat -> A -> B) (i : nat) (l : list A) : list B :=
  match l with
  | [] => []
  | x :: r => f i x :: mapi_from f (S i) r
  end.

Definition mapi {A B} (f : nat -> A -> B) (l : list A) : list B :=
  mapi_from f 0 l.

(** ** Texts sent to the model and shown to the user *)

Definition chatSystemInstruction : jsstring :=
  lit "You are Limo, a master AI software architect and developer. Your goal is to have a detailed conversation with the user to help them specify their idea for any web-based project, from a simple website to a complex, interactive 3D application. You are an expert in modern web technologies, including HTML, CSS, JavaScript, and advanced libraries like Three.js for 3D graphics, D3.js for data visualization, and more. Ask clarifying questions about features, design, user interaction, and technical requirements. Guide them towards a complete plan. Do NOT output JSON or code. When you believe you have a clear and complete specification from the conversation, end your response with the exact token " ++ dq
  ++ BUILD_PROPOSAL_TOKEN
  ++ dq ++ lit " and nothing else after it.".

Definition modification_textContent
  (html css javascript modificationPrompt : jsstring) : jsstring :=
  lit "You are an expert AI web developer with advanced capabilities, including using libraries like Three.js for 3D graphics. The user wants to modify the existing application.
        
        Here is the current, complete code for the app:
        
        **HTML:**
        ```html
        "
  ++ html
  ++ lit "
        ```
        
        **CSS:**
        ```css
        "
  ++ css
  ++ lit "
        ```
        
        **JavaScript:**
        ```javascript
        "
  ++ javascript
  ++ lit "
        ```
        
        Here is the user's modification request: " ++ dq
  ++ modificationPrompt
  ++ dq ++ lit "

        **IMPORTANT INSTRUCTIONS:**
        1.  If the user's request requires a new library (e.g., adding 3D to a 2D site with Three.js), you MUST add the library's CDN script tag to the HTML.
        2.  If the request involves images, you MUST find a suitable, high-quality, royalty-free image URL from a stock photo service like Unsplash or Pexels and embed it. Do not use placeholder images.
        
        Your task is to apply the user's requested changes to the code. You must return the COMPLETE, updated code for the entire application.
        Do not just return snippets. Your response MUST be a single JSON object that strictly follows the provided schema. 
        Do not add any conversational text or explanations outside of the JSON object.".

Definition buildInstruction : HistoryContent :=
  {| role := role_user;
     parts := [ text_part (
  lit "Based on our entire conversation, generate a complete, self-contained, and functional application. You are a master developer. Your capabilities include, but are not limited to:
    1.  **Standard Websites:** Create rich, responsive websites using HTML, CSS, and JavaScript.
    2.  **3D Experiences:** For 3D requests, you MUST use the Three.js library. Include it from a CDN (e.g., 'https://cdn.jsdelivr.net/npm/three@latest/build/three.module.js'). Generate all necessary boilerplate: scene, camera, renderer, lighting, and the 3D objects themselves. Add controls like OrbitControls if the user wants to interact with the scene.
    3.  **Advanced Libraries:** Use other libraries from CDNs as needed (e.g., D3.js for charts, Socket.io for real-time chat, etc.).
    4.  **External Assets:** If the user's idea requires images (e.g., a " ++ dq ++ lit "cat gallery" ++ dq ++ lit " or a texture for a 3D model), you MUST find suitable, high-quality, royalty-free image URLs from a stock photo service like Unsplash or Pexels. Then, embed these images directly into the HTML code or use them in your JavaScript (e.g., as textures). Do not use placeholder images.
    
    Your response MUST be a single JSON object that strictly follows the provided schema. Do not add any conversational text or explanations outside of the JSON object. Synthesize all requirements discussed to produce a fully working initial version.") ] |}.

Definition modification_working : jsstring :=
  lit "Okay, I'm updating the app with your changes...".

Definition modification_done (name : jsstring) : jsstring :=
  lit "I've updated **"
  ++ name
  ++ lit "** with your changes! Check it out in the preview.".

Definition modification_summary (name : jsstring) : jsstring :=
  lit "Okay, I have updated the code for "
  ++ name
  ++ lit " based on your request.".

Definition build_working : jsstring :=
  lit "Okay, I'm building that for you now. This might take a moment...".

Definition build_summary (name : jsstring) : jsstring :=
  lit "Okay, I have built the first version of "
  ++ name
  ++ lit ".".

Definition build_done (name : jsstring) : jsstring :=
  lit "I've created the first version of **"
  ++ name
  ++ lit "**! You can see it in the preview. Let me know what you'd like to change or add.".

Definition unsupported_file_type : jsstring :=
  lit "Unsupported file type. Please select an image or audio file.".

Definition service_busy_message : jsstring :=
  lit "The service is currently experiencing high demand. Please wait a moment before trying again.".

Definition configuration_issue_message : jsstring :=
  lit "There is a configuration issue with the AI service. Please notify the administrator.".

Definition timed_out_message : jsstring :=
  lit "The request timed out. This may be due to high server load. Please try again.".

Definition unexpected_error_message : jsstring :=
  lit "Sorry, an unexpected error occurred while communicating with the AI. Please check the console for details and try again.".

(** The response schema of a modification request. *)
Definition modification_responseSchema : Schema :=
  SObject None
    [(lit "appName", SString (lit "The name of the application, updated if necessary based on the request."));
     (lit "theme", SObject (Some (lit "A cohesive design theme, updated if necessary."))
      [
       (lit "backgroundColor", SString (lit "A CSS background color (e.g., #FFFFFF)."));
       (lit "primaryColor", SString (lit "The main accent color for buttons and interactive elements (e.g., #4A90E2)."));
       (lit "textColor", SString (lit "The primary text color (e.g., #333333)."));
       (lit "headerFont", SString (lit "The name of a Google Font for headers (e.g., " ++ dq ++ lit "Poppins" ++ dq ++ lit ")."));
       (lit "bodyFont", SString (lit "The name of a Google Font for body text (e.g., " ++ dq ++ lit "Lato" ++ dq ++ lit ")."))
      ]
      [lit "backgroundColor"; lit "primaryColor"; lit "textColor"; lit "headerFont"; lit "bodyFont"]);
     (lit "code", SObject (Some (lit "The complete and updated source code for the application."))
      [
       (lit "html", SString (lit "The full, updated HTML body content."));
       (lit "css", SString (lit "The complete, updated CSS for styling."));
       (lit "javascript", SString (lit "The complete, updated JavaScript code for interactivity and logic."))
      ]
      [lit "html"; lit "css"; lit "javascript"])]
    [lit "appName"; lit "theme"; lit "code"].

(** The response schema of the initial build. *)
Definition build_responseSchema : Schema :=
  SObject None
    [(lit "appName", SString (lit "A creative name for the application, website, or game."));
     (lit "theme", SObject (Some (lit "A cohesive design theme."))
      [
       (lit "backgroundColor", SString (lit "A CSS background color (e.g., #FFFFFF)."));
       (lit "primaryColor", SString (lit "The main accent color for buttons and interactive elements (e.g., #4A90E2)."));
       (lit "textColor", SString (lit "The primary text color (e.g., #333333)."));
       (lit "headerFont", SString (lit "The name of a Google Font for headers (e.g., " ++ dq ++ lit "Poppins" ++ dq ++ lit ")."));
       (lit "bodyFont", SString (lit "The name of a Google Font for body text (e.g., " ++ dq ++ lit "Lato" ++ dq ++ lit ")."))
      ]
      [lit "backgroundColor"; lit "primaryColor"; lit "textColor"; lit "headerFont"; lit "bodyFont"]);
     (lit "code", SObject (Some (lit "The complete source code for the application."))
      [
       (lit "html", SString (lit "The full HTML body content. This can include script tags for external libraries like Three.js."));
       (lit "css", SString (lit "The complete CSS for styling. It should not include a body tag selector, but can style other elements."));
       (lit "javascript", SString (lit "The complete JavaScript code for interactivity and logic. This code should be a module if it uses imports from a library like Three.js."))
      ]
      [lit "html"; lit "css"; lit "javascript"])]
    [lit "appName"; lit "theme"; lit "code"].

Definition model_name : jsstring := lit "gemini-2.5-flash".

Section Handlers.
Context {P : Platform}.

(** ** [handleApiError]

    The [console.error] call leaves no trace in the state and is not
    modelled. *)
Definition handleApiError (error : Thrown) : jsstring :=
  match error with
  | ErrorObject message =>
      let errorMessage := toLowerCase message in
      if includes errorMessage (lit "429")
         || includes errorMessage (lit "resource_exhausted")
         || includes errorMessage (lit "quota")
      then service_busy_message
      else if includes errorMessage (lit "api key not valid")
      then configuration_issue_message
      else if includes errorMessage (lit "deadline exceeded")
      then timed_out_message
      else unexpected_error_message
  | OtherValue => unexpected_error_message
  end.

(** The [catch] and [finally] clauses, which the three requesting
    handlers write in the same words. *)
Definition catch_clause (e : Thrown) : Action unit :=
  assign (fun st => set_error (Some (handleApiError e)) st) ;;
  displayHistory_pop.

Definition finally_clause : Action unit :=
  assign (set_isLoading false).

(** [await this.ai!.models.generateContent(request)], up to the point
    where the handler is suspended.  Without a client object the read of
    [models] throws inside the [try] block, so the [catch] and [finally]
    clauses run at once and no request is issued. *)
Definition generateContent (request : Request) (k : Pending)
  : Action Started :=
  st <- this ;;
  if ai st then ret (Waiting request k)
  else
    try_catch_finally
      (lift (throwEngine (ReadOfNullish true (lit "models"))))
      catch_clause finally_clause ;;
    ret Returned.

(** The value of the [await] expression once the request has settled. *)
Definition await (o : Outcome) : Action (option jsstring) :=
  match o with
  | Rejected e => throw e
  | Fulfilled t => ret t
  end.

(** [response.text.trim()] *)
Definition response_text_trim (response : option jsstring) : Action jsstring :=
  match response with
  | Some t => ret (trim t)
  | None => lift (throwEngine (ReadOfNullish false (lit "trim")))
  end.

(** The display and history forms of the pending attachment. *)
Definition display_attachment (a : Attachment) : DisplayAttachment :=
  {| url := dataUrl a; url_type := type a |}.

Definition inline_part (a : Attachment) : HistoryPart :=
  let pieces := split_on 44%N (dataUrl a) in
  let header := hd [] pieces in
  let base64Data := nth_error pieces 1 in
  let mimeType :=
    match match_colon_semicolon header with
    | Some cap => if is_nil cap then file_type (file a) else cap
    | None => file_type (file a)
    end in
  {| part_text := None;
     inlineData := Some {| mimeType := mimeType; data := base64Data |} |}.

Definition user_message (t : jsstring) (a : option Attachment)
  : DisplayMessage :=
  {| author := user; text := t;
     msg_attachment := option_map display_attachment a;
     proposeBuild := None; buildCompleted := None |}.

Definition user_parts (t : jsstring) (a : option Attachment)
  : list HistoryPart :=
  match a with Some att => [inline_part att] | None => [] end
  ++ (if is_nil t then [] else [text_part t]).

(** [`${base.f}`]: the property read followed by the conversion. *)
Definition interpolate (base : jsval) (f : Field) : Completion jsstring :=
  let! v := get base f in ToString v.

(** ** [handleModificationRequest] *)

Definition handleModificationRequest_begin (modificationPrompt : jsstring)
  : Action Started :=
  st <- this ;;
  if negb (toBoolean (appData st)) then ret Returned
  else
    assign (set_isLoading true) ;;
    assign (set_error None) ;;
    st <- this ;;
    let displayMessage := user_message modificationPrompt (attachment st) in
    let historyUserParts := user_parts modificationPrompt (attachment st) in
    displayHistory_push displayMessage ;;
    displayHistory_push (limo_says modification_working) ;;
    assign (set_currentPrompt []) ;;
    assign (set_attachment None) ;;
    let imagePart := find (fun p => is_some (inlineData p)) historyUserParts in
    let apiCallParts :=
      match imagePart with Some p => [p] | None => [] end in
    st <- this ;;
    textContent <- lift (
      let! c := get (Some (appData st)) f_code in
      let! html := interpolate c f_html in
      let! c := get (Some (appData st)) f_code in
      let! css := interpolate c f_css in
      let! c := get (Some (appData st)) f_code in
      let! javascript := interpolate c f_javascript in
      inr (modification_textContent html css javascript modificationPrompt)) ;;
    let apiCallParts := apiCallParts ++ [text_part textContent] in
    let modificationInstruction :=
      {| role := role_user; parts := apiCallParts |} in
    generateContent
      {| model := model_name;
         contents := [modificationInstruction];
         config := JsonConfig (lit "application/json")
                     modification_responseSchema |}
      (AwaitModification historyUserParts).

(** The [try] block after the [await]. *)
Definition handleModificationRequest_try
  (historyUserParts : list HistoryPart) (o : Outcome) : Action unit :=
  response <- await o ;;
  displayHistory_pop ;;
  jsonText <- response_text_trim response ;;
  updatedAppData <- lift (JSON_parse_c jsonText) ;;
  assign (set_appData updatedAppData) ;;
  name <- lift (interpolate (Some updatedAppData) f_appName) ;;
  displayHistory_push (limo_says (modification_done name)) ;;
  name' <- lift (interpolate (Some updatedAppData) f_appName) ;;
  assign (fun st =>
    set_history
      (history st ++
       [ {| role := role_user; parts := historyUserParts |};
         {| role := role_model;
            parts := [text_part (modification_summary name')] |} ]) st).

Definition handleModificationRequest_resume
  (historyUserParts : list HistoryPart) (o : Outcome) : Action unit :=
  try_catch_finally (handleModificationRequest_try historyUserParts o)
    catch_clause finally_clause.

(** ** [handleSendMessage] *)

Definition handleSendMessage_begin : Action Started :=
  st <- this ;;
  let userText := trim (currentPrompt st) in
  if (is_nil userText && negb (is_some (attachment st))) || isLoading st
  then ret Returned
  else if toBoolean (appData st)
  then handleModificationRequest_begin userText
  else
    assign (set_isLoading true) ;;
    assign (set_error None) ;;
    assign (set_currentPrompt []) ;;
    st <- this ;;
    let displayMessage := user_message userText (attachment st) in
    let userParts := user_parts userText (attachment st) in
    displayHistory_push displayMessage ;;
    let newUserContent := {| role := role_user; parts := userParts |} in
    st <- this ;;
    let currentHistory := history st ++ [newUserContent] in
    assign (set_attachment None) ;;
    generateContent
      {| model := model_name;
         contents := currentHistory;
         config := ChatConfig chatSystemInstruction |}
      (AwaitChat currentHistory).

(** The [try] block after the [await]. *)
Definition handleSendMessage_try
  (currentHistory : list HistoryContent) (o : Outcome) : Action unit :=
  response <- await o ;;
  aiText <- response_text_trim response ;;
  let proposeBuild := endsWith aiText BUILD_PROPOSAL_TOKEN in
  let aiText :=
    if proposeBuild then trim (replace aiText BUILD_PROPOSAL_TOKEN [])
    else aiText in
  let aiMessage :=
    {| author := limo; text := aiText; msg_attachment := None;
       proposeBuild := Some proposeBuild; buildCompleted := None |} in
  displayHistory_push aiMessage ;;
  assign (set_history
            (currentHistory ++
             [ {| role := role_model; parts := [text_part aiText] |} ])).

Definition handleSendMessage_resume
  (currentHistory : list HistoryContent) (o : Outcome) : Action unit :=
  try_catch_finally (handleSendMessage_try currentHistory o)
    catch_clause finally_clause.

(** ** [handleBuildApp] *)

Definition with_buildCompleted (msg : DisplayMessage) : DisplayMessage :=
  {| author := author msg; text := text msg;
     msg_attachment := msg_attachment msg;
     proposeBuild := proposeBuild msg;
     buildCompleted := Some true |}.

Definition handleBuildApp_begin (messageIndex : nat) : Action Started :=
  assign (set_isLoading true) ;;
  assign (set_error None) ;;
  assign (fun st =>
    set_displayHistory
      (mapi (fun index msg =>
               if index =? messageIndex then with_buildCompleted msg else msg)
            (displayHistory st)) st) ;;
  displayHistory_push (limo_says build_working) ;;
  st <- this ;;
  let currentHistory := history st ++ [buildInstruction] in
  generateContent
    {| model := model_name;
       contents := currentHistory;
       config := JsonConfig (lit "application/json") build_responseSchema |}
    AwaitBuild.

(** The [try] block after the [await]. *)
Definition handleBuildApp_try (o : Outcome) : Action unit :=
  response <- await o ;;
  displayHistory_pop ;;
  jsonText <- response_text_trim response ;;
  newAppData <- lift (JSON_parse_c jsonText) ;;
  assign (set_appData newAppData) ;;
  name <- lift (interpolate (Some newAppData) f_appName) ;;
  assign (fun st =>
    set_history
      (history st ++
       [ {| role := role_model;
            parts := [text_part (build_summary name)] |} ]) st) ;;
  name' <- lift (interpolate (Some newAppData) f_appName) ;;
  displayHistory_push (limo_says (build_done name')) ;;
  assign (set_activeTab tab_preview).

Definition handleBuildApp_resume (o : Outcome) : Action unit :=
  try_catch_finally (handleBuildApp_try o) catch_clause finally_clause.

(** ** Whole handlers

    The continuation selected by what the handler kept, and a handler run
    from its call to its end when the request it issued settles with [o]
    and nothing else happens in between. *)
Definition resume (k : Pending) (o : Outcome) : Action unit :=
  match k with
  | AwaitChat currentHistory => handleSendMessage_resume currentHistory o
  | AwaitModification historyUserParts =>
      handleModificationRequest_resume historyUserParts o
  | AwaitBuild => handleBuildApp_resume o
  end.

Definition run_to_end (begin : Action Started) (o : Outcome) : Action unit :=
  started <- begin ;;
  match started with
  | Returned => ret tt
  | Waiting _ k => resume k o
  end.

Definition handleSendMessage (o : Outcome) : Action unit :=
  run_to_end handleSendMessage_begin o.

Definition handleModificationRequest (modificationPrompt : jsstring)
  (o : Outcome) : Action unit :=
  run_to_end (handleModificationRequest_begin modificationPrompt) o.

Definition handleBuildApp (messageIndex : nat) (o : Outcome) : Action unit :=
  run_to_end (handleBuildApp_begin messageIndex) o.

(** ** The handlers that issue no request *)

Definition handlePromptInput (value : jsstring) : Action unit :=
  assign (set_currentPrompt value).

(** [handlePromptKeydown]: Enter without Shift sends. *)
Definition handlePromptKeydown (key : jsstring) (shiftKey : bool)
  : Action Started :=
  if jsstring_eqb key (lit "Enter") && negb shiftKey
  then handleSendMessage_begin
  else ret Returned.

(** [handleFileSelected]: the result is the file whose reading was
    started, if any.  Resetting the input element is not modelled. *)
Definition handleFileSelected (selected : option File)
  : Action (option File) :=
  match selected with
  | None => ret None
  | Some f =>
      if negb (startsWith (file_type f) (lit "image/"))
         && negb (startsWith (file_type f) (lit "audio/"))
      then
        assign (set_error (Some unsupported_file_type)) ;;
        ret None
      else
        assign (set_error None) ;;
        ret (Some f)
  end.

(** [reader.onload], run when the reading of [f] has produced [result]. *)
Definition reader_onload (f : File) (result : jsstring) : Action unit :=
  let type := if startsWith (file_type f) (lit "image/") then image else audio in
  assign (set_attachment
            (Some {| file := f; dataUrl := result; type := type |})).

Definition removeAttachment : Action unit :=
  assign (set_attachment None).

Definition toggleFullscreen : Action unit :=
  assign (fun st => set_isFullscreen (negb (isFullscreen st)) st).

End Handlers.

(* ================================================================== *)
(** * The preview renderer and what [render] offers *)
(* ================================================================== *)

Section Renderer.
Context {P : Platform}.

(** [v.replace(/ /g, '+')] on a value read from [appData]: only a string
    has a [replace] method. *)
Definition call_replace_spaces (v : jsval) : Completion jsstring :=
  match v with
  | None => throwEngine (ReadOfNullish false (lit "replace"))
  | Some JNull => throwEngine (ReadOfNullish true (lit "replace"))
  | Some (JString s) => inr (replace_spaces s)
  | Some _ => throwEngine (NotAFunction (lit "replace"))
  end.

(** [v.includes('import ')]: strings and arrays have an [includes]
    method; on an array it looks for an element equal to the string. *)
Definition call_includes_import (v : jsval) : Completion bool :=
  match v with
  | None => throwEngine (ReadOfNullish false (lit "includes"))
  | Some JNull => throwEngine (ReadOfNullish true (lit "includes"))
  | Some (JString s) => inr (includes s (lit "import "))
  | Some (JArray vs) =>
      inr (existsb (fun x => match x with
                             | JString s => jsstring_eqb s (lit "import ")
                             | _ => false
                             end) vs)
  | Some _ => throwEngine (NotAFunction (lit "includes"))
  end.

(** The font URL, from the two font names with their spaces replaced. *)
Definition fontUrl_of (headerFamily bodyFamily : jsstring) : jsstring :=
  lit "https://fonts.googleapis.com/css2?family="
  ++ headerFamily
  ++ lit ":wght@400;700&family="
  ++ bodyFamily
  ++ lit ":wght@400;700&display=swap".

Definition module_script (javascript : jsstring) : jsstring :=
  lit "<script type=" ++ dq ++ lit "module" ++ dq ++ lit ">"
  ++ javascript
  ++ lit "</script>".

Definition classic_script (javascript : jsstring) : jsstring :=
  lit "<script>"
  ++ javascript
  ++ lit "</script>".

Definition iframe_document
  (fontUrl backgroundColor primaryColor textColor headerFont bodyFont
   css html scriptTag : jsstring) : jsstring :=
  lit "
      <!DOCTYPE html>
      <html>
        <head>
          <link rel=" ++ dq ++ lit "stylesheet" ++ dq ++ lit " href=" ++ dq
  ++ fontUrl
  ++ dq ++ lit ">
          <style>
            :root {
              --website-bg-color: "
  ++ backgroundColor
  ++ lit ";
              --website-primary-color: "
  ++ primaryColor
  ++ lit ";
              --website-text-color: "
  ++ textColor
  ++ lit ";
              --website-header-font: '"
  ++ headerFont
  ++ lit "', sans-serif;
              --website-body-font: '"
  ++ bodyFont
  ++ lit "', sans-serif;
            }
            body {
              background-color: var(--website-bg-color);
              color: var(--website-text-color);
              font-family: var(--website-body-font);
              margin: 0;
              padding: 1rem;
              box-sizing: border-box;
              overflow: hidden;
            }
            canvas {
              display: block;
              width: 100%;
              height: 100%;
            }
            h1, h2, h3 {
              font-family: var(--website-header-font);
              padding: 0 1rem;
            }
            button, input[type=" ++ dq ++ lit "button" ++ dq ++ lit "], input[type=" ++ dq ++ lit "submit" ++ dq ++ lit "] {
              background-color: var(--website-primary-color);
              color: white;
              border: none;
              padding: 0.75em 1.5em;
              border-radius: 6px;
              cursor: pointer;
              font-family: var(--website-body-font);
            }
            "
  ++ css
  ++ lit "
          </style>
        </head>
        <body>
          "
  ++ html
  ++ lit "
          "
  ++ scriptTag
  ++ lit "
        </body>
      </html>
    ".

(** [getIframeContent] *)
Definition getIframeContent (st : LimoApp) : Completion jsstring :=
  if negb (toBoolean (appData st)) then inr []
  else
    let! theme := get (Some (appData st)) f_theme in
    let! code := get (Some (appData st)) f_code in
    let! headerFont := get theme f_headerFont in
    let! headerFamily := call_replace_spaces headerFont in
    let! bodyFont := get theme f_bodyFont in
    let! bodyFamily := call_replace_spaces bodyFont in
    let fontUrl := fontUrl_of headerFamily bodyFamily in
    let! javascript := get code f_javascript in
    let! isModule := call_includes_import javascript in
    let! scriptTag :=
      if isModule
      then let! js := interpolate code f_javascript in inr (module_script js)
      else let! js := interpolate code f_javascript in inr (classic_script js)
    in
    let! backgroundColor := interpolate theme f_backgroundColor in
    let! primaryColor := interpolate theme f_primaryColor in
    let! textColor := interpolate theme f_textColor in
    let! headerFont := interpolate theme f_headerFont in
    let! bodyFont := interpolate theme f_bodyFont in
    let! css := interpolate code f_css in
    let! html := interpolate code f_html in
    inr (iframe_document fontUrl backgroundColor primaryColor textColor
           headerFont bodyFont css html scriptTag).

End Renderer.

(** ** What [render] offers

    A member that is absent or [false] is falsy. *)
Definition truthy (b : option bool) : bool :=
  match b with Some true => true | _ => false end.

(** The Build button is rendered under a message when
    [msg.proposeBuild && !msg.buildCompleted]. *)
Definition build_button (msg : DisplayMessage) : bool :=
  truthy (proposeBuild msg) && negb (truthy (buildCompleted msg)).

(** The Build button of the message at [index]: rendered and enabled. *)
Definition build_available (st : LimoApp) (index : nat) : bool :=
  negb (apiKeyMissing st)
  && match nth_error (displayHistory st) index with
     | Some msg => build_button msg
     | None => false
     end
  && negb (isLoading st).

(** The send button is disabled when
    [isLoading || (!currentPrompt.trim() && !attachment)]. *)
Definition send_available (st : LimoApp) : bool :=
  negb (apiKeyMissing st)
  && negb (isLoading st
           || (is_nil (trim (currentPrompt st))
               && negb (is_some (attachment st)))).

(** A string or [null] used as a condition: [null] and the empty string
    are falsy. *)
Definition string_truthy (s : option jsstring) : bool :=
  match s with
  | Some (_ :: _) => true
  | _ => false
  end.

(* ================================================================== *)
(** * AppData as the interface declares it *)
(* ================================================================== *)

Record Theme : Type := {
  backgroundColor : jsstring;
  primaryColor : jsstring;
  textColor : jsstring;
  headerFont : jsstring;
  bodyFont : jsstring
}.

Record AppCode : Type := {
  html : jsstring;
  css : jsstring;
  javascript : jsstring
}.

Record AppData : Type := {
  appName : jsstring;
  theme : Theme;
  code : AppCode
}.

Definition as_string (v : option json) : option jsstring :=
  match v with
  | Some (JString s) => Some s
  | _ => None
  end.

Definition as_members (v : option json) : option (list (jsstring * json)) :=
  match v with
  | Some (JObject ms) => Some ms
  | _ => None
  end.

(** The fully populated artifact a parsed value stands for: an object
    whose nine leaf fields are all present and strings.  [None] for
    anything else, in particular for a partial artifact. *)
Definition as_AppData (v : json) : option AppData :=
  match as_members (Some v) with
  | None => None
  | Some ms =>
      match as_string (obj_get ms (lit "appName")),
            as_members (obj_get ms (lit "theme")),
            as_members (obj_get ms (lit "code")) with
      | Some name, Some t, Some c =>
          match as_string (obj_get t (lit "backgroundColor")),
                as_string (obj_get t (lit "primaryColor")),
                as_string (obj_get t (lit "textColor")),
                as_string (obj_get t (lit "headerFont")),
                as_string (obj_get t (lit "bodyFont")),
                as_string (obj_get c (lit "html")),
                as_string (obj_get c (lit "css")),
                as_string (obj_get c (lit "javascript")) with
          | Some bg, Some pc, Some tc, Some hf, Some bf,
            Some h, Some s, Some j =>
              Some {| appName := name;
                      theme := {| backgroundColor := bg; primaryColor := pc;
                                  textColor := tc; headerFont := hf;
                                  bodyFont := bf |};
                      code := {| html := h; css := s; javascript := j |} |}
          | _, _, _, _, _, _, _, _ => None
          end
      | _, _, _ => None
      end
  end.

(** The JSON object of a fully populated artifact, members in the order
    of the schema. *)
Definition AppData_to_json (a : AppData) : json :=
  JObject
    [ (lit "appName", JString (appName a));
      (lit "theme",
       JObject
         [ (lit "backgroundColor", JString (backgroundColor (theme a)));
           (lit "primaryColor", JString (primaryColor (theme a)));
           (lit "textColor", JString (textColor (theme a)));
           (lit "headerFont", JString (headerFont (theme a)));
           (lit "bodyFont", JString (bodyFont (theme a))) ]);
      (lit "code",
       JObject
         [ (lit "html", JString (html (code a)));
           (lit "css", JString (css (code a)));
           (lit "javascript", JString (javascript (code a))) ]) ].

(* ================================================================== *)
(** * The single-prompt component of [src/index.tsx] *)
(* ================================================================== *)

Module Legacy.

Section Renderer.
Context {P : Platform}.

Definition fontUrl_of (headerFamily bodyFamily : jsstring) : jsstring :=
  lit "https://fonts.googleapis.com/css2?family="
  ++ headerFamily
  ++ lit ":wght@400;700&family="
  ++ bodyFamily
  ++ lit ":wght@400;700&display=swap".

Definition iframe_document
  (fontUrl backgroundColor primaryColor textColor headerFont bodyFont
   css html javascript : jsstring) : jsstring :=
  lit "
      <!DOCTYPE html>
      <html>
        <head>
          <link rel=" ++ dq ++ lit "stylesheet" ++ dq ++ lit " href=" ++ dq
  ++ fontUrl
  ++ dq ++ lit ">
          <style>
            :root {
              --website-bg-color: "
  ++ backgroundColor
  ++ lit ";
              --website-primary-color: "
  ++ primaryColor
  ++ lit ";
              --website-text-color: "
  ++ textColor
  ++ lit ";
              --website-header-font: '"
  ++ headerFont
  ++ lit "', sans-serif;
              --website-body-font: '"
  ++ bodyFont
  ++ lit "', sans-serif;
            }
            body {
              background-color: var(--website-bg-color);
              color: var(--website-text-color);
              font-family: var(--website-body-font);
              margin: 0;
              padding: 1rem;
              box-sizing: border-box;
            }
            h1, h2, h3 {
              font-family: var(--website-header-font);
            }
            button, input[type=" ++ dq ++ lit "button" ++ dq ++ lit "], input[type=" ++ dq ++ lit "submit" ++ dq ++ lit "] {
              background-color: var(--website-primary-color);
              color: white; /* Assuming white text on primary color is best */
              border: none;
              padding: 0.75em 1.5em;
              border-radius: 6px;
              cursor: pointer;
              font-family: var(--website-body-font);
            }
            "
  ++ css
  ++ lit "
          </style>
        </head>
        <body>
          "
  ++ html
  ++ lit "
          <script>
            "
  ++ javascript
  ++ lit "
          </script>
        </body>
      </html>
    ".

(** [getIframeContent], as a function of the [appData] field it reads. *)
Definition getIframeContent (appData : json) : Completion jsstring :=
  if negb (toBoolean appData) then inr []
  else
    let! theme := get (Some appData) f_theme in
    let! code := get (Some appData) f_code in
    let! headerFont := get theme f_headerFont in
    let! headerFamily := call_replace_spaces headerFont in
    let! bodyFont := get theme f_bodyFont in
    let! bodyFamily := call_replace_spaces bodyFont in
    let fontUrl := fontUrl_of headerFamily bodyFamily in
    let! backgroundColor := interpolate theme f_backgroundColor in
    let! primaryColor := interpolate theme f_primaryColor in
    let! textColor := interpolate theme f_textColor in
    let! headerFont := interpolate theme f_headerFont in
    let! bodyFont := interpolate theme f_bodyFont in
    let! css := interpolate code f_css in
    let! html := interpolate code f_html in
    let! javascript := interpolate code f_javascript in
    inr (iframe_document fontUrl backgroundColor primaryColor textColor
           headerFont bodyFont css html javascript).

End Renderer.

(** ** The component

    The reactive state, with the initial values of the field
    declarations. *)
Record LimoApp : Type := {
  prompt : jsstring;
  isLoading : bool;
  error : option jsstring;
  appData : json;
  activeTab : Tab
}.

Definition set_prompt (v : jsstring) (st : LimoApp) : LimoApp :=
  {| prompt := v; isLoading := isLoading st; error := error st;
     appData := appData st; activeTab := activeTab st |}.

Definition set_isLoading (v : bool) (st : LimoApp) : LimoApp :=
  {| prompt := prompt st; isLoading := v; error := error st;
     appData := appData st; activeTab := activeTab st |}.

Definition set_error (v : option jsstring) (st : LimoApp) : LimoApp :=
  {| prompt := prompt st; isLoading := isLoading st; error := v;
     appData := appData st; activeTab := activeTab st |}.

Definition set_appData (v : json) (st : LimoApp) : LimoApp :=
  {| prompt := prompt st; isLoading := isLoading st; error := error st;
     appData := v; activeTab := activeTab st |}.

Definition set_activeTab (v : Tab) (st : LimoApp) : LimoApp :=
  {| prompt := prompt st; isLoading := isLoading st; error := error st;
     appData := appData st; activeTab := v |}.

Definition initial_state : LimoApp :=
  {| prompt := []; isLoading := false; error := None; appData := JNull;
     activeTab := tab_preview |}.

(** The request of [handleGenerateClick]: its [contents] is one string. *)
Record GenerateRequest : Type := {
  model : jsstring;
  contents : jsstring;
  config : Config
}.

Definition generation_prompt (prompt : jsstring) : jsstring :=
  lit "Generate a complete, functional, single-page application, website, or game based on the following idea. You must provide a full set of HTML, CSS, and JavaScript code. Also, create a cohesive and visually appealing design theme with modern colors and Google Fonts. Your response must be a JSON object that strictly follows the provided schema. Idea: " ++ dq
  ++ prompt
  ++ dq.

Definition generation_failed_message : jsstring :=
  lit "Failed to generate the app. The model may have returned an unexpected format. Please try a different prompt.".

Definition responseSchema : Schema :=
  SObject None
    [(lit "appName", SString (lit "A creative name for the application, website, or game."));
     (lit "theme", SObject (Some (lit "A cohesive design theme."))
      [
       (lit "backgroundColor", SString (lit "A CSS background color (e.g., #FFFFFF)."));
       (lit "primaryColor", SString (lit "The main accent color for buttons and interactive elements (e.g., #4A90E2)."));
       (lit "textColor", SString (lit "The primary text color (e.g., #333333)."));
       (lit "headerFont", SString (lit "The name of a Google Font for headers (e.g., " ++ dq ++ lit "Poppins" ++ dq ++ lit ")."));
       (lit "bodyFont", SString (lit "The name of a Google Font for body text (e.g., " ++ dq ++ lit "Lato" ++ dq ++ lit ")."))
      ]
      [lit "backgroundColor"; lit "primaryColor"; lit "textColor"; lit "headerFont"; lit "bodyFont"]);
     (lit "code", SObject (Some (lit "The complete source code for the application."))
      [
       (lit "html", SString (lit "The full HTML body content."));
       (lit "css", SString (lit "The complete CSS for styling. It should not include a body tag selector, but can style other elements."));
       (lit "javascript", SString (lit "The complete JavaScript code for interactivity and logic."))
      ]
      [lit "html"; lit "css"; lit "javascript"])]
    [lit "appName"; lit "theme"; lit "code"].

Definition handlePromptInput (value : jsstring) (st : LimoApp) : LimoApp :=
  set_prompt value st.

(** [handleGenerateClick] up to its [await]: the state it leaves and the
    request it issued, if any.  The client is a constant of the module. *)
Definition handleGenerateClick_begin (st : LimoApp)
  : LimoApp * option GenerateRequest :=
  if is_nil (prompt st) || isLoading st then (st, None)
  else
    let st := set_isLoading true st in
    let st := set_error None st in
    let st := set_appData JNull st in
    (st,
     Some {| model := lit "gemini-2.5-flash";
             contents := generation_prompt (prompt st);
             config := JsonConfig (lit "application/json") responseSchema |}).

Section Component.
Context {P : Platform}.

(** The [try] block after the [await]. *)
Definition handleGenerateClick_try (o : Outcome) (st : LimoApp)
  : LimoApp * Completion unit :=
  match o with
  | Rejected e => (st, inl e)
  | Fulfilled None => (st, throwEngine (ReadOfNullish false (lit "trim")))
  | Fulfilled (Some t) =>
      match JSON_parse_c (trim t) with
      | inl e => (st, inl e)
      | inr v => (set_activeTab tab_preview (set_appData v st), inr tt)
      end
  end.

(** The [try] block with its [catch] and [finally] clauses; the caught
    value is only logged. *)
Definition handleGenerateClick_resume (o : Outcome) (st : LimoApp)
  : LimoApp :=
  match handleGenerateClick_try o st with
  | (st1, inr _) => set_isLoading false st1
  | (st1, inl _) =>
      set_isLoading false (set_error (Some generation_failed_message) st1)
  end.

(** The handler from its call to its end, when the request it issued
    settles with [o] and nothing else happens in between. *)
Definition handleGenerateClick (o : Outcome) (st : LimoApp) : LimoApp :=
  match handleGenerateClick_begin st with
  | (st1, Some _) => handleGenerateClick_resume o st1
  | (st1, None) => st1
  end.

(** ** What [render] shows

    A template is kept as the values it is filled with. *)
Inductive TabContent : Type :=
| preview_content (srcdoc : jsstring)
| code_content (html css javascript : jsval).

Inductive OutputView : Type :=
| spinner_view
| error_view (message : jsstring)
| placeholder_view
| tabs_view (active : Tab) (content : TabContent).

Definition renderOutput (st : LimoApp) : Completion OutputView :=
  if isLoading st then inr spinner_view
  else if string_truthy (error st)
  then inr (error_view (match error st with Some e => e | None => [] end))
  else if negb (toBoolean (appData st)) then inr placeholder_view
  else
    let! content :=
      match activeTab st with
      | tab_preview =>
          let! srcdoc := getIframeContent (appData st) in
          inr (preview_content srcdoc)
      | tab_code =>
          let! c := get (Some (appData st)) f_code in
          let! h := get c f_html in
          let! c := get (Some (appData st)) f_code in
          let! s := get c f_css in
          let! c := get (Some (appData st)) f_code in
          let! j := get c f_javascript in
          inr (code_content h s j)
      end in
    inr (tabs_view (activeTab st) content).

Record View : Type := {
  textarea_value : jsstring;
  textarea_disabled : bool;
  generate_disabled : bool;
  generate_spinner : bool;
  output : OutputView
}.

Definition render (st : LimoApp) : Completion View :=
  let! o := renderOutput st in
  inr {| textarea_value := prompt st;
         textarea_disabled := isLoading st;
         generate_disabled := isLoading st || is_nil (prompt st);
         generate_spinner := isLoading st;
         output := o |}.

(** ** The page as a transition system

    The component and the number of requests that have not settled. *)
Record Page : Type := {
  component : LimoApp;
  in_flight : nat
}.

Inductive Event : Type :=
| PromptInput (value : jsstring)
| GenerateClick
| TabClick (tab : Tab)
| Settle (o : Outcome).

(** When [render] lets an event happen: the textarea and the button are
    disabled while loading, the button also for an empty prompt; the tab
    bar exists when [renderOutput] reaches its last template. *)
Definition enabled (p : Page) (e : Event) : bool :=
  let st := component p in
  match e with
  | PromptInput _ => negb (isLoading st)
  | GenerateClick => negb (isLoading st || is_nil (prompt st))
  | TabClick _ =>
      negb (isLoading st) && negb (string_truthy (error st))
      && toBoolean (appData st)
  | Settle _ => negb (in_flight p =? 0)
  end.

Definition fire (p : Page) (e : Event) : Page :=
  let st := component p in
  match e with
  | PromptInput value =>
      {| component := handlePromptInput value st; in_flight := in_flight p |}
  | GenerateClick =>
      match handleGenerateClick_begin st with
      | (st1, Some _) => {| component := st1; in_flight := S (in_flight p) |}
      | (st1, None) => {| component := st1; in_flight := in_flight p |}
      end
  | TabClick tab =>
      {| component := set_activeTab tab st; in_flight := in_flight p |}
  | Settle o =>
      match in_flight p with
      | O => p
      | S n => {| component := handleGenerateClick_resume o st;
                  in_flight := n |}
      end
  end.

Definition initial : Page :=
  {| component := initial_state; in_flight := 0 |}.

Inductive reachable : Page -> Prop :=
| reachable_initial : reachable initial
| reachable_fire p e :
    reachable p -> enabled p e = true -> reachable (fire p e).

End Component.

End Legacy.

(* ================================================================== *)
(** * The page as a transition system *)
(* ================================================================== *)

(** The component together with what is under way outside it: the
    requests that have not settled and the files being read. *)
Record Page : Type := {
  component : LimoApp;
  in_flight : list Pending;
  reading : list File
}.

Inductive Event : Type :=
| PromptInput (value : jsstring)
| PromptKeydown (key : jsstring) (shiftKey : bool)
| SendClick
| BuildClick (index : nat)
| FileSelected (selected : option File)
| ReaderLoad (i : nat) (result : jsstring)
| RemoveAttachmentClick
| FullscreenClick
| TabClick (tab : Tab)
| Settle (i : nat) (o : Outcome).

(** When [render] lets an event happen.  With the key missing only the
    configuration error is rendered.  The textarea, the send button and
    the Build buttons are disabled while loading; the tab bar exists when
    there is an app; the attachment chip when there is an attachment. *)
Definition enabled (p : Page) (e : Event) : bool :=
  let st := component p in
  negb (apiKeyMissing st) &&
  match e with
  | PromptInput _ => negb (isLoading st)
  | PromptKeydown _ _ => negb (isLoading st)
  | SendClick => send_available st
  | BuildClick index => build_available st index
  | FileSelected _ => true
  | ReaderLoad i _ => is_some (nth_error (reading p) i)
  | RemoveAttachmentClick => is_some (attachment st)
  | FullscreenClick => toBoolean (appData st)
  | TabClick _ => toBoolean (appData st)
  | Settle i _ => is_some (nth_error (in_flight p) i)
  end.

(** [l] without its element at position [i]. *)
Definition remove_nth {A} (i : nat) (l : list A) : list A :=
  firstn i l ++ skipn (S i) l.

Section Events.
Context {P : Platform}.

(** The page after a handler's synchronous part: a request it issued is
    now in flight.  An exception that leaves the handler rejects a promise
    nobody handles; the state stays as the handler left it. *)
Definition after_begin (p : Page) (r : LimoApp * Completion Started) : Page :=
  match r with
  | (st, inr (Waiting _ k)) =>
      {| component := st; in_flight := in_flight p ++ [k];
         reading := reading p |}
  | (st, _) =>
      {| component := st; in_flight := in_flight p; reading := reading p |}
  end.

Definition after {A} (p : Page) (r : LimoApp * Completion A) : Page :=
  {| component := fst r; in_flight := in_flight p; reading := reading p |}.

Definition fire (p : Page) (e : Event) : Page :=
  let st := component p in
  match e with
  | PromptInput value => after p (handlePromptInput value st)
  | PromptKeydown key shiftKey =>
      after_begin p (handlePromptKeydown key shiftKey st)
  | SendClick => after_begin p (handleSendMessage_begin st)
  | BuildClick index => after_begin p (handleBuildApp_begin index st)
  | FileSelected selected =>
      match handleFileSelected selected st with
      | (st', inr (Some f)) =>
          {| component := st'; in_flight := in_flight p;
             reading := reading p ++ [f] |}
      | (st', _) =>
          {| component := st'; in_flight := in_flight p;
             reading := reading p |}
      end
  | ReaderLoad i result =>
      match nth_error (reading p) i with
      | Some f =>
          {| component := fst (reader_onload f result st);
             in_flight := in_flight p;
             reading := remove_nth i (reading p) |}
      | None => p
      end
  | RemoveAttachmentClick => after p (removeAttachment st)
  | FullscreenClick => after p (toggleFullscreen st)
  | TabClick tab => after p (assign (set_activeTab tab) st)
  | Settle i o =>
      match nth_error (in_flight p) i with
      | Some k =>
          {| component := fst (resume k o st);
             in_flight := remove_nth i (in_flight p);
             reading := reading p |}
      | None => p
      end
  end.

Definition initial (apiKey : option jsstring) : Page :=
  {| component := constructor apiKey; in_flight := []; reading := [] |}.

(** The page after a sequence of events, each of which must be enabled. *)
Fixpoint run (p : Page) (es : list Event) : option Page :=
  match es with
  | [] => Some p
  | e :: es' => if enabled p e then run (fire p e) es' else None
  end.

Inductive reachable (apiKey : option jsstring) : Page -> Prop :=
| reachable_initial : reachable apiKey (initial apiKey)
| reachable_fire p e :
    reachable apiKey p -> enabled p e = true -> reachable apiKey (fire p e).

End Events.

(* ================================================================== *)
(** * A platform to run examples on *)
(* ================================================================== *)

(** Case mapping on the letters A to Z, numbers printed as their decimal
    mantissa (enough for the integers the examples use), and short engine
    messages.  The examples below stay within ASCII. *)
Definition ascii_toLowerCase (s : jsstring) : jsstring :=
  map (fun c => if ((65 <=? c) && (c <=? 90))%N then (c + 32)%N else c) s.

Fixpoint decimal_digits (fuel : nat) (n : N) (acc : jsstring) : jsstring :=
  match fuel with
  | O => acc
  | S fuel' =>
      let acc' := (48 + n mod 10)%N :: acc in
      if (n <? 10)%N then acc' else decimal_digits fuel' (n / 10)%N acc'
  end.

Definition example_Number_toString (neg : bool) (m : N) (e : Z) : jsstring :=
  (if neg && negb (m =? 0)%N then lit "-" else [])
  ++ decimal_digits (S (N.to_nat (N.log2 m))) m [].

Definition example_engine_message (e : EngineError) : jsstring :=
  match e with
  | JsonSyntaxError _ => lit "Unexpected token in JSON"
  | ReadOfNullish true p =>
      lit "Cannot read properties of null (reading '" ++ p ++ lit "')"
  | ReadOfNullish false p =>
      lit "Cannot read properties of undefined (reading '" ++ p ++ lit "')"
  | NotAFunction p => p ++ lit " is not a function"
  | NotPrimitive => lit "Cannot convert object to primitive value"
  end.

Definition example_platform : Platform :=
  {| toLowerCase := ascii_toLowerCase;
     Number_toString := example_Number_toString;
     engine_message := example_engine_message |}.

(* ================================================================== *)
(** * The vocabulary of the statements *)
(* ================================================================== *)

(** ** Handlers and what they leave *)

(** An invariant of the state that a handler keeps, whether it ends
    normally or by throwing. *)
Definition preserves (Inv : LimoApp -> Prop) {A} (a : Action A) : Prop :=
  forall st, Inv st -> Inv (fst (a st)).

(** The state with the last transcript entry removed. *)
Definition popped (st : LimoApp) : LimoApp :=
  set_displayHistory (removelast (displayHistory st)) st.

(** What the [catch] and [finally] clauses leave when the [try] block
    threw [e] in state [st]. *)
Definition failed_in {P : Platform} (st : LimoApp) (e : Thrown) : LimoApp :=
  set_isLoading false (popped (set_error (Some (handleApiError e)) st)).

(** The [SyntaxError] that [JSON.parse] throws on [text]. *)
Definition syntax_error {P : Platform} (text : jsstring) : Thrown :=
  ErrorObject (engine_message (JsonSyntaxError text)).

(** ** The error classifier *)

(** The four messages [handleApiError] can return. *)
Definition user_facing_messages : list jsstring :=
  [ service_busy_message; configuration_issue_message;
    timed_out_message; unexpected_error_message ].

(** The lower-cased message of a caught failure, when it is an [Error]. *)
Definition lowered_message {P : Platform} (e : Thrown) : option jsstring :=
  match e with
  | ErrorObject message => Some (toLowerCase message)
  | OtherValue => None
  end.

(** Whether the lower-cased message contains [indicator]. *)
Definition mentions {P : Platform} (e : Thrown) (indicator : jsstring)
  : bool :=
  match lowered_message e with
  | Some m => includes m indicator
  | None => false
  end.

(** The rate-limit and quota indicators. *)
Definition rate_limited {P : Platform} (e : Thrown) : bool :=
  mentions e (lit "429") || mentions e (lit "resource_exhausted")
  || mentions e (lit "quota").

(** ** Attachments *)

(** The coarse type [reader.onload] stores for a file. *)
Definition coarse_type (f : File) : MediaType :=
  if startsWith (file_type f) (lit "image/") then image else audio.

(** ** The build proposal marker *)

(** The message [handleSendMessage] shows for a reply with text
    [response_text]: the [aiMessage] of its [try] block. *)
Definition reply_message (response_text : jsstring) : DisplayMessage :=
  let aiText := trim response_text in
  let proposeBuild := endsWith aiText BUILD_PROPOSAL_TOKEN in
  {| author := limo;
     text := if proposeBuild
             then trim (replace aiText BUILD_PROPOSAL_TOKEN [])
             else aiText;
     msg_attachment := None;
     proposeBuild := Some proposeBuild;
     buildCompleted := None |}.

(** ** Routing of a sent message *)

(** A message is sent when the handler does not return at once. *)
Definition sendable (st : LimoApp) : bool :=
  negb ((is_nil (trim (currentPrompt st)) && negb (is_some (attachment st)))
        || isLoading st).

(** Which continuation a handler left, if it issued a request. *)
Inductive Path : Type := ChatPath | ModificationPath | BuildPath.

(** The path a continuation belongs to. *)
Definition path_of (k : Pending) : Path :=
  match k with
  | AwaitChat _ => ChatPath
  | AwaitModification _ => ModificationPath
  | AwaitBuild => BuildPath
  end.

(** The path taken by the synchronous part of a handler. *)
Definition route (r : LimoApp * Completion Started) : option Path :=
  match snd r with
  | inr (Waiting _ k) => Some (path_of k)
  | _ => None
  end.

(** ** The Build button *)

(** Whether the transcript [l] shows a Build button under entry [i]. *)
Definition button_at (l : list DisplayMessage) (i : nat) : bool :=
  match nth_error l i with
  | Some msg => build_button msg
  | None => false
  end.

(** No Build button under entry [i]. *)
Definition no_button (i : nat) (st : LimoApp) : Prop :=
  button_at (displayHistory st) i = false.

(** The page after the events [es], one after the other. *)
Definition fire_all {P : Platform} (p : Page) (es : list Event) : Page :=
  fold_left fire es p.

(** The transcript keeps entry [i] throughout the events [es]. *)
Fixpoint kept {P : Platform} (i : nat) (p : Page) (es : list Event) : Prop :=
  match es with
  | [] => True
  | e :: es' =>
      i < length (displayHistory (component p)) /\ kept i (fire p e) es'
  end.

(** The component is busy and no request is in flight. *)
Definition stuck (p : Page) : Prop :=
  isLoading (component p) = true /\ in_flight p = [].

(** ** The preview document *)

(** [doc] contains [part]. *)
Definition embeds (doc part : jsstring) : Prop :=
  exists before after, doc = before ++ part ++ after.

(** [doc] contains the [parts] one after the other, in this order. *)
Fixpoint embeds_in_order (doc : jsstring) (parts : list jsstring) : Prop :=
  match parts with
  | [] => True
  | part :: rest =>
      exists before after,
        doc = before ++ part ++ after /\ embeds_in_order after rest
  end.

(** The parts of the preview document the specification names. *)
Definition font_link (a : AppData) : jsstring :=
  lit "<link rel=" ++ dq ++ lit "stylesheet" ++ dq ++ lit " href=" ++ dq
  ++ lit "https://fonts.googleapis.com/css2?family="
  ++ replace_spaces (headerFont (theme a))
  ++ lit ":wght@400;700&family="
  ++ replace_spaces (bodyFont (theme a))
  ++ lit ":wght@400;700&display=swap"
  ++ dq ++ lit ">".

(** One custom property per field of the theme. *)
Definition custom_properties (a : AppData) : list jsstring :=
  [ lit "--website-bg-color: " ++ backgroundColor (theme a) ++ lit ";";
    lit "--website-primary-color: " ++ primaryColor (theme a) ++ lit ";";
    lit "--website-text-color: " ++ textColor (theme a) ++ lit ";";
    lit "--website-header-font: '" ++ headerFont (theme a)
      ++ lit "', sans-serif;";
    lit "--website-body-font: '" ++ bodyFont (theme a)
      ++ lit "', sans-serif;" ].

(** The end of the baseline stylesheet, which both renderers share: the
    button rule.  The artifact's CSS comes right after it. *)
Definition baseline_end : jsstring :=
  lit "border-radius: 6px;
              cursor: pointer;
              font-family: var(--website-body-font);
            }
            ".

(** The tags of a script element. *)
Definition script_open_module : jsstring :=
  lit "<script type=" ++ dq ++ lit "module" ++ dq ++ lit ">".

Definition script_open_classic : jsstring := lit "<script>".

Definition script_close : jsstring := lit "</script>".

(** The script element of the chat component: a module script when the
    code contains the text [import ] (the word and a space). *)
Definition script_element (js : jsstring) : jsstring :=
  if includes js (lit "import ")
  then script_open_module ++ js ++ script_close
  else script_open_classic ++ js ++ script_close.

(** The script element of the single-prompt component: always a classic
    script, the code on a line of its own. *)
Definition legacy_script_element (js : jsstring) : jsstring :=
  script_open_classic ++ lit "
            " ++ js ++ lit "
          " ++ script_close.

(** The document of the chat component for a fully populated artifact. *)
Definition document (a : AppData) : jsstring :=
  iframe_document
    (fontUrl_of (replace_spaces (headerFont (theme a)))
                (replace_spaces (bodyFont (theme a))))
    (backgroundColor (theme a)) (primaryColor (theme a))
    (textColor (theme a)) (headerFont (theme a)) (bodyFont (theme a))
    (css (code a)) (html (code a)) (script_element (javascript (code a))).

(** The document of the single-prompt component. *)
Definition legacy_document (a : AppData) : jsstring :=
  Legacy.iframe_document
    (Legacy.fontUrl_of (replace_spaces (headerFont (theme a)))
                       (replace_spaces (bodyFont (theme a))))
    (backgroundColor (theme a)) (primaryColor (theme a))
    (textColor (theme a)) (headerFont (theme a)) (bodyFont (theme a))
    (css (code a)) (html (code a)) (javascript (code a)).

(** The parts of the document, in the order in which it has them. *)
Definition document_parts (a : AppData) (script : jsstring) : list jsstring :=
  font_link a :: custom_properties a
  ++ [ baseline_end ++ css (code a); html (code a); script ].

(** ** Texts with holes

    A template is a sequence of characters and holes; [denote] fills the
    holes from an environment.  Whether parts occur in order in a document
    is then decided on the templates. *)
Inductive tok : Type :=
| Ch (c : code_unit)
| Hole (i : nat).

(** Equality of two template positions. *)
Definition tok_eqb (a b : tok) : bool :=
  match a, b with
  | Ch c, Ch d => (c =? d)%N
  | Hole i, Hole j => (i =? j)%nat
  | _, _ => false
  end.

(** The text of a template, its holes filled from [env]. *)
Fixpoint denote (env : list jsstring) (ts : list tok) : jsstring :=
  match ts with
  | [] => []
  | Ch c :: r => c :: denote env r
  | Hole i :: r =>
      match r with
      | [] => nth i env []
      | _ :: _ => nth i env [] ++ denote env r
      end
  end.

(** [strip p d]: what follows [p] at the head of [d]. *)
Fixpoint strip (p d : list tok) : option (list tok) :=
  match p with
  | [] => Some d
  | t :: p' =>
      match d with
      | t' :: d' => if tok_eqb t t' then strip p' d' else None
      | [] => None
      end
  end.

(** [find p d]: what follows the first occurrence of [p] in [d]. *)
Fixpoint find_part (p d : list tok) : option (list tok) :=
  match strip p d with
  | Some r => Some r
  | None =>
      match d with
      | [] => None
      | _ :: d' => find_part p d'
      end
  end.

(** Whether the [parts] occur in [d] one after the other. *)
Fixpoint find_in_order (parts : list (list tok)) (d : list tok) : bool :=
  match parts with
  | [] => true
  | p :: rest =>
      match find_part p d with
      | Some r => find_in_order rest r
      | None => false
      end
  end.

(** ** Example pages and values *)

(** A credential: any non-empty string. *)
Definition example_key : option jsstring := Some (lit "key").

(** The user describes a game and the model answers with a proposal. *)
Definition proposal_events : list Event :=
  [ PromptInput (lit "A simple Tic-Tac-Toe game");
    SendClick;
    Settle 0 (Fulfilled (Some (lit "Shall I build it? [PROPOSE_BUILD]"))) ].

(** [s] between double quotes. *)
Definition quoted (s : jsstring) : jsstring := dq ++ s ++ dq.

(** The text of a fully populated artifact. *)
Definition example_app_text : jsstring :=
  lit "{" ++ quoted (lit "appName") ++ lit ":" ++ quoted (lit "TicTacToe")
  ++ lit "," ++ quoted (lit "theme") ++ lit ":{"
  ++ quoted (lit "backgroundColor") ++ lit ":" ++ quoted (lit "#ffffff")
  ++ lit "," ++ quoted (lit "primaryColor") ++ lit ":" ++ quoted (lit "#4A90E2")
  ++ lit "," ++ quoted (lit "textColor") ++ lit ":" ++ quoted (lit "#333333")
  ++ lit "," ++ quoted (lit "headerFont") ++ lit ":" ++ quoted (lit "Open Sans")
  ++ lit "," ++ quoted (lit "bodyFont") ++ lit ":" ++ quoted (lit "Lato")
  ++ lit "}," ++ quoted (lit "code") ++ lit ":{"
  ++ quoted (lit "html") ++ lit ":" ++ quoted (lit "<div id='board'></div>")
  ++ lit "," ++ quoted (lit "css") ++ lit ":" ++ quoted []
  ++ lit "," ++ quoted (lit "javascript") ++ lit ":" ++ quoted []
  ++ lit "}}".

(** The artifact that text stands for. *)
Definition example_app : AppData :=
  {| appName := lit "TicTacToe";
     theme := {| backgroundColor := lit "#ffffff";
                 primaryColor := lit "#4A90E2";
                 textColor := lit "#333333";
                 headerFont := lit "Open Sans";
                 bodyFont := lit "Lato" |};
     code := {| html := lit "<div id='board'></div>";
                css := [];
                javascript := [] |} |}.

(** The user has typed a description and sent it; the page waits for the
    reply. *)
Definition asked_page : Page :=
  @fire_all example_platform (initial example_key)
    [ PromptInput (lit "A simple Tic-Tac-Toe game"); SendClick ].

(** The page with a proposal under which the Build button is shown. *)
Definition proposed_page : Page :=
  @fire_all example_platform (initial example_key) proposal_events.

(** The proposal shown on that page. *)
Definition proposal_message : DisplayMessage :=
  reply_message (lit "Shall I build it? [PROPOSE_BUILD]").

(** The page after the proposal has been built into an app. *)
Definition built_page : Page :=
  @fire_all example_platform proposed_page
    [ BuildClick 2; Settle 0 (Fulfilled (Some example_app_text)) ].

(** The page with an app on which the user has typed a change. *)
Definition change_typed_page : Page :=
  @fire example_platform built_page (PromptInput (lit "make the board blue")).

(** The page after the build request was answered with the JSON text
    [false], and the user has typed a new message. *)
Definition falsy_app_page : Page :=
  @fire_all example_platform proposed_page
    [ BuildClick 2;
      Settle 0 (Fulfilled (Some (lit "false")));
      PromptInput (lit "make the board blue") ].

(** A reply that mentions the token and then ends with it. *)
Definition twice_marked_reply : jsstring :=
  lit "I will end with [PROPOSE_BUILD] once the plan is clear. [PROPOSE_BUILD]".

(** An artifact whose code imports a module. *)
Definition importing_app : AppData :=
  {| appName := appName example_app;
     theme := theme example_app;
     code := {| html := html (code example_app);
                css := css (code example_app);
                javascript :=
                  lit "import confetti from 'https://esm.sh/canvas-confetti'; confetti();" |} |}.

(** A file that is neither an image nor an audio recording. *)
Definition pdf_file : File :=
  {| file_name := lit "notes.pdf"; file_type := lit "application/pdf" |}.

(** The page after the build request was answered with the JSON text
    of the empty object. *)
Definition partial_app_page : Page :=
  @fire_all example_platform proposed_page
    [ BuildClick 2; Settle 0 (Fulfilled (Some (lit "{}"))) ].

(** The page with an app after a modification request was answered with
    the JSON text [null]. *)
Definition nulled_page : Page :=
  @fire_all example_platform change_typed_page
    [ SendClick; Settle 0 (Fulfilled (Some (lit "null"))) ].

(* ================================================================== *)
(** * What [render] shows *)
(* ================================================================== *)

(** ** Emphasis in message text

    [render] passes the text of each message through a global
    replacement whose pattern is: two asterisks, the shortest run of code
    units other than line terminators, two asterisks.  Each match becomes
    the run between [<strong>] and [</strong>]; the search goes on after
    the match.  The result is inserted as markup ([unsafeHTML]). *)
Definition two_asterisks : jsstring := [42%N; 42%N].

(** [lazy_to_asterisks s] is the run and the text after the closing
    asterisks when the text after the opening asterisks is [s]. *)
Fixpoint lazy_to_asterisks (s : jsstring) : option (jsstring * jsstring) :=
  match s with
  | [] => None
  | c :: r =>
      if startsWith s two_asterisks then Some ([], skipn 2 s)
      else if isLineTerminator c then None
      else match lazy_to_asterisks r with
           | Some (run, rest) => Some (c :: run, rest)
           | None => None
           end
  end.

(** The replacement from left to right.  Every step consumes a code
    unit, so the length of the text is fuel enough. *)
Fixpoint replace_emphasis (fuel : nat) (s : jsstring) : jsstring :=
  match fuel with
  | O => s
  | S fuel' =>
      match s with
      | [] => []
      | c :: r =>
          if startsWith s two_asterisks then
            match lazy_to_asterisks (skipn 2 s) with
            | Some (run, rest) =>
                lit "<strong>" ++ run ++ lit "</strong>"
                ++ replace_emphasis fuel' rest
            | None => c :: replace_emphasis fuel' r
            end
          else c :: replace_emphasis fuel' r
      end
  end.

Definition emphasis_markup (text : jsstring) : jsstring :=
  replace_emphasis (length text) text.

(** ** The templates, kept as the values they are filled with *)

Inductive AttachmentElement : Type :=
| img_element (src : jsstring)
| audio_element (src : jsstring).

(** The Build button of a message: the index its click handler passes to
    [handleBuildApp] and its [disabled] attribute. *)
Record BuildButton : Type := {
  click_index : nat;
  button_disabled : bool
}.

Record MessageBubble : Type := {
  wrapper_class : Author;
  chat_attachment : option AttachmentElement;
  bubble_markup : jsstring;
  bubble_button : option BuildButton
}.

Definition render_message (loading : bool) (index : nat)
  (msg : DisplayMessage) : MessageBubble :=
  {| wrapper_class := author msg;
     chat_attachment :=
       match msg_attachment msg with
       | Some a =>
           Some (match url_type a with
                 | image => img_element (url a)
                 | audio => audio_element (url a)
                 end)
       | None => None
       end;
     bubble_markup := emphasis_markup (text msg);
     bubble_button :=
       if build_button msg
       then Some {| click_index := index; button_disabled := loading |}
       else None |}.

(** [renderInputAttachmentPreview] *)
Inductive Thumb : Type :=
| thumb_image (src : jsstring)
| thumb_audio.

Record AttachmentPreview : Type := {
  thumb : Thumb;
  attachment_name : jsstring
}.

Definition renderInputAttachmentPreview (st : LimoApp)
  : option AttachmentPreview :=
  match attachment st with
  | None => None
  | Some a =>
      Some {| thumb := match type a with
                       | image => thumb_image (dataUrl a)
                       | audio => thumb_audio
                       end;
              attachment_name := file_name (file a) |}
  end.

(** [renderOutput] *)
Inductive TabContent : Type :=
| preview_content (srcdoc : jsstring)
| code_content (html_block css_block javascript_block : jsval).

Inductive OutputView : Type :=
| placeholder_view
| building_view
| error_view (message : jsstring)
| empty_view
| tabs_view (active : Tab) (fullscreen : bool) (content : TabContent).

Section View.
Context {P : Platform}.

Definition renderOutput (st : LimoApp) : Completion OutputView :=
  let app := toBoolean (appData st) in
  let err := string_truthy (error st) in
  if negb app && negb (isLoading st) && negb err then inr placeholder_view
  else if isLoading st && negb app then inr building_view
  else if err && negb app
  then inr (error_view (match error st with Some e => e | None => [] end))
  else if negb app then inr empty_view
  else
    let! content :=
      match activeTab st with
      | tab_preview =>
          let! srcdoc := getIframeContent st in
          inr (preview_content srcdoc)
      | tab_code =>
          let! c := get (Some (appData st)) f_code in
          let! h := get c f_html in
          let! c := get (Some (appData st)) f_code in
          let! s := get c f_css in
          let! c := get (Some (appData st)) f_code in
          let! j := get c f_javascript in
          inr (code_content h s j)
      end in
    inr (tabs_view (activeTab st) (isFullscreen st) content).

(** [render] *)
Record MainView : Type := {
  chat_history : list MessageBubble;
  typing_indicator : bool;
  chat_error : option jsstring;
  attachment_button_disabled : bool;
  input_attachment_preview : option AttachmentPreview;
  textarea_value : jsstring;
  textarea_disabled : bool;
  send_button_disabled : bool;
  output_fullscreen : bool;
  output : OutputView
}.

Inductive View : Type :=
| api_key_error_view
| main_view (v : MainView).

Definition render (st : LimoApp) : Completion View :=
  if apiKeyMissing st then inr api_key_error_view
  else
    let! o := renderOutput st in
    inr (main_view
      {| chat_history := mapi (render_message (isLoading st))
                              (displayHistory st);
         typing_indicator := isLoading st;
         chat_error := if string_truthy (error st) then error st else None;
         attachment_button_disabled := isLoading st;
         input_attachment_preview := renderInputAttachmentPreview st;
         textarea_value := currentPrompt st;
         textarea_disabled := isLoading st;
         send_button_disabled :=
           isLoading st
           || (is_nil (trim (currentPrompt st))
               && negb (is_some (attachment st)));
         output_fullscreen := isFullscreen st;
         output := o |}).

End View.

(* ================================================================== *)
(** * More vocabulary: texts, data URLs, transcripts *)
(* ================================================================== *)

(** No code unit of [s] satisfies [bad]. *)
Definition free_of (bad : code_unit -> bool) (s : jsstring) : bool :=
  forallb (fun c => negb (bad c)) s.

Definition is_asterisk (c : code_unit) : bool := (c =? 42)%N.
Definition is_comma (c : code_unit) : bool := (c =? 44)%N.
Definition is_semicolon (c : code_unit) : bool := (c =? 59)%N.

(** The data URL a [FileReader] produces for a file of MIME type [mime]
    whose base64 encoding is [payload]. *)
Definition data_url (mime payload : jsstring) : jsstring :=
  lit "data:" ++ mime ++ lit ";base64," ++ payload.

(** The history part of an attachment, given its MIME type and data. *)
Definition inline_data_part (mime : jsstring) (payload : option jsstring)
  : HistoryPart :=
  {| part_text := None;
     inlineData := Some {| mimeType := mime; data := payload |} |}.

(** The state in which [handleModificationRequest] prepares its request:
    busy, no error, the user's message and the working message appended,
    the input line and the attachment cleared. *)
Definition modification_started (request : jsstring) (st : LimoApp)
  : LimoApp :=
  set_attachment None
    (set_currentPrompt []
       (set_displayHistory
          ((displayHistory st ++ [user_message request (attachment st)])
           ++ [limo_says modification_working])
          (set_error None (set_isLoading true st)))).

(** The transcript with entry [index] marked as built. *)
Definition marked (index : nat) (l : list DisplayMessage)
  : list DisplayMessage :=
  mapi (fun i msg => if i =? index then with_buildCompleted msg else msg) l.

(** The parts of a modification request: the attachment, if any, and the
    prompt. *)
Definition modification_parts (att : option Attachment)
  (textContent : jsstring) : list HistoryPart :=
  match att with Some a => [inline_part a] | None => [] end
  ++ [text_part textContent].

(** ** Invariants of the page *)

(** A turn of the conversation has something in it. *)
Definition has_parts (c : HistoryContent) : Prop := parts c <> [].

(** What a pending request will save has something in it. *)
Definition pending_has_parts (k : Pending) : Prop :=
  match k with
  | AwaitChat currentHistory => Forall has_parts currentHistory
  | AwaitModification historyUserParts => historyUserParts <> []
  | AwaitBuild => True
  end.


(** Whether the key given to the constructor counts as missing. *)
Definition key_missing (apiKey : option jsstring) : bool :=
  match apiKey with
  | None => true
  | Some k => is_nil k
  end.

(** ** The single-prompt component *)

(** At most one request is in flight, exactly while the component is
    busy; while it is busy, and whenever an error is set, there is no
    app. *)
Definition legacy_invariant (p : Legacy.Page) : Prop :=
  let st := Legacy.component p in
  Legacy.in_flight p = (if Legacy.isLoading st then 1 else 0)
  /\ (Legacy.isLoading st = true ->
      Legacy.error st = None /\ Legacy.appData st = JNull)
  /\ (Legacy.error st <> None -> Legacy.appData st = JNull).

(** The response carries no text that parses as JSON: the request was
    rejected, or the response has no text, or the text does not parse. *)
Definition unusable (o : Outcome) : Prop :=
  forall t, o = Fulfilled (Some t) -> JSON_parse (trim t) = None.

(** The texts the error banner can show: the message about an
    unsupported file and the four messages of the classifier. *)
Definition banner_messages : list jsstring :=
  unsupported_file_type :: user_facing_messages.

(** The error is unset or one of the banner messages. *)
Definition error_is_a_banner_message (st : LimoApp) : Prop :=
  match error st with
  | None => True
  | Some m => In m banner_messages
  end.

(** ** More example values *)

(** The user has typed a description and not yet sent it. *)
Definition described_page : Page :=
  @fire example_platform (initial example_key)
    (PromptInput (lit "A simple Tic-Tac-Toe game")).

(** A picture and its data URL. *)
Definition cat_picture : Attachment :=
  {| file := {| file_name := lit "cat.png"; file_type := lit "image/png" |};
     dataUrl := data_url (lit "image/png") (lit "iVBORw0KGgo=");
     type := image |}.

(** A message with markup and no asterisks. *)
Definition markup_message : DisplayMessage :=
  limo_says (lit "<img src=x onerror=alert(1)>").

(** The text of an artifact that has a name and a code but no theme. *)
Definition themeless_app_text : jsstring :=
  lit "{" ++ quoted (lit "appName") ++ lit ":" ++ quoted (lit "TicTacToe")
  ++ lit "," ++ quoted (lit "code") ++ lit ":{}}".

(** The single-prompt component with an idea typed in. *)
Definition idea_typed : Legacy.LimoApp :=
  Legacy.handlePromptInput (lit "A todo list") Legacy.initial_state.

(** The page of the single-prompt component after the idea was typed,
    the button clicked and the request answered with a full artifact. *)
Definition generated_page : Legacy.Page :=
  @Legacy.fire example_platform
    (@Legacy.fire example_platform
       (@Legacy.fire example_platform Legacy.initial
          (Legacy.PromptInput (lit "A todo list")))
       Legacy.GenerateClick)
    (Legacy.Settle (Fulfilled (Some example_app_text))).

(** ** The transcript and its first entry *)







(** A file [handleFileSelected] accepts. *)
Definition accepted (f : File) : bool :=
  startsWith (file_type f) (lit "image/")
  || startsWith (file_type f) (lit "audio/").

(** The attachment [reader.onload] stores for [f] read as [result]. *)
Definition attachment_of (f : File) (result : jsstring) : Attachment :=
  {| file := f; dataUrl := result; type := coarse_type f |}.

(** Two pictures. *)
Definition cat_file : File :=
  {| file_name := lit "cat.png"; file_type := lit "image/png" |}.

Definition dog_file : File :=
  {| file_name := lit "dog.jpg"; file_type := lit "image/jpeg" |}.


(* ================================================================== *)
(** * Facts about the string operations *)
(* ================================================================== *)

Section StringFacts.

Lemma startsWith_iff (s p : jsstring) :
  startsWith s p = true <-> exists r, s = p ++ r.
Proof.
  revert s; induction p as [|c p IH]; intros [|d s]; simpl.
  - split; [intros _; now exists [] | reflexivity].
  - split; [intros _; now exists (d :: s) | reflexivity].
  - split; [discriminate | intros [r Hr]; discriminate].
  - rewrite andb_true_iff, N.eqb_eq, IH. split.
    + intros [-> [r ->]]. now exists r.
    + intros [r Hr]. injection Hr as -> ->.
      split; [reflexivity | now exists r].
Qed.

Lemma endsWith_iff (s p : jsstring) :
  endsWith s p = true <-> exists q, s = q ++ p.
Proof.
  unfold endsWith. rewrite startsWith_iff. split.
  - intros [r Hr]. exists (rev r).
    rewrite <- (rev_involutive s), Hr, rev_app_distr, rev_involutive.
    reflexivity.
  - intros [q ->]. exists (rev q). apply rev_app_distr.
Qed.

Lemma indexOf_eq (s p : jsstring) :
  indexOf s p =
  if startsWith s p then Some 0
  else match s with
       | [] => None
       | _ :: s' => option_map S (indexOf s' p)
       end.
Proof. destruct s; reflexivity. Qed.

(** [indexOf] finds an occurrence, and the leftmost one. *)
Lemma indexOf_Some (s p : jsstring) (i : nat) :
  indexOf s p = Some i ->
  exists a b, s = a ++ p ++ b /\ length a = i.
Proof.
  revert i; induction s as [|c s IH]; intros i; rewrite indexOf_eq.
  - destruct (startsWith [] p) eqn:E; [|discriminate].
    intros [= <-]. apply startsWith_iff in E as [r Hr].
    exists [], r. now split.
  - destruct (startsWith (c :: s) p) eqn:E.
    + intros [= <-]. apply startsWith_iff in E as [r Hr].
      exists [], r. now split.
    + destruct (indexOf s p) as [j|] eqn:Ej; [|discriminate].
      simpl. intros [= <-].
      destruct (IH j eq_refl) as (a & b & -> & Hlen).
      exists (c :: a), b. simpl. now rewrite Hlen.
Qed.

Lemma indexOf_None (s p : jsstring) :
  indexOf s p = None -> forall a b, s <> a ++ p ++ b.
Proof.
  induction s as [|c s IH]; rewrite indexOf_eq.
  - destruct (startsWith [] p) eqn:E; [discriminate|].
    intros _ a b H. destruct a; simpl in H.
    + assert (startsWith [] p = true) by (apply startsWith_iff; now exists b).
      congruence.
    + discriminate.
  - destruct (startsWith (c :: s) p) eqn:E; [discriminate|].
    destruct (indexOf s p) eqn:Ej; [discriminate|].
    intros _ a b H. destruct a as [|d a]; simpl in H.
    + assert (startsWith (c :: s) p = true)
        by (apply startsWith_iff; now exists b).
      congruence.
    + injection H as _ H. exact (IH eq_refl a b H).
Qed.

(** The position [indexOf] returns is at most that of any occurrence. *)
Lemma indexOf_leftmost (s p a b : jsstring) :
  s = a ++ p ++ b ->
  exists i, indexOf s p = Some i /\ i <= length a.
Proof.
  revert s; induction a as [|d a IH]; intros s ->; rewrite indexOf_eq.
  - assert (E : startsWith ([] ++ p ++ b) p = true)
      by (apply startsWith_iff; now exists b).
    rewrite E. exists 0. split; [reflexivity | simpl; lia].
  - destruct (startsWith ((d :: a) ++ p ++ b) p) eqn:E.
    + exists 0. split; [reflexivity | simpl; lia].
    + destruct (IH _ eq_refl) as (i & Hi & Hle).
      exists (S i). simpl. rewrite Hi. split; [reflexivity | simpl; lia].
Qed.

Lemma includes_iff (s p : jsstring) :
  includes s p = true <-> exists a b, s = a ++ p ++ b.
Proof.
  unfold includes. destruct (indexOf s p) as [i|] eqn:E.
  - split; [intros _|reflexivity].
    destruct (indexOf_Some _ _ _ E) as (a & b & H & _). now exists a, b.
  - split; [discriminate|]. intros (a & b & H).
    now apply (indexOf_None _ _ E) in H.
Qed.

Lemma includes_false_iff (s p : jsstring) :
  includes s p = false <-> forall a b, s <> a ++ p ++ b.
Proof.
  split.
  - intros H a b E.
    assert (includes s p = true) by (apply includes_iff; now exists a, b).
    congruence.
  - intros H. destruct (includes s p) eqn:E; [|reflexivity].
    apply includes_iff in E as (a & b & E). now apply H in E.
Qed.

(** A piece of a string that lacks [p] lacks [p] as well. *)
Lemma includes_piece (s t x y p : jsstring) :
  s = x ++ t ++ y -> includes s p = false -> includes t p = false.
Proof.
  intros -> H. apply includes_false_iff. intros a b ->.
  rewrite includes_false_iff in H. apply (H (x ++ a) (b ++ y)).
  now rewrite <- !app_assoc.
Qed.

Lemma trimStart_piece (s : jsstring) : exists w, s = w ++ trimStart s.
Proof.
  induction s as [|c s [w IH]]; simpl.
  - now exists [].
  - destruct (isWhiteSpace c).
    + exists (c :: w). simpl. now rewrite <- IH.
    + now exists [].
Qed.

Lemma trimEnd_piece (s : jsstring) : exists w, s = trimEnd s ++ w.
Proof.
  unfold trimEnd. destruct (trimStart_piece (rev s)) as [w Hw].
  exists (rev w).
  rewrite <- (rev_involutive s) at 1. rewrite Hw at 1.
  now rewrite rev_app_distr.
Qed.

(** [trim] only removes characters at both ends. *)
Lemma trim_piece (s : jsstring) : exists x y, s = x ++ trim s ++ y.
Proof.
  unfold trim. destruct (trimStart_piece s) as [x Hx].
  destruct (trimEnd_piece (trimStart s)) as [y Hy].
  exists x, y. now rewrite <- Hy.
Qed.

Lemma replace_spaces_length (s : jsstring) :
  length (replace_spaces s) = length s.
Proof. apply length_map. Qed.

Lemma replace_spaces_nth (s : jsstring) (i : nat) :
  nth_error (replace_spaces s) i =
  option_map (fun c => if (c =? 32)%N then 43%N else c) (nth_error s i).
Proof. apply nth_error_map. Qed.

Lemma replace_spaces_no_space (s : jsstring) :
  ~ In 32%N (replace_spaces s).
Proof.
  unfold replace_spaces. rewrite in_map_iff. intros (c & H & _).
  destruct (c =? 32)%N eqn:E; [discriminate|].
  apply N.eqb_neq in E. congruence.
Qed.

End StringFacts.

Arguments trim : simpl never.
Arguments JSON_parse : simpl never.
Arguments lit : simpl never.
Arguments includes : simpl never.
Arguments startsWith : simpl never.
Arguments endsWith : simpl never.
Arguments replace : simpl never.

(* ================================================================== *)
(** * The fuel of [JSON.parse] *)
(* ================================================================== *)

Lemma skip_ws_length (s : jsstring) : length (skip_ws s) <= length s.
Proof.
  induction s as [|c s IH]; simpl; [lia|].
  destruct (isJsonWs c); simpl; lia.
Qed.

Lemma take_digits_length (s r : jsstring) (ds : list N) :
  take_digits s = (ds, r) -> length s = length ds + length r.
Proof.
  revert ds r; induction s as [|c s IH]; intros ds r; simpl.
  - intros [= <- <-]. reflexivity.
  - destruct (isDigit c).
    + destruct (take_digits s) as [ds' r'] eqn:E. intros [= <- <-].
      simpl. now rewrite (IH ds' r' eq_refl).
    + intros [= <- <-]. reflexivity.
Qed.

(** Case analysis on the first [match] or [if] of a hypothesis. *)
Ltac break_in H :=
  match type of H with
  | context [match ?x with _ => _ end] =>
      lazymatch x with
      | context [match _ with _ => _ end] => fail
      | _ => destruct x eqn:?
      end
  end.

Lemma parse_number_length (s r : jsstring) (v : json) :
  parse_number s = Some (v, r) -> length r < length s.
Proof.
  unfold parse_number. intros H.
  repeat (break_in H; try discriminate);
    injection H as <- <-;
    repeat match goal with
           | E : take_digits _ = _ |- _ =>
               apply take_digits_length in E; simpl in E
           | E : (_, _) = (_, _) |- _ => injection E as <- <-
           | E : is_nil ?l = false |- _ =>
               destruct l; [discriminate|]; simpl in *; clear E
           end;
    simpl in *; lia.
Qed.

Lemma parse_string_body_length (s r str : jsstring) :
  parse_string_body s = Some (str, r) -> length r < length s.
Proof.
  remember (length s) as n eqn:Hn. assert (Hle : length s <= n) by lia.
  clear Hn. revert s str r Hle.
  induction n as [|n IH]; intros s str r Hle H;
    destruct s as [|c s]; try discriminate; simpl in Hle; [lia|].
  simpl in H.
  repeat (break_in H; try discriminate); injection H as <- <-;
    try (simpl; lia);
    match goal with
    | E : parse_string_body ?t = Some _ |- _ =>
        apply IH in E; [simpl in *; lia | simpl in *; lia]
    end.
Qed.

Lemma startsWith_length (s p : jsstring) :
  startsWith s p = true -> length p <= length s.
Proof.
  intros [r ->]%startsWith_iff. rewrite length_app. lia.
Qed.

#[local] Arguments skipn : simpl never.

Lemma skipn_length_lt (k : nat) (s p : jsstring) :
  startsWith s p = true -> length p = k -> 0 < k ->
  length (skipn k s) < length s.
Proof.
  intros H%startsWith_length Hk Hpos. rewrite length_skipn. lia.
Qed.

(** Adds to the context what the equations on the parsing steps say about
    lengths. *)
Ltac length_facts :=
  repeat match goal with
         | E : skip_ws ?x = ?c :: ?r |- _ =>
             lazymatch goal with
             | _ : length (c :: r) <= length x |- _ => fail
             | _ => let F := fresh "F" in
                    pose proof (skip_ws_length x) as F; rewrite E in F
             end
         | E : parse_string_body ?x = Some (?str, ?r) |- _ =>
             lazymatch goal with
             | _ : length r < length x |- _ => fail
             | _ => pose proof (parse_string_body_length _ _ _ E)
             end
         | E : parse_number ?x = Some (?v, ?r) |- _ =>
             lazymatch goal with
             | _ : length r < length x |- _ => fail
             | _ => pose proof (parse_number_length _ _ _ E)
             end
         end;
  cbn [length] in *.

(** A successful parse takes up part of its input, and succeeds with any
    amount of fuel that is at least the number of code units it takes
    up. *)
Lemma parse_fuel (n : nat) :
  (forall s v rest,
      parse_value n s = Some (v, rest) ->
      length rest < length s
      /\ forall m, length s - length rest <= m ->
                   parse_value m s = Some (v, rest))
  /\ (forall acc s v rest,
      parse_members n acc s = Some (v, rest) ->
      length rest < length s
      /\ forall m, length s - length rest <= m ->
                   parse_members m acc s = Some (v, rest))
  /\ (forall acc s v rest,
      parse_elements n acc s = Some (v, rest) ->
      length rest < length s
      /\ forall m, length s - length rest <= m ->
                   parse_elements m acc s = Some (v, rest)).
Proof.
  induction n as [|n (IHv & IHm & IHe)]; [repeat split; discriminate|].
  split; [|split].
  - intros s v rest H.
    cbn [parse_value] in H.
    destruct (skip_ws s) as [|c r] eqn:Es; [discriminate|].
    repeat (break_in H; try discriminate).
    all: length_facts.
    all: try (injection H as <- <-).
    all: try match goal with
             | E : parse_members _ _ _ = Some _ |- _ =>
                 destruct (IHm _ _ _ _ E) as [? ?]
             | E : parse_elements _ _ _ = Some _ |- _ =>
                 destruct (IHe _ _ _ _ E) as [? ?]
             end.
    all: try match goal with
             | E : startsWith (?c :: ?r) (lit _) = true
               |- context [skipn ?k (?c :: ?r)] =>
                 pose proof (skipn_length_lt k _ _ E eq_refl ltac:(lia));
                 cbn [length] in *
             end.
    all: split; [lia|]; intros [|m] Hm; [lia|];
      cbn [parse_value]; rewrite Es;
      repeat match goal with
             | E : ?x = _ |- context [?x] => rewrite E
             end;
      try reflexivity.
    all: match goal with
         | K : forall m, _ <= m -> _ = Some _ |- _ => apply K; lia
         end.
  - intros acc s v rest H.
    cbn [parse_members] in H.
    destruct (skip_ws s) as [|c r] eqn:Es; [discriminate|].
    repeat (break_in H; try discriminate).
    all: length_facts.
    all: try (injection H as <- <-).
    all: repeat match goal with
             | E : parse_value _ _ = Some _ |- _ =>
                 destruct (IHv _ _ _ E) as [? ?]; clear E
             | E : parse_members _ _ _ = Some _ |- _ =>
                 destruct (IHm _ _ _ _ E) as [? ?]; clear E
             end.
    all: split; [lia|]; intros [|m] Hm; [lia|];
      cbn [parse_members]; rewrite Es;
      repeat first
        [ match goal with
          | E : ?x = _ |- context [?x] => rewrite E
          end
        | match goal with
          | K : forall m, _ <= m -> parse_value m ?x = _
            |- context [parse_value ?m' ?x] => rewrite (K m') by lia
          end ];
      try reflexivity.
    all: match goal with
         | K : forall m, _ <= m -> parse_members _ _ _ = Some _ |- _ =>
             apply K; lia
         end.
  - intros acc s v rest H.
    cbn [parse_elements] in H.
    repeat (break_in H; try discriminate).
    all: length_facts.
    all: try (injection H as <- <-).
    all: repeat match goal with
             | E : parse_value _ _ = Some _ |- _ =>
                 destruct (IHv _ _ _ E) as [? ?]; clear E
             | E : parse_elements _ _ _ = Some _ |- _ =>
                 destruct (IHe _ _ _ _ E) as [? ?]; clear E
             end.
    all: split; [lia|]; intros [|m] Hm; [lia|];
      cbn [parse_elements];
      repeat first
        [ match goal with
          | E : ?x = _ |- context [?x] => rewrite E
          end
        | match goal with
          | K : forall m, _ <= m -> parse_value m ?x = _
            |- context [parse_value ?m' ?x] => rewrite (K m') by lia
          end ];
      try reflexivity.
    all: match goal with
         | K : forall m, _ <= m -> parse_elements _ _ _ = Some _ |- _ =>
             apply K; lia
         end.
Qed.

(** The fuel [JSON_parse] gives is enough: a text that parses with some
    amount of fuel parses, to the same value, with [S (length text)]. *)
Lemma JSON_parse_fuel (text : jsstring) (n : nat) (v : json)
  (rest : jsstring) :
  parse_value n text = Some (v, rest) ->
  parse_value (S (length text)) text = Some (v, rest).
Proof.
  intros H. destruct (proj1 (parse_fuel n) _ _ _ H) as [Hlt Hm].
  apply Hm. lia.
Qed.

Lemma JSON_parse_complete (text : jsstring) (n : nat) (v : json)
  (rest : jsstring) :
  parse_value n text = Some (v, rest) -> skip_ws rest = [] ->
  JSON_parse text = Some v.
Proof.
  intros H Hr. unfold JSON_parse.
  rewrite (JSON_parse_fuel _ _ _ _ H), Hr. reflexivity.
Qed.

(* ================================================================== *)
(** * Reasoning about handlers *)
(* ================================================================== *)

Lemma nth_error_mapi_from {A B} (f : nat -> A -> B) (l : list A) (k i : nat) :
  nth_error (mapi_from f k l) i = option_map (f (k + i)) (nth_error l i).
Proof.
  revert k i; induction l as [|x l IH]; intros k [|i]; simpl; try reflexivity.
  - now rewrite Nat.add_0_r.
  - rewrite IH. now rewrite Nat.add_succ_r.
Qed.

Lemma nth_error_mapi {A B} (f : nat -> A -> B) (l : list A) (i : nat) :
  nth_error (mapi f l) i = option_map (f i) (nth_error l i).
Proof. unfold mapi. now rewrite nth_error_mapi_from. Qed.

Lemma length_mapi {A B} (f : nat -> A -> B) (l : list A) :
  length (mapi f l) = length l.
Proof.
  unfold mapi. generalize 0.
  induction l as [|x l IH]; intros k; simpl; [reflexivity | now rewrite IH].
Qed.

Lemma removelast_snoc {A} (l : list A) (x : A) : removelast (l ++ [x]) = l.
Proof. apply removelast_last. Qed.

Lemma nth_error_removelast {A} (l : list A) (i : nat) (x : A) :
  nth_error (removelast l) i = Some x -> nth_error l i = Some x.
Proof.
  destruct (rev l) as [|y r] eqn:E.
  - apply (f_equal (@rev A)) in E. rewrite rev_involutive in E. now subst.
  - apply (f_equal (@rev A)) in E. rewrite rev_involutive in E. simpl in E.
    subst l. rewrite removelast_snoc. intros H.
    rewrite nth_error_app1; [exact H|].
    apply nth_error_Some. congruence.
Qed.


Section Rules.
Variable Inv : LimoApp -> Prop.

Lemma preserves_ret {A} (x : A) : preserves Inv (ret x).
Proof. intros st H; exact H. Qed.

Lemma preserves_throw {A} (e : Thrown) : preserves Inv (@throw A e).
Proof. intros st H; exact H. Qed.

Lemma preserves_lift {A} (c : Completion A) : preserves Inv (lift c).
Proof. intros st H; exact H. Qed.

Lemma preserves_this : preserves Inv this.
Proof. intros st H; exact H. Qed.

Lemma preserves_assign (f : LimoApp -> LimoApp) :
  (forall st, Inv st -> Inv (f st)) -> preserves Inv (assign f).
Proof. intros Hf st H; apply Hf, H. Qed.

Lemma preserves_seq {A B} (m : Action A) (k : A -> Action B) :
  preserves Inv m -> (forall x, preserves Inv (k x)) ->
  preserves Inv (seq m k).
Proof.
  intros Hm Hk st H. unfold seq. specialize (Hm st H).
  destruct (m st) as [st1 [e|a]]; simpl in *.
  - exact Hm.
  - apply Hk, Hm.
Qed.

Lemma preserves_try (body : Action unit) (handler : Thrown -> Action unit)
  (final : Action unit) :
  preserves Inv body -> (forall e, preserves Inv (handler e)) ->
  preserves Inv final ->
  preserves Inv (try_catch_finally body handler final).
Proof.
  intros Hb Hh Hf st H. unfold try_catch_finally. specialize (Hb st H).
  destruct (body st) as [st1 [e|u]]; simpl in *.
  - specialize (Hh e st1 Hb).
    destruct (handler e st1) as [st2 [e'|u]]; simpl in *.
    + specialize (Hf st2 Hh). now destruct (final st2) as [st3 [e''|u]].
    + apply Hf, Hh.
  - apply Hf, Hb.
Qed.

End Rules.

(** One step of a proof that a handler keeps an invariant: follow the
    structure of the handler. *)
Ltac preserve_step :=
  lazymatch goal with
  | |- preserves _ (seq _ _) => apply preserves_seq; [| intro]
  | |- preserves _ (ret _) => apply preserves_ret
  | |- preserves _ (throw _) => apply preserves_throw
  | |- preserves _ (lift _) => apply preserves_lift
  | |- preserves _ this => apply preserves_this
  | |- preserves _ (try_catch_finally _ _ _) =>
      apply preserves_try; [| intro |]
  | |- preserves _ (assign _) => apply preserves_assign
  | |- preserves _ (if ?c then _ else _) => destruct c
  | |- preserves _ (match ?c with _ => _ end) => destruct c
  end.

Section Frame.
Context {P : Platform}.
Variable Inv : LimoApp -> Prop.

(** The invariant does not look at the fields below. *)
Hypothesis Inv_isLoading : forall v st, Inv st -> Inv (set_isLoading v st).
Hypothesis Inv_error : forall v st, Inv st -> Inv (set_error v st).
Hypothesis Inv_currentPrompt :
  forall v st, Inv st -> Inv (set_currentPrompt v st).
Hypothesis Inv_attachment : forall v st, Inv st -> Inv (set_attachment v st).
Hypothesis Inv_history : forall v st, Inv st -> Inv (set_history v st).
Hypothesis Inv_activeTab : forall v st, Inv st -> Inv (set_activeTab v st).
Hypothesis Inv_isFullscreen :
  forall v st, Inv st -> Inv (set_isFullscreen v st).

(** It survives the three ways the transcript is changed other than by
    the reply of the clarifying chat: removing the last entry, appending
    an entry without Build button, and marking an entry as built. *)
Hypothesis Inv_pop :
  forall st, Inv st ->
  Inv (set_displayHistory (removelast (displayHistory st)) st).
Hypothesis Inv_push :
  forall m st, build_button m = false -> Inv st ->
  Inv (set_displayHistory (displayHistory st ++ [m]) st).
Hypothesis Inv_mark :
  forall j st, Inv st ->
  Inv (set_displayHistory
         (mapi (fun index msg =>
                  if index =? j then with_buildCompleted msg else msg)
               (displayHistory st)) st).

Lemma catch_clause_preserves (e : Thrown) : preserves Inv (catch_clause e).
Proof.
  unfold catch_clause, displayHistory_pop. repeat preserve_step; auto.
Qed.

Lemma finally_clause_preserves : preserves Inv finally_clause.
Proof. unfold finally_clause. repeat preserve_step; auto. Qed.

Lemma generateContent_preserves (r : Request) (k : Pending) :
  preserves Inv (generateContent r k).
Proof.
  unfold generateContent. repeat preserve_step;
    auto using catch_clause_preserves, finally_clause_preserves.
Qed.

Lemma handleModificationRequest_begin_preserves (t : jsstring) :
  preserves Inv (handleModificationRequest_begin t).
Proof.
  unfold handleModificationRequest_begin, displayHistory_push.
  repeat (preserve_step; cbv zeta);
    auto using generateContent_preserves.
Qed.

Lemma handleSendMessage_begin_preserves :
  preserves Inv handleSendMessage_begin.
Proof.
  unfold handleSendMessage_begin, displayHistory_push.
  repeat (preserve_step; cbv zeta);
    auto using generateContent_preserves,
      handleModificationRequest_begin_preserves.
Qed.

Lemma handleBuildApp_begin_preserves (i : nat) :
  preserves Inv (handleBuildApp_begin i).
Proof.
  unfold handleBuildApp_begin, displayHistory_push.
  repeat (preserve_step; cbv zeta);
    auto using generateContent_preserves.
Qed.

Lemma handlePromptInput_preserves (v : jsstring) :
  preserves Inv (handlePromptInput v).
Proof. unfold handlePromptInput. repeat preserve_step; auto. Qed.

Lemma handlePromptKeydown_preserves (k : jsstring) (s : bool) :
  preserves Inv (handlePromptKeydown k s).
Proof.
  unfold handlePromptKeydown.
  repeat preserve_step; auto using handleSendMessage_begin_preserves.
Qed.

Lemma handleFileSelected_preserves (f : option File) :
  preserves Inv (handleFileSelected f).
Proof. unfold handleFileSelected. repeat preserve_step; auto. Qed.

Lemma reader_onload_preserves (f : File) (r : jsstring) :
  preserves Inv (reader_onload f r).
Proof. unfold reader_onload. repeat (preserve_step; cbv zeta); auto. Qed.

Lemma removeAttachment_preserves : preserves Inv removeAttachment.
Proof. unfold removeAttachment. repeat preserve_step; auto. Qed.

Lemma toggleFullscreen_preserves : preserves Inv toggleFullscreen.
Proof. unfold toggleFullscreen. repeat preserve_step; auto. Qed.

(** The continuations of build and modification also assign [appData]. *)
Hypothesis Inv_appData : forall v st, Inv st -> Inv (set_appData v st).

Lemma handleModificationRequest_resume_preserves
  (ps : list HistoryPart) (o : Outcome) :
  preserves Inv (handleModificationRequest_resume ps o).
Proof.
  unfold handleModificationRequest_resume, handleModificationRequest_try,
    await, response_text_trim, displayHistory_push, displayHistory_pop.
  repeat (preserve_step; cbv zeta);
    auto using catch_clause_preserves, finally_clause_preserves.
Qed.

Lemma handleBuildApp_resume_preserves (o : Outcome) :
  preserves Inv (handleBuildApp_resume o).
Proof.
  unfold handleBuildApp_resume, handleBuildApp_try,
    await, response_text_trim, displayHistory_push, displayHistory_pop.
  repeat (preserve_step; cbv zeta);
    auto using catch_clause_preserves, finally_clause_preserves.
Qed.

End Frame.

(* ================================================================== *)
(** * The busy flag, the error classifier, the attachment handler *)
(* ================================================================== *)

Section Guards.
Context {P : Platform}.

(** C6.  While [isLoading] is true, [handleSendMessage] returns at once:
    the whole state is what it was (so [history] and [displayHistory] keep
    their lengths, and [appData], [attachment] and [currentPrompt] their
    values), the handler ends without having issued a request, and at the
    level of the page no request is added to those in flight. *)
Theorem C6_send_while_busy_is_noop (st : LimoApp) :
  isLoading st = true ->
  handleSendMessage_begin st = (st, inr Returned)
  /\ (forall o, handleSendMessage o st = (st, inr tt))
  /\ (forall p, component p = st -> fire p SendClick = p)
  /\ (let st' := fst (handleSendMessage_begin st) in
      length (history st') = length (history st)
      /\ length (displayHistory st') = length (displayHistory st)
      /\ appData st' = appData st
      /\ attachment st' = attachment st
      /\ currentPrompt st' = currentPrompt st).
Proof.
  intros Hbusy.
  assert (E : handleSendMessage_begin st = (st, inr Returned)).
  { unfold handleSendMessage_begin, seq, this. cbv beta iota zeta.
    rewrite Hbusy, orb_true_r. reflexivity. }
  split; [exact E|]. split; [|split].
  - intros o. unfold handleSendMessage, run_to_end, seq. now rewrite E.
  - intros [c fl rd] Hc. simpl in Hc. subst c.
    unfold fire. cbv beta iota zeta. simpl component. now rewrite E.
  - rewrite E. simpl. repeat split.
Qed.

(** C7.  [handleApiError] maps every caught failure to one of four fixed
    strings.  Against the lower-cased message: a rate-limit or quota
    indicator gives the service-busy message; otherwise the
    invalid-credential indicator gives the configuration-issue message;
    otherwise the timeout indicator gives the timed-out message; every
    other failure, a thrown value that is not an [Error] included, gives
    the unexpected-error message.  The result is always one of the four
    strings, which are pairwise different, so the text of the provider's
    error never decides more than which of them is returned. *)
Theorem C7_error_classifier (e : Thrown) :
  (rate_limited e = true -> handleApiError e = service_busy_message)
  /\ (rate_limited e = false ->
      mentions e (lit "api key not valid") = true ->
      handleApiError e = configuration_issue_message)
  /\ (rate_limited e = false ->
      mentions e (lit "api key not valid") = false ->
      mentions e (lit "deadline exceeded") = true ->
      handleApiError e = timed_out_message)
  /\ (rate_limited e = false ->
      mentions e (lit "api key not valid") = false ->
      mentions e (lit "deadline exceeded") = false ->
      handleApiError e = unexpected_error_message)
  /\ In (handleApiError e) user_facing_messages
  /\ NoDup user_facing_messages.
Proof.
  unfold rate_limited, mentions, lowered_message, handleApiError,
    user_facing_messages.
  destruct e as [message|]; cbv beta iota zeta.
  - destruct (includes (toLowerCase message) (lit "429")
              || includes (toLowerCase message) (lit "resource_exhausted")
              || includes (toLowerCase message) (lit "quota"));
    destruct (includes (toLowerCase message) (lit "api key not valid"));
    destruct (includes (toLowerCase message) (lit "deadline exceeded"));
    repeat split; try congruence; try (intros; reflexivity);
      try (simpl; tauto);
      repeat constructor; simpl; intuition discriminate.
  - repeat split; try congruence; try (intros; reflexivity);
      try (simpl; tauto);
      repeat constructor; simpl; intuition discriminate.
Qed.

Lemma image_is_not_audio (s : jsstring) :
  startsWith s (lit "image/") = true -> startsWith s (lit "audio/") = false.
Proof.
  intros H. apply startsWith_iff in H as [r ->]. reflexivity.
Qed.

(** C9.  A selected file whose MIME type starts with neither [image/] nor
    [audio/] only sets the validation message: the attachment, the chat
    history and the display history are untouched, no reading is started
    and no request is issued.  A file whose MIME type starts with [image/]
    or [audio/] is accepted: its reading is started, and when the reading
    has produced a data URL the file is stored as the pending attachment,
    with type [image] for [image/] and [audio] for [audio/]. *)
Theorem C9_attachment_validation (st : LimoApp) (f : File) :
  (startsWith (file_type f) (lit "image/") = false ->
   startsWith (file_type f) (lit "audio/") = false ->
   handleFileSelected (Some f) st
   = (set_error (Some unsupported_file_type) st, inr None)
   /\ (let st' := fst (handleFileSelected (Some f) st) in
       error st' = Some unsupported_file_type
       /\ attachment st' = attachment st
       /\ history st' = history st
       /\ displayHistory st' = displayHistory st)
   /\ (forall p, component p = st ->
       reading (fire p (FileSelected (Some f))) = reading p
       /\ in_flight (fire p (FileSelected (Some f))) = in_flight p))
  /\ (startsWith (file_type f) (lit "image/") = true
      \/ startsWith (file_type f) (lit "audio/") = true ->
      handleFileSelected (Some f) st = (set_error None st, inr (Some f))
      /\ (forall p, component p = st ->
          reading (fire p (FileSelected (Some f))) = reading p ++ [f])
      /\ (forall st1 result,
          attachment (fst (reader_onload f result st1))
          = Some {| file := f; dataUrl := result; type := coarse_type f |})
      /\ (startsWith (file_type f) (lit "image/") = true ->
          coarse_type f = image)
      /\ (startsWith (file_type f) (lit "audio/") = true ->
          coarse_type f = audio)).
Proof.
  split.
  - intros Hi Ha.
    assert (E : handleFileSelected (Some f) st
                = (set_error (Some unsupported_file_type) st, inr None)).
    { unfold handleFileSelected. rewrite Hi, Ha. reflexivity. }
    split; [exact E|]. split.
    + rewrite E. simpl. repeat split.
    + intros [c fl rd] Hc. simpl in Hc. subst c.
      unfold fire. simpl component. rewrite E. simpl. split; reflexivity.
  - intros Hor.
    assert (E : handleFileSelected (Some f) st
                = (set_error None st, inr (Some f))).
    { unfold handleFileSelected.
      destruct Hor as [H|H]; rewrite H; simpl;
        [reflexivity | now rewrite andb_false_r]. }
    split; [exact E|]. split; [|split; [|split]].
    + intros [c fl rd] Hc. simpl in Hc. subst c.
      unfold fire. simpl component. rewrite E. reflexivity.
    + intros st1 result. reflexivity.
    + intros H. unfold coarse_type. now rewrite H.
    + intros H. unfold coarse_type.
      destruct (startsWith (file_type f) (lit "image/")) eqn:Ei;
        [|reflexivity].
      apply image_is_not_audio in Ei. congruence.
Qed.

End Guards.

(* ================================================================== *)
(** * Example pages *)
(* ================================================================== *)

Lemma run_fire_all {P : Platform} (es : list Event) (p q : Page) :
  run p es = Some q -> fire_all p es = q.
Proof.
  revert p; induction es as [|e es IH]; intros p; simpl.
  - now intros [= ->].
  - destruct (enabled p e); [apply IH | discriminate].
Qed.

Lemma run_reachable {P : Platform} (k : option jsstring) (es : list Event)
  (p q : Page) :
  reachable k p -> run p es = Some q -> reachable k q.
Proof.
  revert p; induction es as [|e es IH]; intros p Hp; simpl.
  - now intros [= <-].
  - destruct (enabled p e) eqn:E; [|discriminate].
    apply IH. now apply reachable_fire.
Qed.

Example example_app_text_parses :
  JSON_parse example_app_text = Some (AppData_to_json example_app).
Proof. vm_compute. reflexivity. Qed.

Example proposed_page_reachable :
  @reachable example_platform example_key proposed_page
  /\ map author (displayHistory (component proposed_page)) = [limo; user; limo]
  /\ build_available (component proposed_page) 2 = true
  /\ appData (component proposed_page) = JNull.
Proof.
  split.
  - apply (@run_reachable example_platform example_key proposal_events
             (initial example_key)); [constructor | vm_compute; reflexivity].
  - vm_compute. repeat split.
Qed.

Example built_page_reachable :
  @reachable example_platform example_key built_page
  /\ appData (component built_page) = AppData_to_json example_app
  /\ isLoading (component built_page) = false
  /\ error (component built_page) = None.
Proof.
  split.
  - apply (@run_reachable example_platform example_key
             (proposal_events ++
              [ BuildClick 2; Settle 0 (Fulfilled (Some example_app_text)) ])
             (initial example_key)); [constructor | vm_compute; reflexivity].
  - vm_compute. repeat split.
Qed.

(* ================================================================== *)
(** * The responses of build and modification requests *)
(* ================================================================== *)

Section Responses.
Context {P : Platform}.

Lemma try_catch_finally_throws {body : Action unit} {st st1 : LimoApp}
  {e : Thrown} :
  body st = (st1, inl e) ->
  try_catch_finally body catch_clause finally_clause st
  = (failed_in st1 e, inr tt).
Proof. intros H. unfold try_catch_finally. rewrite H. reflexivity. Qed.

Lemma try_catch_finally_returns {body : Action unit} {st st1 : LimoApp} :
  body st = (st1, inr tt) ->
  try_catch_finally body catch_clause finally_clause st
  = (set_isLoading false st1, inr tt).
Proof. intros H. unfold try_catch_finally. rewrite H. reflexivity. Qed.

(** *** A response that does not parse *)

Lemma handleBuildApp_try_malformed (st : LimoApp) (text : jsstring) :
  JSON_parse (trim text) = None ->
  handleBuildApp_try (Fulfilled (Some text)) st
  = (popped st, inl (syntax_error (trim text))).
Proof.
  intros H.
  cbv beta iota zeta delta [handleBuildApp_try seq await ret
    response_text_trim displayHistory_pop assign lift JSON_parse_c].
  rewrite H. reflexivity.
Qed.

Lemma handleModificationRequest_try_malformed (st : LimoApp)
  (ps : list HistoryPart) (text : jsstring) :
  JSON_parse (trim text) = None ->
  handleModificationRequest_try ps (Fulfilled (Some text)) st
  = (popped st, inl (syntax_error (trim text))).
Proof.
  intros H.
  cbv beta iota zeta delta [handleModificationRequest_try seq await ret
    response_text_trim displayHistory_pop assign lift JSON_parse_c].
  rewrite H. reflexivity.
Qed.

Lemma handleBuildApp_resume_malformed (st : LimoApp) (text : jsstring) :
  JSON_parse (trim text) = None ->
  handleBuildApp_resume (Fulfilled (Some text)) st
  = (failed_in (popped st) (syntax_error (trim text)), inr tt).
Proof.
  intros H. unfold handleBuildApp_resume.
  apply try_catch_finally_throws, handleBuildApp_try_malformed, H.
Qed.

Lemma handleModificationRequest_resume_malformed (st : LimoApp)
  (ps : list HistoryPart) (text : jsstring) :
  JSON_parse (trim text) = None ->
  handleModificationRequest_resume ps (Fulfilled (Some text)) st
  = (failed_in (popped st) (syntax_error (trim text)), inr tt).
Proof.
  intros H. unfold handleModificationRequest_resume.
  apply try_catch_finally_throws, handleModificationRequest_try_malformed, H.
Qed.

(** Handlers never assign [appData] before their request settles. *)
Lemma begin_keeps_appData (v : json) :
  (forall t, preserves (fun st => appData st = v)
               (handleModificationRequest_begin t))
  /\ preserves (fun st => appData st = v) handleSendMessage_begin
  /\ (forall i, preserves (fun st => appData st = v)
                  (handleBuildApp_begin i)).
Proof.
  split; [|split]; intros;
    first [ apply handleModificationRequest_begin_preserves
          | apply handleSendMessage_begin_preserves
          | apply handleBuildApp_begin_preserves ];
    intros; assumption.
Qed.

Lemma run_to_end_waiting {begin : Action Started} (o : Outcome)
  {st st1 : LimoApp} {r : Request} {k : Pending} :
  begin st = (st1, inr (Waiting r k)) ->
  run_to_end begin o st = resume k o st1.
Proof. intros H. unfold run_to_end, seq. now rewrite H. Qed.

Lemma run_to_end_cases (begin : Action Started) (o : Outcome) (st : LimoApp) :
  (exists r k, begin st = (fst (begin st), inr (Waiting r k))
               /\ run_to_end begin o st = resume k o (fst (begin st)))
  \/ fst (run_to_end begin o st) = fst (begin st).
Proof.
  unfold run_to_end, seq.
  destruct (begin st) as [st1 [e|[|r k]]]; simpl.
  - now right.
  - now right.
  - left. now exists r, k.
Qed.

Lemma handleBuildApp_begin_issues (i : nat) (st : LimoApp) :
  ai st = true ->
  exists r, handleBuildApp_begin i st
            = (fst (handleBuildApp_begin i st), inr (Waiting r AwaitBuild)).
Proof.
  intros H.
  cbv beta iota zeta delta [handleBuildApp_begin generateContent seq assign
    this displayHistory_push ret].
  simpl. rewrite H. eexists. reflexivity.
Qed.

(** Whatever a handler's synchronous part returns, a continuation it
    leaves is its own. *)
Lemma handleBuildApp_begin_pending (i : nat) (st st1 : LimoApp)
  (r : Request) (k : Pending) :
  handleBuildApp_begin i st = (st1, inr (Waiting r k)) -> k = AwaitBuild.
Proof.
  cbv beta iota zeta delta [handleBuildApp_begin generateContent seq assign
    this displayHistory_push ret].
  simpl. destruct (ai st); simpl; [now intros [= _ _ <-] | discriminate].
Qed.

Lemma handleModificationRequest_begin_pending (t : jsstring)
  (st st1 : LimoApp) (r : Request) (k : Pending) :
  handleModificationRequest_begin t st = (st1, inr (Waiting r k)) ->
  (exists ps, k = AwaitModification ps)
  /\ config r = JsonConfig (lit "application/json")
                  modification_responseSchema.
Proof.
  cbv beta iota zeta delta [handleModificationRequest_begin generateContent
    seq assign this displayHistory_push ret lift].
  simpl. destruct (toBoolean (appData st)); simpl; [|discriminate].
  match goal with |- context [bind ?c ?k] => destruct (bind c k) end;
    simpl; [discriminate|].
  destruct (ai st); simpl; [|discriminate].
  intros [= _ <- <-]. split; [eexists|]; reflexivity.
Qed.

(** C2.  When the text of the response does not parse as JSON, the [try]
    block of the build and of the modification operation throws the
    [SyntaxError] of [JSON.parse], which is the format error of the
    component; the operation reports its classification in [error], clears
    the busy flag, and leaves [appData] as it was.  For the whole
    operations, from their call to their end: [appData] after equals
    [appData] before. *)
Theorem C2_malformed_json_keeps_appData (st : LimoApp) (text : jsstring)
  (ps : list HistoryPart) (prompt : jsstring) (index : nat) :
  JSON_parse (trim text) = None ->
  let o := Fulfilled (Some text) in
  let e := syntax_error (trim text) in
  (snd (handleBuildApp_try o st) = inl e
   /\ appData (fst (handleBuildApp_resume o st)) = appData st
   /\ error (fst (handleBuildApp_resume o st)) = Some (handleApiError e)
   /\ isLoading (fst (handleBuildApp_resume o st)) = false)
  /\ (snd (handleModificationRequest_try ps o st) = inl e
      /\ appData (fst (handleModificationRequest_resume ps o st)) = appData st
      /\ error (fst (handleModificationRequest_resume ps o st))
         = Some (handleApiError e)
      /\ isLoading (fst (handleModificationRequest_resume ps o st)) = false)
  /\ appData (fst (handleBuildApp index o st)) = appData st
  /\ appData (fst (handleModificationRequest prompt o st)) = appData st.
Proof.
  intros H o e.
  pose proof (handleBuildApp_try_malformed st text H) as Hb.
  pose proof (fun s => handleModificationRequest_try_malformed s ps text H)
    as Hm.
  split; [|split; [|split]].
  - unfold handleBuildApp_resume, o.
    rewrite (try_catch_finally_throws Hb), Hb. now repeat split.
  - unfold handleModificationRequest_resume, o.
    rewrite (try_catch_finally_throws (Hm st)), (Hm st). now repeat split.
  - unfold handleBuildApp.
    destruct (run_to_end_cases (handleBuildApp_begin index) o st)
      as [(r & k & Hbeg & Hrun)|Hrun]; rewrite Hrun.
    + apply handleBuildApp_begin_pending in Hbeg as ->. simpl resume.
      unfold handleBuildApp_resume, o.
      rewrite (try_catch_finally_throws
                 (handleBuildApp_try_malformed _ text H)).
      simpl. now apply (proj2 (proj2 (begin_keeps_appData (appData st)))).
    + now apply (proj2 (proj2 (begin_keeps_appData (appData st)))).
  - unfold handleModificationRequest.
    destruct (run_to_end_cases (handleModificationRequest_begin prompt) o st)
      as [(r & k & Hbeg & Hrun)|Hrun]; rewrite Hrun.
    + apply handleModificationRequest_begin_pending in Hbeg as [[ps' ->] _].
      simpl resume. unfold handleModificationRequest_resume, o.
      rewrite (try_catch_finally_throws
                 (handleModificationRequest_try_malformed _ ps' text H)).
      simpl. now apply (proj1 (begin_keeps_appData (appData st))).
    + now apply (proj1 (begin_keeps_appData (appData st))).
Qed.

(** *** A response that parses *)

Lemma handleBuildApp_try_parsed (st : LimoApp) (text : jsstring) (v : json) :
  JSON_parse (trim text) = Some v ->
  handleBuildApp_try (Fulfilled (Some text)) st
  = match interpolate (Some v) f_appName with
    | inl e => (set_appData v (popped st), inl e)
    | inr name =>
        (set_activeTab tab_preview
           (set_displayHistory
              (removelast (displayHistory st) ++ [limo_says (build_done name)])
              (set_history
                 (history st ++
                  [ {| role := role_model;
                       parts := [text_part (build_summary name)] |} ])
                 (set_appData v (popped st)))),
         inr tt)
    end.
Proof.
  intros H.
  cbv beta iota zeta delta [handleBuildApp_try seq await ret
    response_text_trim displayHistory_pop displayHistory_push assign lift
    JSON_parse_c].
  rewrite H. destruct (interpolate (Some v) f_appName); reflexivity.
Qed.

Lemma handleModificationRequest_try_parsed (st : LimoApp)
  (ps : list HistoryPart) (text : jsstring) (v : json) :
  JSON_parse (trim text) = Some v ->
  handleModificationRequest_try ps (Fulfilled (Some text)) st
  = match interpolate (Some v) f_appName with
    | inl e => (set_appData v (popped st), inl e)
    | inr name =>
        (set_history
           (history st ++
            [ {| role := role_user; parts := ps |};
              {| role := role_model;
                 parts := [text_part (modification_summary name)] |} ])
           (set_displayHistory
              (removelast (displayHistory st)
               ++ [limo_says (modification_done name)])
              (set_appData v (popped st))),
         inr tt)
    end.
Proof.
  intros H.
  cbv beta iota zeta delta [handleModificationRequest_try seq await ret
    response_text_trim displayHistory_pop displayHistory_push assign lift
    JSON_parse_c].
  rewrite H. destruct (interpolate (Some v) f_appName); reflexivity.
Qed.

Lemma handleBuildApp_resume_parsed (st : LimoApp) (text : jsstring)
  (v : json) :
  JSON_parse (trim text) = Some v ->
  appData (fst (handleBuildApp_resume (Fulfilled (Some text)) st)) = v.
Proof.
  intros H. unfold handleBuildApp_resume.
  pose proof (handleBuildApp_try_parsed st text v H) as Hb.
  destruct (interpolate (Some v) f_appName) as [e|name].
  - now rewrite (try_catch_finally_throws Hb).
  - now rewrite (try_catch_finally_returns Hb).
Qed.

Lemma handleModificationRequest_resume_parsed (st : LimoApp)
  (ps : list HistoryPart) (text : jsstring) (v : json) :
  JSON_parse (trim text) = Some v ->
  appData (fst (handleModificationRequest_resume ps (Fulfilled (Some text)) st))
  = v.
Proof.
  intros H. unfold handleModificationRequest_resume.
  pose proof (handleModificationRequest_try_parsed st ps text v H) as Hm.
  destruct (interpolate (Some v) f_appName) as [e|name].
  - now rewrite (try_catch_finally_throws Hm).
  - now rewrite (try_catch_finally_returns Hm).
Qed.

(** The name is printed without failure when [appName] is a string, and
    also when it is missing: it then prints as [undefined]. *)
Lemma interpolate_appName (ms : list (jsstring * json)) :
  (obj_get ms (lit "appName") = None ->
   interpolate (Some (JObject ms)) f_appName = inr (lit "undefined"))
  /\ (forall s, obj_get ms (lit "appName") = Some (JString s) ->
      interpolate (Some (JObject ms)) f_appName = inr s).
Proof.
  unfold interpolate, get, bind. simpl field_name. split.
  - intros ->. reflexivity.
  - intros s ->. reflexivity.
Qed.

(** C1, as the code has it.  A response whose text parses as JSON is
    stored in [appData] as it was parsed, by the build and by the
    modification operation, whether or not the nine required leaf fields
    are there: the operations do not look at the fields (only the provider
    is asked to, through the response schema).  When the name of the app
    can be printed, which is the case for every object whose [appName] is
    a string or is missing, the [try] block ends normally: no error is
    reported, and the busy flag is cleared. *)
Theorem C1_parsed_response_is_stored (st : LimoApp) (text : jsstring)
  (v : json) (ps : list HistoryPart) (index : nat) :
  JSON_parse (trim text) = Some v ->
  let o := Fulfilled (Some text) in
  (appData (fst (handleBuildApp_resume o st)) = v
   /\ appData (fst (handleModificationRequest_resume ps o st)) = v
   /\ (ai st = true -> appData (fst (handleBuildApp index o st)) = v))
  /\ (forall name, interpolate (Some v) f_appName = inr name ->
      (snd (handleBuildApp_try o st) = inr tt
       /\ error (fst (handleBuildApp_resume o st)) = error st
       /\ isLoading (fst (handleBuildApp_resume o st)) = false)
      /\ (snd (handleModificationRequest_try ps o st) = inr tt
          /\ error (fst (handleModificationRequest_resume ps o st)) = error st
          /\ isLoading (fst (handleModificationRequest_resume ps o st))
             = false)
      /\ (ai st = true ->
          error (fst (handleBuildApp index o st)) = None
          /\ isLoading (fst (handleBuildApp index o st)) = false))
  /\ (forall ms, v = JObject ms ->
      obj_get ms (lit "appName") = None
      \/ (exists s, obj_get ms (lit "appName") = Some (JString s)) ->
      exists name, interpolate (Some v) f_appName = inr name).
Proof.
  intros H o. subst o.
  pose proof (fun s => handleBuildApp_try_parsed s text v H) as Hb.
  pose proof (fun s => handleModificationRequest_try_parsed s ps text v H)
    as Hm.
  set (o := Fulfilled (Some text)) in *.
  assert (Hres : forall s,
    appData (fst (handleBuildApp_resume o s)) = v
    /\ (forall name, interpolate (Some v) f_appName = inr name ->
        error (fst (handleBuildApp_resume o s)) = error s
        /\ isLoading (fst (handleBuildApp_resume o s)) = false)).
  { intros s. unfold handleBuildApp_resume. specialize (Hb s).
    destruct (interpolate (Some v) f_appName) as [e|name].
    - rewrite (try_catch_finally_throws Hb). split; [reflexivity|].
      intros name' [=].
    - rewrite (try_catch_finally_returns Hb). split; [reflexivity|].
      intros _ _. split; reflexivity. }
  assert (Hwhole : ai st = true ->
    exists s, error s = None
              /\ handleBuildApp index o st = handleBuildApp_resume o s).
  { intros Hai. destruct (handleBuildApp_begin_issues index st Hai) as [r Hr].
    exists (fst (handleBuildApp_begin index st)). split.
    - cbv beta iota zeta delta [handleBuildApp_begin generateContent seq
        assign this displayHistory_push ret].
      simpl. rewrite Hai. reflexivity.
    - unfold handleBuildApp. now rewrite (run_to_end_waiting o Hr). }
  split; [split; [|split]|split].
  - apply (proj1 (Hres st)).
  - unfold handleModificationRequest_resume. specialize (Hm st).
    destruct (interpolate (Some v) f_appName) as [e|name].
    + now rewrite (try_catch_finally_throws Hm).
    + now rewrite (try_catch_finally_returns Hm).
  - intros Hai. destruct (Hwhole Hai) as (s & _ & ->).
    apply (proj1 (Hres s)).
  - intros name Hname. split; [|split].
    + split; [now rewrite Hb, Hname | exact (proj2 (Hres st) name Hname)].
    + specialize (Hm st). rewrite Hname in Hm. split; [now rewrite Hm|].
      unfold handleModificationRequest_resume.
      rewrite (try_catch_finally_returns Hm). split; reflexivity.
    + intros Hai. destruct (Hwhole Hai) as (s & Herr & ->).
      destruct (proj2 (Hres s) name Hname) as [He Hl].
      split; [congruence | exact Hl].
  - intros ms -> [Hnone|[s Hs]].
    + exists (lit "undefined"). exact (proj1 (interpolate_appName ms) Hnone).
    + exists s. exact (proj2 (interpolate_appName ms) s Hs).
Qed.

(** The state in which the build request is issued. *)
Lemma handleBuildApp_begin_state (i : nat) (st : LimoApp) :
  ai st = true ->
  handleBuildApp_begin i st
  = (set_displayHistory
       (mapi (fun index msg =>
                if index =? i then with_buildCompleted msg else msg)
             (displayHistory st) ++ [limo_says build_working])
       (set_error None (set_isLoading true st)),
     inr (Waiting
            {| model := model_name;
               contents := history st ++ [buildInstruction];
               config := JsonConfig (lit "application/json")
                           build_responseSchema |}
            AwaitBuild)).
Proof.
  intros H.
  cbv beta iota zeta delta [handleBuildApp_begin generateContent seq assign
    this displayHistory_push ret].
  simpl. rewrite H. reflexivity.
Qed.

(** When the response to a build does not parse, the transcript loses
    the working message and the entry before it. *)
Lemma malformed_build_pops_twice (i : nat) (text : jsstring) (st : LimoApp) :
  ai st = true ->
  JSON_parse (trim text) = None ->
  displayHistory (fst (handleBuildApp i (Fulfilled (Some text)) st))
  = removelast
      (mapi (fun index msg =>
               if index =? i then with_buildCompleted msg else msg)
            (displayHistory st)).
Proof.
  intros Hai H. unfold handleBuildApp.
  rewrite (run_to_end_waiting _ (handleBuildApp_begin_state i st Hai)).
  simpl resume. rewrite (handleBuildApp_resume_malformed _ text H).
  simpl. now rewrite removelast_snoc.
Qed.

(** *** A request that is rejected *)

Lemma resume_rejected (k : Pending) (e : Thrown) (st : LimoApp) :
  resume k (Rejected e) st = (failed_in st e, inr tt).
Proof. destruct k; reflexivity. Qed.

(** When the request itself fails, the transcript loses exactly its last
    entry, the error is the classified message and the busy flag is
    cleared. *)
Lemma rejected_request_rolls_back (k : Pending) (e : Thrown) (st : LimoApp) :
  let st' := fst (resume k (Rejected e) st) in
  displayHistory st' = removelast (displayHistory st)
  /\ error st' = Some (handleApiError e)
  /\ isLoading st' = false
  /\ appData st' = appData st
  /\ history st' = history st.
Proof. rewrite resume_rejected. simpl. repeat split. Qed.

(** For the build this is the working message the handler had appended:
    the transcript is back to what it was, with the proposal marked. *)
Lemma rejected_build_rolls_back (i : nat) (e : Thrown) (st : LimoApp) :
  ai st = true ->
  let st' := fst (handleBuildApp i (Rejected e) st) in
  displayHistory st'
  = mapi (fun index msg =>
            if index =? i then with_buildCompleted msg else msg)
         (displayHistory st)
  /\ error st' = Some (handleApiError e)
  /\ isLoading st' = false.
Proof.
  intros Hai. destruct (handleBuildApp_begin_issues i st Hai) as [r Hr].
  unfold handleBuildApp. rewrite (run_to_end_waiting _ Hr).
  rewrite resume_rejected.
  cbv beta iota zeta delta [handleBuildApp_begin generateContent seq
    assign this displayHistory_push ret].
  simpl. rewrite Hai. simpl. rewrite removelast_snoc. repeat split.
Qed.

End Responses.

(** C1, as the specification words it, fails.  The text [{}] parses as
    JSON and has none of the nine required leaf fields; the build (on the
    page with a proposal) and the modification (on the page with an app)
    both store the empty object in [appData], report no error and clear the
    busy flag. *)
Lemma C1_partial_artifact_is_stored :
  let text := lit "{}" in
  let o := Fulfilled (Some text) in
  JSON_parse (trim text) = Some (JObject [])
  /\ as_AppData (JObject []) = None
  /\ (let st' := fst (@handleBuildApp example_platform 2 o
                        (component proposed_page)) in
      appData st' = JObject [] /\ error st' = None /\ isLoading st' = false)
  /\ (let st' := fst (@handleModificationRequest example_platform
                        (lit "make it blue") o (component built_page)) in
      appData st' = JObject [] /\ error st' = None /\ isLoading st' = false).
Proof. vm_compute. repeat split. Qed.

(** C3 at a failing input.  On the page with a proposal the transcript is
    greeting, user message, proposal.  The Build action appends its
    working message; when the response then fails to parse, the working
    message has already been removed by the [try] block and the [catch]
    clause removes one more entry: the proposal itself, which the action
    had not appended.  What is left is greeting and user message. *)
Theorem C3_format_failure_removes_an_older_entry :
  let st := component proposed_page in
  let st' := fst (@handleBuildApp example_platform 2
                    (Fulfilled (Some (lit "not json"))) st) in
  map author (displayHistory st) = [limo; user; limo]
  /\ displayHistory st' = firstn 2 (displayHistory st)
  /\ length (displayHistory st') = 2
  /\ error st' = Some unexpected_error_message
  /\ isLoading st' = false.
Proof. vm_compute. repeat split. Qed.

(* ================================================================== *)
(** * The build proposal marker *)
(* ================================================================== *)

Section Proposal.
Context {P : Platform}.

Lemma handleSendMessage_try_reply (h : list HistoryContent)
  (response_text : jsstring) (st : LimoApp) :
  handleSendMessage_try h (Fulfilled (Some response_text)) st
  = (set_history
       (h ++ [ {| role := role_model;
                  parts := [text_part (text (reply_message response_text))] |} ])
       (set_displayHistory
          (displayHistory st ++ [reply_message response_text]) st),
     inr tt).
Proof. reflexivity. Qed.

Lemma replace_suffix (q p : jsstring) :
  indexOf (q ++ p) p = Some (length q) -> replace (q ++ p) p [] = q.
Proof.
  intros H. unfold replace. rewrite H. simpl.
  rewrite firstn_app, firstn_all, Nat.sub_diag. simpl.
  rewrite app_nil_r, skipn_all2; [apply app_nil_r|].
  rewrite length_app. lia.
Qed.

Lemma no_earlier_occurrence (q p : jsstring) :
  p <> [] -> indexOf (q ++ p) p = Some (length q) -> includes q p = false.
Proof.
  intros Hp H. apply includes_false_iff. intros a b ->.
  destruct (indexOf_leftmost ((a ++ p ++ b) ++ p) p a (b ++ p)) as (i & Hi & Hle).
  { now rewrite <- !app_assoc. }
  rewrite Hi in H. injection H as ->.
  rewrite !length_app in Hle.
  destruct p; [congruence | simpl in Hle; lia].
Qed.

(** What holds of the marker.  A reply whose trimmed text does not end
    with the token is shown as its trimmed text, with [proposeBuild]
    false.  A reply whose trimmed text ends with the token has
    [proposeBuild] true and is shown with the first occurrence of the
    token removed; when the token occurs nowhere before the end, this is
    the text before the token, trimmed, and it does not contain the
    token. *)
Lemma token_at_the_end_only_is_stripped (response_text : jsstring) :
  let aiText := trim response_text in
  let m := reply_message response_text in
  (endsWith aiText BUILD_PROPOSAL_TOKEN = false ->
   proposeBuild m = Some false /\ text m = aiText)
  /\ (endsWith aiText BUILD_PROPOSAL_TOKEN = true ->
      proposeBuild m = Some true
      /\ text m = trim (replace aiText BUILD_PROPOSAL_TOKEN [])
      /\ (indexOf aiText BUILD_PROPOSAL_TOKEN
          = Some (length aiText - length BUILD_PROPOSAL_TOKEN) ->
          exists q, aiText = q ++ BUILD_PROPOSAL_TOKEN
                    /\ text m = trim q
                    /\ includes (text m) BUILD_PROPOSAL_TOKEN = false)).
Proof.
  intros aiText m. unfold m, reply_message. fold aiText. split.
  - intros ->. simpl. split; reflexivity.
  - intros E. rewrite E. simpl. split; [reflexivity|]. split; [reflexivity|].
    intros Hi. apply endsWith_iff in E as [q Hq]. exists q.
    split; [exact Hq|].
    rewrite Hq in Hi |- *. rewrite length_app, Nat.add_sub in Hi.
    rewrite (replace_suffix _ _ Hi). split; [reflexivity|].
    destruct (trim_piece q) as (x & y & Hxy).
    apply (includes_piece q (trim q) x y _ Hxy).
    apply no_earlier_occurrence; [discriminate | exact Hi].
Qed.

End Proposal.

(** C5 at a failing input.  The reply mentions the token and then ends
    with it.  The message shown has [proposeBuild] true, but its text is
    the reply without the first occurrence of the token: the token at the
    end is still there, in the transcript and in the history sent back to
    the model. *)
Theorem C5_token_left_in_displayed_text :
  let p := @fire example_platform asked_page
             (Settle 0 (Fulfilled (Some twice_marked_reply))) in
  endsWith (trim twice_marked_reply) BUILD_PROPOSAL_TOKEN = true
  /\ (exists m, nth_error (displayHistory (component p)) 2 = Some m
      /\ proposeBuild m = Some true
      /\ text m = lit "I will end with  once the plan is clear. [PROPOSE_BUILD]"
      /\ includes (text m) BUILD_PROPOSAL_TOKEN = true)
  /\ map author (displayHistory (component p)) = [limo; user; limo].
Proof.
  split; [vm_compute; reflexivity|]. split.
  - eexists. split; [vm_compute; reflexivity|]. vm_compute. repeat split.
  - vm_compute. reflexivity.
Qed.

(* ================================================================== *)
(** * Routing of a sent message *)
(* ================================================================== *)

Section Routing.
Context {P : Platform}.

Lemma handleSendMessage_begin_routes (st : LimoApp) :
  sendable st = true ->
  handleSendMessage_begin st
  = if toBoolean (appData st)
    then handleModificationRequest_begin (trim (currentPrompt st)) st
    else
      generateContent
        {| model := model_name;
           contents :=
             history st ++
             [ {| role := role_user;
                  parts := user_parts (trim (currentPrompt st))
                             (attachment st) |} ];
           config := ChatConfig chatSystemInstruction |}
        (AwaitChat
           (history st ++
            [ {| role := role_user;
                 parts := user_parts (trim (currentPrompt st))
                            (attachment st) |} ]))
        (set_attachment None
           (set_displayHistory
              (displayHistory st ++
               [user_message (trim (currentPrompt st)) (attachment st)])
              (set_currentPrompt []
                 (set_error None (set_isLoading true st))))).
Proof.
  unfold sendable. intros H. apply negb_true_iff in H.
  cbv beta iota zeta delta [handleSendMessage_begin seq this assign
    displayHistory_push ret].
  rewrite H. destruct (toBoolean (appData st)); reflexivity.
Qed.

Lemma as_AppData_truthy (v : json) (a : AppData) :
  as_AppData v = Some a -> toBoolean v = true.
Proof. destruct v; simpl; try discriminate. reflexivity. Qed.

(** The clarifying chat never assigns [appData]. *)
Lemma handleSendMessage_resume_keeps_appData (h : list HistoryContent)
  (o : Outcome) (st : LimoApp) :
  appData (fst (handleSendMessage_resume h o st)) = appData st.
Proof. destruct o as [e|[t|]]; reflexivity. Qed.

(** The continuation of a build or of a modification leaves [appData] as
    it is or assigns it what the response parsed to. *)
Lemma resume_appData (k : Pending) (o : Outcome) (st : LimoApp) :
  appData (fst (resume k o st)) = appData st
  \/ exists t v, o = Fulfilled (Some t) /\ JSON_parse (trim t) = Some v
                 /\ appData (fst (resume k o st)) = v.
Proof.
  destruct k as [h|ps|]; simpl resume.
  - left. apply handleSendMessage_resume_keeps_appData.
  - destruct o as [e|[t|]]; [now left| |now left].
    destruct (JSON_parse (trim t)) as [v|] eqn:E.
    + right. exists t, v. repeat split; [exact E|].
      now apply handleModificationRequest_resume_parsed.
    + left. now rewrite handleModificationRequest_resume_malformed.
  - destruct o as [e|[t|]]; [now left| |now left].
    destruct (JSON_parse (trim t)) as [v|] eqn:E.
    + right. exists t, v. repeat split; [exact E|].
      now apply handleBuildApp_resume_parsed.
    + left. now rewrite handleBuildApp_resume_malformed.
Qed.

Lemma component_after_begin (p : Page) (r : LimoApp * Completion Started) :
  component (after_begin p r) = fst r.
Proof. destruct r as [st [e|[|r k]]]; reflexivity. Qed.

(** The state of the component after an event that is not the settling
    of a request: the result of one of the handlers. *)
Lemma fire_keeps (Inv : LimoApp -> Prop) (p : Page) (e : Event) :
  (forall i o, e <> Settle i o) ->
  (forall v, preserves Inv (handlePromptInput v)) ->
  (forall k s, preserves Inv (handlePromptKeydown k s)) ->
  preserves Inv handleSendMessage_begin ->
  (forall i, preserves Inv (handleBuildApp_begin i)) ->
  (forall f, preserves Inv (handleFileSelected f)) ->
  (forall f r, preserves Inv (reader_onload f r)) ->
  preserves Inv removeAttachment ->
  preserves Inv toggleFullscreen ->
  (forall t st, Inv st -> Inv (set_activeTab t st)) ->
  Inv (component p) -> Inv (component (fire p e)).
Proof.
  intros Hne H1 H2 H3 H4 H5 H6 H7 H8 H9 H.
  destruct e; unfold fire; cbv zeta;
    rewrite ?component_after_begin; unfold after; simpl component.
  - now apply H1.
  - now apply H2.
  - now apply H3.
  - now apply H4.
  - specialize (H5 selected _ H).
    now destruct (handleFileSelected selected (component p)) as [s [t|[f|]]].
  - destruct (nth_error (reading p) i); [now apply H6 | exact H].
  - now apply H7.
  - now apply H8.
  - now apply H9.
  - now destruct (Hne i o).
Qed.

Lemma fire_keeps_appData (p : Page) (e : Event) :
  (forall i o, e <> Settle i o) ->
  appData (component (fire p e)) = appData (component p).
Proof.
  intros Hne.
  apply (fire_keeps (fun st => appData st = appData (component p)) p e Hne);
    intros;
    first [ reflexivity
          | assumption
          | apply handlePromptInput_preserves
          | apply handlePromptKeydown_preserves
          | apply handleSendMessage_begin_preserves
          | apply handleBuildApp_begin_preserves
          | apply handleFileSelected_preserves
          | apply reader_onload_preserves
          | apply removeAttachment_preserves
          | apply toggleFullscreen_preserves ];
    intros; assumption.
Qed.

Lemma fire_settle_appData (p : Page) (i : nat) (o : Outcome) :
  appData (component (fire p (Settle i o))) = appData (component p)
  \/ exists t v, o = Fulfilled (Some t) /\ JSON_parse (trim t) = Some v
                 /\ appData (component (fire p (Settle i o))) = v.
Proof.
  unfold fire. destruct (nth_error (in_flight p) i) as [k|]; [|now left].
  simpl component. apply resume_appData.
Qed.

(** C4, as the code has it.  [handleSendMessage] tests [appData] for
    truth, not for being non-null.  In every state where [appData] is
    truthy, a message that is sent at all (the component is not busy, and
    there is text or an attachment) goes through
    [handleModificationRequest], whatever it says: a request that is
    issued is the schema-constrained modification request and never the
    clarifying chat.  Every fully populated artifact is truthy.  No event
    other than the settling of a request changes [appData], and a settling
    request leaves it as it is or replaces it by what the text of the
    response parsed to. *)
Theorem C4_truthy_appData_routes_to_modification (st : LimoApp) :
  toBoolean (appData st) = true ->
  sendable st = true ->
  handleSendMessage_begin st
  = handleModificationRequest_begin (trim (currentPrompt st)) st
  /\ route (handleSendMessage_begin st) <> Some ChatPath
  /\ (forall st1 r k,
      handleSendMessage_begin st = (st1, inr (Waiting r k)) ->
      path_of k = ModificationPath
      /\ config r = JsonConfig (lit "application/json")
                      modification_responseSchema)
  /\ (forall v a, as_AppData v = Some a -> toBoolean v = true)
  /\ (forall p e, (forall i o, e <> Settle i o) ->
      appData (component (fire p e)) = appData (component p))
  /\ (forall p i o,
      appData (component (fire p (Settle i o))) = appData (component p)
      \/ exists t v, o = Fulfilled (Some t) /\ JSON_parse (trim t) = Some v
                     /\ appData (component (fire p (Settle i o))) = v).
Proof.
  intros Ht Hs.
  assert (E : handleSendMessage_begin st
              = handleModificationRequest_begin (trim (currentPrompt st)) st).
  { rewrite (handleSendMessage_begin_routes st Hs), Ht. reflexivity. }
  assert (W : forall st1 r k,
             handleSendMessage_begin st = (st1, inr (Waiting r k)) ->
             path_of k = ModificationPath
             /\ config r = JsonConfig (lit "application/json")
                             modification_responseSchema).
  { intros st1 r k Hk. rewrite E in Hk.
    apply handleModificationRequest_begin_pending in Hk as [[ps ->] Hc].
    now split. }
  split; [exact E|]. split; [|split; [exact W|]].
  - unfold route.
    destruct (handleSendMessage_begin st) as [st1 [e|[|r k]]] eqn:Hb;
      simpl; try discriminate.
    destruct (W st1 r k eq_refl) as [-> _]. discriminate.
  - split; [exact as_AppData_truthy|].
    split; [exact fire_keeps_appData | exact fire_settle_appData].
Qed.

End Routing.

(** C4, as the specification words it, fails.  The page above is
    reachable; its [appData] is [false], which is not [null]; the message
    can be sent; and [handleSendMessage] sends it on the clarifying-chat
    path, with the chat system instruction. *)
Lemma C4_non_null_appData_takes_chat_path :
  let st := component falsy_app_page in
  @reachable example_platform example_key falsy_app_page
  /\ appData st = JBool false
  /\ appData st <> JNull
  /\ sendable st = true
  /\ route (@handleSendMessage_begin example_platform st) = Some ChatPath
  /\ match snd (@handleSendMessage_begin example_platform st) with
     | inr (Waiting r _) => config r = ChatConfig chatSystemInstruction
     | _ => False
     end.
Proof.
  split; [|split; [|split; [|split; [|split]]]].
  - apply (@run_reachable example_platform example_key
             (proposal_events ++
              [ BuildClick 2;
                Settle 0 (Fulfilled (Some (lit "false")));
                PromptInput (lit "make the board blue") ])
             (initial example_key)); [constructor | vm_compute; reflexivity].
  - vm_compute. reflexivity.
  - vm_compute. discriminate.
  - vm_compute. reflexivity.
  - vm_compute. reflexivity.
  - vm_compute. reflexivity.
Qed.

(* ================================================================== *)
(** * The preview renderers *)
(* ================================================================== *)

Lemma in_order_embeds (doc : jsstring) (parts : list jsstring) :
  embeds_in_order doc parts -> Forall (embeds doc) parts.
Proof.
  revert doc; induction parts as [|p rest IH]; intros doc; [constructor|].
  intros (b & a & -> & H). constructor.
  - now exists b, a.
  - apply IH in H. rewrite Forall_forall in H |- *. intros q Hq.
    destruct (H q Hq) as (b' & a' & ->).
    exists (b ++ p ++ b'), a'. now rewrite <- !app_assoc.
Qed.

Lemma tok_eqb_eq (a b : tok) : tok_eqb a b = true -> a = b.
Proof.
  destruct a, b; simpl; try discriminate.
  - now intros ->%N.eqb_eq.
  - now intros ->%Nat.eqb_eq.
Qed.

Lemma denote_cons (env : list jsstring) (t : tok) (ts : list tok) :
  denote env (t :: ts) = denote env [t] ++ denote env ts.
Proof.
  destruct t; [reflexivity|].
  destruct ts; simpl; [now rewrite app_nil_r | reflexivity].
Qed.

Lemma strip_sound (env : list jsstring) (p d r : list tok) :
  strip p d = Some r -> denote env d = denote env p ++ denote env r.
Proof.
  revert d; induction p as [|t p IH]; intros d; cbn [strip].
  - now intros [= ->].
  - destruct d as [|t' d]; [discriminate|].
    destruct (tok_eqb t t') eqn:E; [|discriminate].
    apply tok_eqb_eq in E as <-. intros H%IH.
    rewrite (denote_cons env t d), (denote_cons env t p), H.
    now rewrite app_assoc.
Qed.

Lemma find_part_sound (env : list jsstring) (p d r : list tok) :
  find_part p d = Some r ->
  exists before, denote env d = before ++ denote env p ++ denote env r.
Proof.
  induction d as [|t d IH].
  - cbn [find_part]. destruct (strip p []) eqn:E; [|discriminate].
    intros [= ->]. exists []. exact (strip_sound env _ _ _ E).
  - cbn [find_part]. destruct (strip p (t :: d)) eqn:E.
    + intros [= ->]. exists []. exact (strip_sound env _ _ _ E).
    + intros [b Hb]%IH. exists (denote env [t] ++ b).
      now rewrite (denote_cons env t d), Hb, <- app_assoc.
Qed.

Lemma find_in_order_sound (env : list jsstring) (parts : list (list tok))
  (d : list tok) :
  find_in_order parts d = true ->
  embeds_in_order (denote env d) (map (denote env) parts).
Proof.
  revert d; induction parts as [|p rest IH]; intros d; simpl; [trivial|].
  destruct (find_part p d) as [r|] eqn:E; [|discriminate].
  intros H. destruct (find_part_sound env _ _ _ E) as [b Hb].
  exists b, (denote env r). split; [exact Hb | now apply IH].
Qed.

(** Reading a text as a template over the holes [env]. *)
Ltac hole_index x env :=
  lazymatch env with
  | x :: _ => constr:(O)
  | _ :: ?r => let i := hole_index x r in constr:(S i)
  end.

Ltac reify_text env t :=
  lazymatch t with
  | @nil _ => constr:(@nil tok)
  | ?c :: ?r => let r' := reify_text env r in constr:(Ch c :: r')
  | ?x ++ ?r =>
      let i := hole_index x env in
      let r' := reify_text env r in constr:(Hole i :: r')
  | ?x => let i := hole_index x env in constr:([Hole i])
  end.

Ltac reify_texts env l :=
  lazymatch l with
  | @nil _ => constr:(@nil (list tok))
  | ?t :: ?r =>
      let t' := reify_text env t in
      let r' := reify_texts env r in constr:(t' :: r')
  end.

(** Brings a text to the form of characters and variables nested to the
    right, every literal computed. *)
Ltac normalize_text :=
  unfold dq; rewrite <- ?app_assoc;
  repeat match goal with
         | |- context [lit ?s] =>
             let v := eval vm_compute in (lit s) in change (lit s) with v
         end;
  cbn [app].

(** Decides a goal [embeds_in_order doc parts] whose texts are made of
    literals and of the variables [env]. *)
Ltac in_order_tac env :=
  normalize_text;
  lazymatch goal with
  | |- embeds_in_order ?doc ?parts =>
      let d := reify_text env doc in
      let ps := reify_texts env parts in
      change (embeds_in_order (denote env d) (map (denote env) ps));
      apply find_in_order_sound; vm_compute; reflexivity
  end.

Section Rendering.
Context {P : Platform}.

(** What [as_AppData] found, member by member. *)
Lemma as_AppData_inv (v : json) (a : AppData) :
  as_AppData v = Some a ->
  exists ms t c,
    v = JObject ms
    /\ obj_get ms (lit "appName") = Some (JString (appName a))
    /\ obj_get ms (lit "theme") = Some (JObject t)
    /\ obj_get ms (lit "code") = Some (JObject c)
    /\ obj_get t (lit "backgroundColor")
       = Some (JString (backgroundColor (theme a)))
    /\ obj_get t (lit "primaryColor") = Some (JString (primaryColor (theme a)))
    /\ obj_get t (lit "textColor") = Some (JString (textColor (theme a)))
    /\ obj_get t (lit "headerFont") = Some (JString (headerFont (theme a)))
    /\ obj_get t (lit "bodyFont") = Some (JString (bodyFont (theme a)))
    /\ obj_get c (lit "html") = Some (JString (html (code a)))
    /\ obj_get c (lit "css") = Some (JString (css (code a)))
    /\ obj_get c (lit "javascript") = Some (JString (javascript (code a))).
Proof.
  unfold as_AppData, as_members, as_string.
  destruct v as [| | | | |ms]; try discriminate.
  destruct (obj_get ms (lit "appName")) as [[| | |n| |]|] eqn:En;
    try discriminate.
  destruct (obj_get ms (lit "theme")) as [[| | | | |t]|] eqn:Et;
    try discriminate.
  destruct (obj_get ms (lit "code")) as [[| | | | |c]|] eqn:Ec;
    try discriminate.
  destruct (obj_get t (lit "backgroundColor")) as [[| | |x1| |]|] eqn:E1;
    try discriminate.
  destruct (obj_get t (lit "primaryColor")) as [[| | |x2| |]|] eqn:E2;
    try discriminate.
  destruct (obj_get t (lit "textColor")) as [[| | |x3| |]|] eqn:E3;
    try discriminate.
  destruct (obj_get t (lit "headerFont")) as [[| | |x4| |]|] eqn:E4;
    try discriminate.
  destruct (obj_get t (lit "bodyFont")) as [[| | |x5| |]|] eqn:E5;
    try discriminate.
  destruct (obj_get c (lit "html")) as [[| | |x6| |]|] eqn:E6;
    try discriminate.
  destruct (obj_get c (lit "css")) as [[| | |x7| |]|] eqn:E7;
    try discriminate.
  destruct (obj_get c (lit "javascript")) as [[| | |x8| |]|] eqn:E8;
    try discriminate.
  intros [= <-]. exists ms, t, c. simpl. repeat split; assumption.
Qed.

Lemma getIframeContent_document (st : LimoApp) (a : AppData) :
  as_AppData (appData st) = Some a ->
  getIframeContent st = inr (document a).
Proof.
  intros H.
  destruct (as_AppData_inv _ _ H)
    as (ms & t & c & Hv & Hn & Ht & Hc & H1 & H2 & H3 & H4 & H5 & H6 & H7 & H8).
  unfold getIframeContent, interpolate, get, bind. rewrite Hv.
  simpl toBoolean. simpl negb. cbv iota. simpl field_name.
  rewrite Ht, Hc, H1, H2, H3, H4, H5, H6, H7, H8. simpl.
  unfold document, script_element, module_script, classic_script,
    script_open_module, script_open_classic, script_close.
  destruct (includes (javascript (code a)) (lit "import ")); reflexivity.
Qed.

Lemma legacy_getIframeContent_document (v : json) (a : AppData) :
  as_AppData v = Some a ->
  Legacy.getIframeContent v = inr (legacy_document a).
Proof.
  intros H.
  destruct (as_AppData_inv _ _ H)
    as (ms & t & c & Hv & Hn & Ht & Hc & H1 & H2 & H3 & H4 & H5 & H6 & H7 & H8).
  unfold Legacy.getIframeContent, interpolate, get, bind. rewrite Hv.
  simpl toBoolean. simpl negb. cbv iota. simpl field_name.
  rewrite Ht, Hc, H1, H2, H3, H4, H5, H6, H7, H8. reflexivity.
Qed.

Lemma document_in_order (a : AppData) :
  embeds_in_order (document a)
    (document_parts a (script_element (javascript (code a)))).
Proof.
  unfold document, document_parts, script_element, font_link,
    custom_properties, iframe_document, fontUrl_of, baseline_end,
    script_open_module, script_open_classic, script_close.
  destruct (includes (javascript (code a)) (lit "import "));
    generalize (replace_spaces (headerFont (theme a)));
    generalize (replace_spaces (bodyFont (theme a)));
    generalize (headerFont (theme a)); generalize (bodyFont (theme a));
    generalize (backgroundColor (theme a));
    generalize (primaryColor (theme a)); generalize (textColor (theme a));
    generalize (css (code a)); generalize (html (code a));
    generalize (javascript (code a));
    intros x1 x2 x3 x4 x5 x6 x7 x8 x9 x10;
    in_order_tac [x1; x2; x3; x4; x5; x6; x7; x8; x9; x10].
Qed.


Lemma legacy_document_in_order (a : AppData) :
  embeds_in_order (legacy_document a)
    (document_parts a (legacy_script_element (javascript (code a)))).
Proof.
  unfold legacy_document, document_parts, legacy_script_element, font_link,
    custom_properties, Legacy.iframe_document, Legacy.fontUrl_of,
    baseline_end, script_open_classic, script_close.
  generalize (replace_spaces (headerFont (theme a)));
    generalize (replace_spaces (bodyFont (theme a)));
    generalize (headerFont (theme a)); generalize (bodyFont (theme a));
    generalize (backgroundColor (theme a));
    generalize (primaryColor (theme a)); generalize (textColor (theme a));
    generalize (css (code a)); generalize (html (code a));
    generalize (javascript (code a));
    intros x1 x2 x3 x4 x5 x6 x7 x8 x9 x10;
    in_order_tac [x1; x2; x3; x4; x5; x6; x7; x8; x9; x10].
Qed.

(** C8, as the code has it.  Both renderers are functions of [appData]
    alone.  For a fully populated artifact, each produces one document
    that contains, in this order: the font link, whose URL is built from
    the two font names with every space replaced by a plus sign; the five
    custom properties, one per field of the theme; the artifact's CSS,
    right after the fixed baseline stylesheet; the artifact's HTML; and
    the artifact's JavaScript in a script element.  The renderer of the
    chat component makes that element a module script when the code
    contains the text [import ] followed by a space, and a classic script
    otherwise; the renderer of the single-prompt component of
    [src/index.tsx] always makes it a classic script. *)
Theorem C8_preview_renderers (st : LimoApp) (a : AppData) :
  as_AppData (appData st) = Some a ->
  let js := javascript (code a) in
  (getIframeContent st = inr (document a)
   /\ (forall st', appData st' = appData st ->
       getIframeContent st' = getIframeContent st)
   /\ embeds_in_order (document a) (document_parts a (script_element js))
   /\ (includes js (lit "import ") = true ->
       script_element js = script_open_module ++ js ++ script_close)
   /\ (includes js (lit "import ") = false ->
       script_element js = script_open_classic ++ js ++ script_close))
  /\ (Legacy.getIframeContent (appData st) = inr (legacy_document a)
      /\ embeds_in_order (legacy_document a)
           (document_parts a (legacy_script_element js)))
  /\ (forall name,
      In name [headerFont (theme a); bodyFont (theme a)] ->
      length (replace_spaces name) = length name
      /\ ~ In 32%N (replace_spaces name)
      /\ forall i, nth_error (replace_spaces name) i
                   = option_map (fun c => if (c =? 32)%N then 43%N else c)
                       (nth_error name i)).
Proof.
  intros H js. split; [|split].
  - split; [now apply getIframeContent_document|].
    split; [intros st' E; unfold getIframeContent; now rewrite E|].
    split; [apply document_in_order|].
    unfold script_element. split; intros ->; reflexivity.
  - split; [now apply legacy_getIframeContent_document|].
    apply legacy_document_in_order.
  - intros name _. split; [apply replace_spaces_length|].
    split; [apply replace_spaces_no_space | apply replace_spaces_nth].
Qed.

End Rendering.

(** C8, as the specification words it, fails for the renderer of
    [src/index.tsx].  The code of the artifact contains an import
    statement; the document has it in a classic script element and has no
    module script at all. *)
Lemma C8_single_prompt_renderer_has_no_module_script :
  includes (javascript (code importing_app)) (lit "import ") = true
  /\ match @Legacy.getIframeContent example_platform
             (AppData_to_json importing_app) with
     | inr doc =>
         includes doc script_open_module = false
         /\ includes doc
              (legacy_script_element (javascript (code importing_app)))
            = true
     | inl _ => False
     end.
Proof. vm_compute. repeat split. Qed.

(* ================================================================== *)
(** * The Build button after a build *)
(* ================================================================== *)

Lemma build_available_button_at (st : LimoApp) (i : nat) :
  build_available st i
  = negb (apiKeyMissing st) && button_at (displayHistory st) i
    && negb (isLoading st).
Proof. reflexivity. Qed.

Lemma build_button_marked (m : DisplayMessage) :
  build_button (with_buildCompleted m) = false.
Proof. unfold build_button. simpl. apply andb_false_r. Qed.

Lemma button_at_pop (l : list DisplayMessage) (i : nat) :
  button_at l i = false -> button_at (removelast l) i = false.
Proof.
  unfold button_at. intros H.
  destruct (nth_error (removelast l) i) as [m|] eqn:E; [|reflexivity].
  apply nth_error_removelast in E. now rewrite E in H.
Qed.

Lemma button_at_push (l : list DisplayMessage) (m : DisplayMessage) (i : nat) :
  build_button m = false -> button_at l i = false ->
  button_at (l ++ [m]) i = false.
Proof.
  unfold button_at. intros Hm H.
  destruct (Nat.lt_ge_cases i (length l)) as [Hlt|Hge].
  - now rewrite nth_error_app1.
  - rewrite nth_error_app2 by exact Hge.
    destruct (i - length l) as [|[|n]]; simpl; auto.
Qed.

Lemma button_at_push_later (l : list DisplayMessage) (m : DisplayMessage)
  (i : nat) :
  i < length l -> button_at (l ++ [m]) i = button_at l i.
Proof. intros H. unfold button_at. now rewrite nth_error_app1. Qed.

Lemma button_at_mark (l : list DisplayMessage) (i j : nat) :
  button_at l i = false ->
  button_at (mapi (fun index msg =>
                     if index =? j then with_buildCompleted msg else msg) l) i
  = false.
Proof.
  unfold button_at. rewrite nth_error_mapi.
  destruct (nth_error l i) as [m|]; simpl; [|reflexivity].
  destruct (i =? j); [intros _; apply build_button_marked | trivial].
Qed.

Section BuildButton.
Context {P : Platform}.

Ltac no_button_frame :=
  unfold no_button; simpl; intros;
  auto using button_at_pop, button_at_push, button_at_mark.

Lemma handleSendMessage_resume_no_button (i : nat) (h : list HistoryContent)
  (o : Outcome) (st : LimoApp) :
  i < length (displayHistory st) ->
  no_button i st -> no_button i (fst (handleSendMessage_resume h o st)).
Proof.
  unfold no_button. intros Hlt H. destruct o as [e|[t|]].
  - simpl. now apply button_at_pop.
  - unfold handleSendMessage_resume.
    rewrite (try_catch_finally_returns (handleSendMessage_try_reply h t st)).
    simpl. now rewrite button_at_push_later.
  - simpl. now apply button_at_pop.
Qed.

Lemma resume_no_button (i : nat) (k : Pending) (o : Outcome) (st : LimoApp) :
  i < length (displayHistory st) ->
  no_button i st -> no_button i (fst (resume k o st)).
Proof.
  intros Hlt H. destruct k as [h|ps|]; simpl resume.
  - now apply handleSendMessage_resume_no_button.
  - apply handleModificationRequest_resume_preserves;
      try exact H; no_button_frame.
  - apply handleBuildApp_resume_preserves; try exact H; no_button_frame.
Qed.

(** One event never brings a Build button back under an entry the
    transcript has. *)
Lemma fire_no_button (i : nat) (p : Page) (e : Event) :
  i < length (displayHistory (component p)) ->
  no_button i (component p) -> no_button i (component (fire p e)).
Proof.
  intros Hlt H. destruct e as [v|k s| |j|f|j r| | |t|j o].
  10: { unfold fire. destruct (nth_error (in_flight p) j) as [k|];
          [|exact H].
        simpl component. now apply resume_no_button. }
  all: apply (fire_keeps (no_button i) p); try exact H;
    try (intros; discriminate); intros;
    first [ apply handlePromptInput_preserves
          | apply handlePromptKeydown_preserves
          | apply handleSendMessage_begin_preserves
          | apply handleBuildApp_begin_preserves
          | apply handleFileSelected_preserves
          | apply reader_onload_preserves
          | apply removeAttachment_preserves
          | apply toggleFullscreen_preserves
          | idtac ];
    no_button_frame.
Qed.

Lemma fire_all_no_button (i : nat) (es : list Event) (p : Page) :
  no_button i (component p) -> kept i p es ->
  no_button i (component (fire_all p es)).
Proof.
  revert p; induction es as [|e es IH]; intros p H Hk; [exact H|].
  destruct Hk as [Hlt Hk]. simpl. apply IH; [|exact Hk].
  now apply fire_no_button.
Qed.

(** A failing [try] block appends nothing: the transcript only loses
    entries at its end. *)
Lemma handleBuildApp_try_failure (o : Outcome) (e : Thrown) (st : LimoApp) :
  snd (handleBuildApp_try o st) = inl e ->
  displayHistory (fst (handleBuildApp_try o st)) = displayHistory st
  \/ displayHistory (fst (handleBuildApp_try o st))
     = removelast (displayHistory st).
Proof.
  destruct o as [e'|[t|]]; [now left | | now right].
  destruct (JSON_parse (trim t)) as [v|] eqn:E.
  - rewrite (handleBuildApp_try_parsed st t v E).
    destruct (interpolate (Some v) f_appName); [now right | discriminate].
  - rewrite (handleBuildApp_try_malformed st t E). now right.
Qed.

(** C10.  The Build action on the entry at [index] marks that entry as
    built in the state in which the request is issued, whatever the
    request will return.  When the build then fails (its [try] block
    throws), the entry, if the transcript still has it, is still marked,
    so that no Build button is available for it, the error is reported and
    the busy flag cleared; when the request itself was rejected, [appData]
    is what it was.  No handler takes the mark away: as long as the
    transcript keeps the entry, no sequence of events brings a Build button
    back under it. *)
Theorem C10_failed_build_leaves_proposal_built (st : LimoApp) (index : nat)
  (m : DisplayMessage) :
  nth_error (displayHistory st) index = Some m ->
  ai st = true ->
  let st1 := fst (handleBuildApp_begin index st) in
  (exists r, handleBuildApp_begin index st = (st1, inr (Waiting r AwaitBuild)))
  /\ nth_error (displayHistory st1) index = Some (with_buildCompleted m)
  /\ buildCompleted (with_buildCompleted m) = Some true
  /\ (forall o e,
      snd (handleBuildApp_try o st1) = inl e ->
      let st2 := fst (handleBuildApp_resume o st1) in
      (nth_error (displayHistory st2) index = Some (with_buildCompleted m)
       \/ nth_error (displayHistory st2) index = None)
      /\ build_available st2 index = false
      /\ error st2 = Some (handleApiError e)
      /\ isLoading st2 = false)
  /\ (forall e, appData (fst (handleBuildApp index (Rejected e) st))
                = appData st)
  /\ (forall p es,
      button_at (displayHistory (component p)) index = false ->
      kept index p es ->
      button_at (displayHistory (component (fire_all p es))) index = false).
Proof.
  intros Hm Hai st1.
  pose proof (handleBuildApp_begin_state index st Hai) as Hb.
  assert (Hst1 : st1 = fst (handleBuildApp_begin index st)) by reflexivity.
  rewrite Hb in Hst1. simpl in Hst1.
  assert (H1 : nth_error (displayHistory st1) index
               = Some (with_buildCompleted m)).
  { rewrite Hst1. simpl.
    rewrite nth_error_app1.
    - rewrite nth_error_mapi, Hm. simpl. now rewrite Nat.eqb_refl.
    - rewrite length_mapi. apply nth_error_Some. congruence. }
  split; [|split; [exact H1|split; [reflexivity|split; [|split]]]].
  - rewrite Hb. eexists. rewrite <- Hst1. reflexivity.
  - intros o e He st2.
    assert (Hst2 : st2 = failed_in (fst (handleBuildApp_try o st1)) e).
    { unfold st2, handleBuildApp_resume.
      destruct (handleBuildApp_try o st1) as [s c] eqn:Ht.
      simpl in He. subst c. now rewrite (try_catch_finally_throws Ht). }
    assert (Hcases :
      nth_error (displayHistory st2) index = Some (with_buildCompleted m)
      \/ nth_error (displayHistory st2) index = None).
    { rewrite Hst2. simpl.
      destruct (nth_error
                  (removelast
                     (displayHistory (fst (handleBuildApp_try o st1)))) index)
        as [m'|] eqn:E; [left | now right].
      apply nth_error_removelast in E.
      destruct (handleBuildApp_try_failure o e st1 He) as [Hd|Hd];
        rewrite Hd in E.
      - congruence.
      - apply nth_error_removelast in E. congruence. }
    split; [exact Hcases|]. split; [|now rewrite Hst2].
    rewrite build_available_button_at. unfold button_at.
    destruct Hcases as [-> | ->].
    + rewrite build_button_marked. now rewrite andb_false_r.
    + now rewrite andb_false_r.
  - intros e. unfold handleBuildApp.
    rewrite (run_to_end_waiting (Rejected e) Hb), resume_rejected.
    reflexivity.
  - intros p es. apply fire_all_no_button.
Qed.

End BuildButton.

(* ================================================================== *)
(** * What an unchecked response leads to *)
(* ================================================================== *)

(** A modification request answered with the JSON text [null] takes the
    page with an app back to a page without one: the value is assigned
    before its name is read, and reading the name throws. *)
Example appData_returns_to_null :
  @reachable example_platform example_key nulled_page
  /\ toBoolean (appData (component built_page)) = true
  /\ appData (component nulled_page) = JNull
  /\ error (component nulled_page) = Some unexpected_error_message
  /\ isLoading (component nulled_page) = false.
Proof.
  split.
  - apply (@run_reachable example_platform example_key
             (proposal_events ++
              [ BuildClick 2; Settle 0 (Fulfilled (Some example_app_text));
                PromptInput (lit "make the board blue");
                SendClick; Settle 0 (Fulfilled (Some (lit "null"))) ])
             (initial example_key)); [constructor | vm_compute; reflexivity].
  - vm_compute. repeat split.
Qed.

(** Once a partial artifact is stored, a modification request throws
    while it builds its prompt, before its [try] block: the two entries it
    appended stay in the transcript, no request is issued, and the busy
    flag stays set. *)
Example partial_artifact_blocks_modification :
  let p := @fire example_platform partial_app_page
             (PromptInput (lit "make the board blue")) in
  let r := @handleSendMessage_begin example_platform (component p) in
  appData (component p) = JObject []
  /\ enabled p SendClick = true
  /\ snd r = inl (ErrorObject
                    (lit "Cannot read properties of undefined (reading 'html')"))
  /\ isLoading (fst r) = true
  /\ length (displayHistory (fst r)) = length (displayHistory (component p)) + 2
  /\ in_flight (@fire example_platform p SendClick) = [].
Proof. vm_compute. repeat split. Qed.

Section Busy.
Context {P : Platform}.

(** Nothing the user can then do clears the busy flag. *)
Lemma stuck_fire (p : Page) (e : Event) :
  stuck p -> enabled p e = true -> stuck (fire p e).
Proof.
  intros [Hl Hf] He. unfold enabled in He.
  apply andb_true_iff in He as [_ He].
  destruct e as [v|k s| |j|f|j r| | |t|j o]; unfold stuck, fire.
  - rewrite Hl in He. discriminate.
  - rewrite Hl in He. discriminate.
  - unfold send_available in He. rewrite Hl in He. simpl in He.
    now rewrite andb_false_r in He.
  - unfold build_available in He. rewrite Hl in He.
    now rewrite andb_false_r in He.
  - destruct f as [f|]; simpl; [|now split].
    unfold handleFileSelected.
    destruct (negb (startsWith (file_type f) (lit "image/"))
              && negb (startsWith (file_type f) (lit "audio/")));
      simpl; now split.
  - destruct (nth_error (reading p) j); simpl; now split.
  - simpl. now split.
  - simpl. now split.
  - simpl. now split.
  - rewrite Hf in He. now destruct j.
Qed.

Lemma stuck_forever (es : list Event) (p q : Page) :
  stuck p -> run p es = Some q -> stuck q.
Proof.
  revert p; induction es as [|e es IH]; intros p Hp; simpl.
  - now intros [= <-].
  - destruct (enabled p e) eqn:E; [|discriminate].
    apply IH. now apply stuck_fire.
Qed.

End Busy.

(** The page on which a modification of the partial artifact was
    attempted is busy for good. *)
Example partial_artifact_leaves_page_busy :
  let p := @fire_all example_platform partial_app_page
             [ PromptInput (lit "make the board blue"); SendClick ] in
  @reachable example_platform example_key p
  /\ forall es q, @run example_platform p es = Some q ->
                  isLoading (component q) = true.
Proof.
  split.
  - apply (@run_reachable example_platform example_key
             (proposal_events ++
              [ BuildClick 2; Settle 0 (Fulfilled (Some (lit "{}")));
                PromptInput (lit "make the board blue"); SendClick ])
             (initial example_key)); [constructor | vm_compute; reflexivity].
  - intros es q H.
    refine (proj1 (@stuck_forever example_platform es _ q _ H)).
    vm_compute. split; reflexivity.
Qed.

(* ================================================================== *)
(** * The theorems at concrete inputs *)
(* ================================================================== *)

Lemma C1_parsed_response_is_stored_witness :
  JSON_parse (trim (lit "{}")) = Some (JObject [])
  /\ appData (fst (@handleBuildApp_resume example_platform
                     (Fulfilled (Some (lit "{}")))
                     (component proposed_page)))
     = JObject [].
Proof.
  split; [vm_compute; reflexivity|].
  refine (proj1 (proj1 (@C1_parsed_response_is_stored example_platform
            (component proposed_page) (lit "{}") (JObject []) [] 2 _))).
  vm_compute. reflexivity.
Defined.

Lemma C2_malformed_json_keeps_appData_witness :
  JSON_parse (trim (lit "not json")) = None
  /\ appData (fst (@handleModificationRequest example_platform
                     (lit "make the board blue")
                     (Fulfilled (Some (lit "not json")))
                     (component built_page)))
     = appData (component built_page).
Proof.
  split; [vm_compute; reflexivity|].
  refine (proj2 (proj2 (proj2
            (@C2_malformed_json_keeps_appData example_platform
               (component built_page) (lit "not json") []
               (lit "make the board blue") 2 _)))).
  vm_compute. reflexivity.
Defined.

Lemma C4_truthy_appData_routes_to_modification_witness :
  let st := component change_typed_page in
  toBoolean (appData st) = true
  /\ sendable st = true
  /\ @handleSendMessage_begin example_platform st
     = @handleModificationRequest_begin example_platform
         (trim (currentPrompt st)) st.
Proof.
  split; [vm_compute; reflexivity|]. split; [vm_compute; reflexivity|].
  refine (proj1 (@C4_truthy_appData_routes_to_modification example_platform
            (component change_typed_page) _ _));
    vm_compute; reflexivity.
Defined.

Lemma C6_send_while_busy_is_noop_witness :
  let st := component asked_page in
  isLoading st = true
  /\ @handleSendMessage_begin example_platform st = (st, inr Returned).
Proof.
  split; [vm_compute; reflexivity|].
  refine (proj1 (@C6_send_while_busy_is_noop example_platform
            (component asked_page) _)).
  vm_compute. reflexivity.
Defined.

Lemma C7_error_classifier_witness :
  let e := ErrorObject (lit "Got 429 Too Many Requests") in
  @rate_limited example_platform e = true
  /\ @handleApiError example_platform e = service_busy_message.
Proof.
  split; [vm_compute; reflexivity|].
  refine (proj1 (@C7_error_classifier example_platform
            (ErrorObject (lit "Got 429 Too Many Requests"))) _).
  vm_compute. reflexivity.
Defined.

Lemma C8_preview_renderers_witness :
  let st := component built_page in
  as_AppData (appData st) = Some example_app
  /\ @getIframeContent example_platform st = inr (document example_app).
Proof.
  split; [vm_compute; reflexivity|].
  refine (proj1 (proj1 (@C8_preview_renderers example_platform
            (component built_page) example_app _))).
  vm_compute. reflexivity.
Defined.

Lemma C9_attachment_validation_witness :
  let st := component proposed_page in
  startsWith (file_type pdf_file) (lit "image/") = false
  /\ startsWith (file_type pdf_file) (lit "audio/") = false
  /\ handleFileSelected (Some pdf_file) st
     = (set_error (Some unsupported_file_type) st, inr None).
Proof.
  split; [vm_compute; reflexivity|]. split; [vm_compute; reflexivity|].
  refine (proj1 (proj1 (@C9_attachment_validation example_platform
            (component proposed_page) pdf_file) _ _));
    vm_compute; reflexivity.
Defined.

Lemma C10_failed_build_leaves_proposal_built_witness :
  let st := component proposed_page in
  nth_error (displayHistory st) 2 = Some proposal_message
  /\ ai st = true
  /\ nth_error
       (displayHistory (fst (@handleBuildApp_begin example_platform 2 st))) 2
     = Some (with_buildCompleted proposal_message).
Proof.
  split; [vm_compute; reflexivity|]. split; [vm_compute; reflexivity|].
  refine (proj1 (proj2 (@C10_failed_build_leaves_proposal_built
            example_platform (component proposed_page) 2 proposal_message
            _ _)));
    vm_compute; reflexivity.
Defined.

(* ================================================================== *)
(** * Texts: emphasis and data URLs *)
(* ================================================================== *)

Section TextFacts.

Lemma free_of_app (bad : code_unit -> bool) (s t : jsstring) :
  free_of bad (s ++ t) = free_of bad s && free_of bad t.
Proof. apply forallb_app. Qed.

Lemma startsWith_cons (c d : code_unit) (s p : jsstring) :
  startsWith (d :: s) (c :: p) = (c =? d)%N && startsWith s p.
Proof. reflexivity. Qed.

Lemma startsWith_nil (s : jsstring) : startsWith s [] = true.
Proof. now destruct s. Qed.

(** ** Emphasis *)

Lemma no_asterisk_no_start (c : code_unit) (r : jsstring) :
  is_asterisk c = false -> startsWith (c :: r) two_asterisks = false.
Proof.
  unfold is_asterisk, two_asterisks. intros H.
  rewrite startsWith_cons, N.eqb_sym, H. reflexivity.
Qed.

Lemma lazy_to_asterisks_eq (s : jsstring) :
  lazy_to_asterisks s =
  match s with
  | [] => None
  | c :: r =>
      if startsWith s two_asterisks then Some ([], skipn 2 s)
      else if isLineTerminator c then None
      else match lazy_to_asterisks r with
           | Some (run, rest) => Some (c :: run, rest)
           | None => None
           end
  end.
Proof. destruct s; reflexivity. Qed.

Lemma replace_emphasis_eq (n : nat) (s : jsstring) :
  replace_emphasis (S n) s =
  match s with
  | [] => []
  | c :: r =>
      if startsWith s two_asterisks then
        match lazy_to_asterisks (skipn 2 s) with
        | Some (run, rest) =>
            lit "<strong>" ++ run ++ lit "</strong>"
            ++ replace_emphasis n rest
        | None => c :: replace_emphasis n r
        end
      else c :: replace_emphasis n r
  end.
Proof. reflexivity. Qed.

(** The closing asterisks are found after a run free of asterisks and of
    line terminators. *)
Lemma lazy_to_asterisks_run (x b : jsstring) :
  free_of is_asterisk x = true ->
  free_of isLineTerminator x = true ->
  lazy_to_asterisks (x ++ two_asterisks ++ b) = Some (x, b).
Proof.
  induction x as [|c x IH]; intros Ha Hl.
  - change ([] ++ two_asterisks ++ b) with (42%N :: 42%N :: b).
    rewrite lazy_to_asterisks_eq. unfold two_asterisks.
    now rewrite !startsWith_cons, startsWith_nil.
  - simpl in Ha, Hl. apply andb_true_iff in Ha as [Hc Ha].
    apply andb_true_iff in Hl as [Hlc Hl].
    apply negb_true_iff in Hc, Hlc.
    rewrite <- app_comm_cons, lazy_to_asterisks_eq.
    rewrite (no_asterisk_no_start _ _ Hc), Hlc, (IH Ha Hl). reflexivity.
Qed.

Lemma lazy_to_asterisks_shorter (s run rest : jsstring) :
  lazy_to_asterisks s = Some (run, rest) -> length rest < length s.
Proof.
  revert run; induction s as [|c s IH]; intros run;
    rewrite lazy_to_asterisks_eq; [discriminate|].
  destruct (startsWith (c :: s) two_asterisks) eqn:E.
  - intros [= <- <-]. apply startsWith_iff in E as [r Hr].
    rewrite Hr. unfold two_asterisks, skipn. simpl. lia.
  - destruct (isLineTerminator c); [discriminate|].
    destruct (lazy_to_asterisks s) as [[g r]|] eqn:El; [|discriminate].
    intros [= <- <-]. specialize (IH g eq_refl). simpl. lia.
Qed.

Lemma skipn_2_shorter (s : jsstring) : length (skipn 2 s) <= length s.
Proof. rewrite length_skipn. lia. Qed.

(** The length of the text is fuel enough. *)
Lemma replace_emphasis_enough (n m : nat) (s : jsstring) :
  length s <= n -> length s <= m ->
  replace_emphasis n s = replace_emphasis m s.
Proof.
  revert m s; induction n as [|n IH]; intros m s Hn Hm.
  - destruct s; [|simpl in Hn; lia]. now destruct m.
  - destruct m as [|m]; [destruct s; [reflexivity | simpl in Hm; lia]|].
    rewrite !replace_emphasis_eq. destruct s as [|c r]; [reflexivity|].
    simpl in Hn, Hm.
    assert (Hr : replace_emphasis n r = replace_emphasis m r)
      by (apply IH; lia).
    destruct (startsWith (c :: r) two_asterisks); [|now rewrite Hr].
    destruct (lazy_to_asterisks (skipn 2 (c :: r))) as [[run rest]|] eqn:E;
      [|now rewrite Hr].
    apply lazy_to_asterisks_shorter in E.
    pose proof (skipn_2_shorter (c :: r)) as Hs. simpl in Hs.
    rewrite (IH m rest); [reflexivity | lia | lia].
Qed.

Lemma replace_emphasis_prefix (n : nat) (a t : jsstring) :
  free_of is_asterisk a = true ->
  replace_emphasis n (a ++ t) = a ++ replace_emphasis (n - length a) t.
Proof.
  revert n; induction a as [|c a IH]; intros n Ha.
  - simpl. now rewrite Nat.sub_0_r.
  - simpl in Ha. apply andb_true_iff in Ha as [Hc Ha].
    apply negb_true_iff in Hc.
    destruct n as [|n]; [reflexivity|].
    rewrite <- app_comm_cons, replace_emphasis_eq.
    rewrite (no_asterisk_no_start _ _ Hc), (IH n Ha). reflexivity.
Qed.

Lemma includes_cons_false (c : code_unit) (s p : jsstring) :
  includes (c :: s) p = false ->
  startsWith (c :: s) p = false /\ includes s p = false.
Proof.
  unfold includes. rewrite (indexOf_eq (c :: s)).
  destruct (startsWith (c :: s) p); [discriminate|].
  destruct (indexOf s p); [discriminate|]. now split.
Qed.

Lemma replace_emphasis_unmarked (n : nat) (s : jsstring) :
  includes s two_asterisks = false -> replace_emphasis n s = s.
Proof.
  revert s; induction n as [|n IH]; intros s H; [reflexivity|].
  rewrite replace_emphasis_eq. destruct s as [|c r]; [reflexivity|].
  apply includes_cons_false in H as [H1 H2].
  now rewrite H1, (IH r H2).
Qed.

Lemma lazy_to_asterisks_unmarked (s : jsstring) :
  includes s two_asterisks = false -> lazy_to_asterisks s = None.
Proof.
  induction s as [|c s IH]; intros H; [reflexivity|].
  apply includes_cons_false in H as [H1 H2].
  rewrite lazy_to_asterisks_eq, H1, (IH H2).
  now destruct (isLineTerminator c).
Qed.

(** A line terminator before any asterisk ends the search for the
    closing asterisks. *)
Lemma lazy_to_asterisks_line_end (x t : jsstring) (nl : code_unit) :
  free_of is_asterisk x = true ->
  isLineTerminator nl = true ->
  lazy_to_asterisks (x ++ nl :: t) = None.
Proof.
  intros Ha Hnl.
  assert (Hno : is_asterisk nl = false).
  { unfold isLineTerminator in Hnl. unfold is_asterisk.
    apply N.eqb_neq. intros ->. discriminate. }
  induction x as [|c x IH].
  - simpl. rewrite lazy_to_asterisks_eq, (no_asterisk_no_start _ _ Hno), Hnl.
    reflexivity.
  - simpl in Ha. apply andb_true_iff in Ha as [Hc Ha].
    apply negb_true_iff in Hc.
    rewrite <- app_comm_cons, lazy_to_asterisks_eq.
    rewrite (no_asterisk_no_start _ _ Hc), (IH Ha).
    now destruct (isLineTerminator c).
Qed.

Lemma one_asterisk_no_start (t : jsstring) :
  match t with c :: _ => is_asterisk c = false | [] => True end ->
  startsWith (42%N :: t) two_asterisks = false.
Proof.
  unfold two_asterisks. rewrite startsWith_cons. simpl.
  destruct t as [|c t]; [reflexivity|].
  intros H. rewrite startsWith_cons. unfold is_asterisk in H.
  now rewrite N.eqb_sym, H.
Qed.

Lemma free_of_asterisk_unmarked (s : jsstring) :
  free_of is_asterisk s = true -> includes s two_asterisks = false.
Proof.
  induction s as [|c s IH]; intros H; [reflexivity|].
  simpl in H. apply andb_true_iff in H as [Hc H].
  apply negb_true_iff in Hc.
  unfold includes. rewrite indexOf_eq, (no_asterisk_no_start _ _ Hc).
  specialize (IH H). unfold includes in IH.
  now destruct (indexOf s two_asterisks).
Qed.

(** X16.  A message text in which no two asterisks follow each other
    reaches the page as it is: [render] inserts it as markup with nothing
    replaced and nothing escaped. *)
Theorem unmarked_text_is_inserted_as_is (loading : bool) (index : nat)
  (msg : DisplayMessage) :
  includes (text msg) two_asterisks = false ->
  bubble_markup (render_message loading index msg) = text msg.
Proof.
  intros H. unfold render_message, emphasis_markup. simpl.
  now apply replace_emphasis_unmarked.
Qed.

(** The replacement at a span, with any fuel that is enough. *)
Lemma replace_emphasis_span (n : nat) (a x b : jsstring) :
  free_of is_asterisk a = true ->
  free_of is_asterisk x = true ->
  free_of isLineTerminator x = true ->
  length (a ++ two_asterisks ++ x ++ two_asterisks ++ b) <= n ->
  replace_emphasis n (a ++ two_asterisks ++ x ++ two_asterisks ++ b)
  = a ++ lit "<strong>" ++ x ++ lit "</strong>" ++ emphasis_markup b.
Proof.
  intros Ha Hx Hl Hn. unfold emphasis_markup.
  rewrite (replace_emphasis_prefix _ _ _ Ha). f_equal.
  set (t := x ++ two_asterisks ++ b) in *.
  change (two_asterisks ++ t) with (42%N :: 42%N :: t) in *.
  rewrite length_app in Hn. cbn [length] in Hn.
  destruct (n - length a) as [|m] eqn:Em; [lia|].
  rewrite replace_emphasis_eq.
  change (startsWith (42%N :: 42%N :: t) two_asterisks)
    with ((42 =? 42)%N && ((42 =? 42)%N && startsWith t [])).
  rewrite startsWith_nil.
  change (skipn 2 (42%N :: 42%N :: t)) with t. simpl andb. cbv iota.
  unfold t in *. rewrite (lazy_to_asterisks_run _ _ Hx Hl).
  do 3 f_equal. apply replace_emphasis_enough; [|lia].
  rewrite !length_app in Hn. cbn [length two_asterisks] in Hn. lia.
Qed.

(** X17.  A run between two pairs of asterisks becomes the run between
    [<strong>] and [</strong>], and the replacement goes on with the text
    after the closing pair: this holds when the text before the opening
    pair and the run contain no asterisk and the run contains no line
    terminator. *)
Theorem emphasis_of_a_span (a x b : jsstring) :
  free_of is_asterisk a = true ->
  free_of is_asterisk x = true ->
  free_of isLineTerminator x = true ->
  emphasis_markup (a ++ two_asterisks ++ x ++ two_asterisks ++ b)
  = a ++ lit "<strong>" ++ x ++ lit "</strong>" ++ emphasis_markup b.
Proof.
  intros Ha Hx Hl. unfold emphasis_markup at 1.
  now apply replace_emphasis_span.
Qed.

(** X19.  A pair of asterisks whose closing pair is on a later line is
    not an emphasis: the text is inserted as typed. *)
Theorem emphasis_does_not_span_lines (a x y b : jsstring) (nl : code_unit) :
  isLineTerminator nl = true ->
  free_of is_asterisk a = true ->
  free_of is_asterisk x = true ->
  free_of is_asterisk y = true ->
  free_of is_asterisk b = true ->
  let text :=
    a ++ two_asterisks ++ x ++ nl :: y ++ two_asterisks ++ b in
  emphasis_markup text = text.
Proof.
  intros Hnl Ha Hx Hy Hb text. subst text. unfold emphasis_markup.
  assert (Hno : is_asterisk nl = false).
  { unfold isLineTerminator in Hnl. unfold is_asterisk.
    apply N.eqb_neq. intros ->. discriminate. }
  (* the tail: a pair of asterisks with nothing to close it *)
  assert (Htail : forall n, replace_emphasis n (two_asterisks ++ b)
                            = two_asterisks ++ b).
  { intros n. change (two_asterisks ++ b) with (42%N :: 42%N :: b).
    destruct n as [|n]; [reflexivity|]. rewrite replace_emphasis_eq.
    change (skipn 2 (42%N :: 42%N :: b)) with b.
    rewrite (lazy_to_asterisks_unmarked b (free_of_asterisk_unmarked b Hb)).
    assert (E : replace_emphasis n (42%N :: b) = 42%N :: b).
    { destruct n as [|n]; [reflexivity|]. rewrite replace_emphasis_eq.
      rewrite one_asterisk_no_start.
      - now rewrite (replace_emphasis_unmarked n b
                       (free_of_asterisk_unmarked b Hb)).
      - destruct b as [|c b]; [exact I|]. simpl in Hb.
        apply andb_true_iff in Hb as [Hc _]. now apply negb_true_iff in Hc. }
    rewrite E. now destruct (startsWith _ _). }
  (* the middle: the run, the line terminator and the next line *)
  assert (Hmid : forall n, replace_emphasis n
                   (x ++ nl :: y ++ two_asterisks ++ b)
                 = x ++ nl :: y ++ two_asterisks ++ b).
  { intros n.
    replace (x ++ nl :: y ++ two_asterisks ++ b)
      with ((x ++ nl :: y) ++ two_asterisks ++ b)
      by (now rewrite <- app_assoc).
    rewrite replace_emphasis_prefix, Htail; [reflexivity|].
    rewrite free_of_app, Hx. simpl. now rewrite Hno, Hy. }
  rewrite (replace_emphasis_prefix _ _ _ Ha). f_equal.
  set (t := x ++ nl :: y ++ two_asterisks ++ b) in *.
  set (n := _ - _). clearbody n.
  change (two_asterisks ++ t) with (42%N :: 42%N :: t).
  destruct n as [|n]; [reflexivity|]. rewrite replace_emphasis_eq.
  change (skipn 2 (42%N :: 42%N :: t)) with t.
  assert (El : lazy_to_asterisks t = None)
    by (apply lazy_to_asterisks_line_end; assumption).
  rewrite El.
  assert (E : replace_emphasis n (42%N :: t) = 42%N :: t).
  { destruct n as [|n]; [reflexivity|]. rewrite replace_emphasis_eq.
    rewrite one_asterisk_no_start, Hmid; [reflexivity|].
    unfold t. destruct x as [|c x]; [exact Hno|]. simpl in Hx.
    apply andb_true_iff in Hx as [Hc _]. now apply negb_true_iff in Hc. }
  rewrite E. now destruct (startsWith _ _).
Qed.

(** ** Data URLs *)

Lemma split_on_comma (h t : jsstring) :
  free_of is_comma h = true ->
  split_on 44%N (h ++ 44%N :: t) = h :: split_on 44%N t.
Proof.
  induction h as [|c h IH]; intros H.
  - reflexivity.
  - simpl in H. apply andb_true_iff in H as [Hc H].
    apply negb_true_iff in Hc. unfold is_comma in Hc.
    simpl. now rewrite Hc, (IH H).
Qed.

Lemma split_on_no_comma (s : jsstring) :
  free_of is_comma s = true -> split_on 44%N s = [s].
Proof.
  induction s as [|c s IH]; intros H; [reflexivity|].
  simpl in H. apply andb_true_iff in H as [Hc H].
  apply negb_true_iff in Hc. unfold is_comma in Hc.
  simpl. now rewrite Hc, (IH H).
Qed.

Lemma lazy_to_semicolon_run (m t : jsstring) :
  free_of is_semicolon m = true ->
  free_of isLineTerminator m = true ->
  lazy_to_semicolon (m ++ 59%N :: t) = Some m.
Proof.
  induction m as [|c m IH]; intros Hs Hl; [reflexivity|].
  simpl in Hs, Hl. apply andb_true_iff in Hs as [Hc Hs].
  apply andb_true_iff in Hl as [Hlc Hl].
  apply negb_true_iff in Hc, Hlc. unfold is_semicolon in Hc.
  simpl. now rewrite Hc, Hlc, (IH Hs Hl).
Qed.

Lemma lazy_to_semicolon_none (s : jsstring) :
  free_of is_semicolon s = true -> lazy_to_semicolon s = None.
Proof.
  induction s as [|c s IH]; intros H; [reflexivity|].
  simpl in H. apply andb_true_iff in H as [Hc H].
  apply negb_true_iff in Hc. unfold is_semicolon in Hc.
  simpl. rewrite Hc, (IH H). now destruct (isLineTerminator c).
Qed.

Lemma match_colon_semicolon_none (s : jsstring) :
  free_of is_semicolon s = true -> match_colon_semicolon s = None.
Proof.
  induction s as [|c s IH]; intros H; [reflexivity|].
  simpl in H. apply andb_true_iff in H as [Hc H].
  simpl. rewrite (lazy_to_semicolon_none s H), (IH H).
  now destruct (c =? 58)%N.
Qed.

(** The first piece of a split is made of code units of the text. *)
Lemma free_of_first_piece (bad : code_unit -> bool) (s : jsstring) :
  free_of bad s = true -> free_of bad (hd [] (split_on 44%N s)) = true.
Proof.
  induction s as [|c s IH]; intros H; [reflexivity|].
  simpl in H. apply andb_true_iff in H as [Hc H]. specialize (IH H).
  simpl. destruct (c =? 44)%N; [reflexivity|].
  destruct (split_on 44%N s) as [|h t]; simpl in *.
  - now rewrite Hc.
  - now rewrite Hc, IH.
Qed.

Lemma data_url_pieces (mime payload : jsstring) :
  free_of is_comma mime = true ->
  split_on 44%N (data_url mime payload)
  = (lit "data:" ++ mime ++ lit ";base64") :: split_on 44%N payload.
Proof.
  intros H. unfold data_url.
  replace (lit "data:" ++ mime ++ lit ";base64," ++ payload)
    with ((lit "data:" ++ mime ++ lit ";base64") ++ 44%N :: payload).
  - apply split_on_comma. rewrite !free_of_app, H. reflexivity.
  - rewrite <- !app_assoc. reflexivity.
Qed.

(** X3.  The data URL of an attachment is taken apart again into what it
    was made of: for the URL [data:MIME;base64,DATA] the part sent to the
    model has MIME as its type and DATA as its data, whatever type the
    file itself reports.  MIME is not empty and contains no comma, no
    semicolon and no line terminator; DATA contains no comma. *)
Theorem inline_part_of_data_url (a : Attachment) (mime payload : jsstring) :
  dataUrl a = data_url mime payload ->
  mime <> [] ->
  free_of is_comma mime = true ->
  free_of is_semicolon mime = true ->
  free_of isLineTerminator mime = true ->
  free_of is_comma payload = true ->
  inline_part a = inline_data_part mime (Some payload)
  /\ user_parts [] (Some a) = [inline_data_part mime (Some payload)]
  /\ forall t, t <> [] ->
       user_parts t (Some a)
       = [inline_data_part mime (Some payload); text_part t].
Proof.
  intros Hurl Hne Hc Hs Hl Hp.
  assert (E : inline_part a = inline_data_part mime (Some payload)).
  { unfold inline_part, inline_data_part.
    rewrite Hurl, (data_url_pieces _ _ Hc), (split_on_no_comma _ Hp).
    cbn [hd nth_error].
    change (lit "data:" ++ mime ++ lit ";base64")
      with (100%N :: 97%N :: 116%N :: 97%N :: 58%N
            :: mime ++ 59%N :: lit "base64").
    cbn [match_colon_semicolon N.eqb Pos.eqb].
    rewrite (lazy_to_semicolon_run _ _ Hs Hl).
    destruct mime; [contradiction|reflexivity]. }
  split; [exact E|]. unfold user_parts. rewrite E. split; [reflexivity|].
  intros [|c t] Ht; [contradiction|reflexivity].
Qed.

(** X4.  What the part falls back on.  When the data URL contains no
    semicolon, or names no type between its colon and its semicolon, the
    type the file reports is sent; when the URL contains no comma, the
    part is sent without data. *)
Theorem inline_part_fallbacks (a : Attachment) :
  (free_of is_semicolon (dataUrl a) = true ->
   option_map mimeType (inlineData (inline_part a))
   = Some (file_type (file a)))
  /\ (forall payload,
        dataUrl a = data_url [] payload ->
        option_map mimeType (inlineData (inline_part a))
        = Some (file_type (file a)))
  /\ (free_of is_comma (dataUrl a) = true ->
      option_map data (inlineData (inline_part a)) = Some None).
Proof.
  split; [|split].
  - intros H. unfold inline_part. cbn [inlineData option_map mimeType].
    now rewrite (match_colon_semicolon_none _ (free_of_first_piece _ _ H)).
  - intros payload Hurl. unfold inline_part.
    cbn [inlineData option_map mimeType].
    rewrite Hurl, (data_url_pieces [] payload eq_refl). reflexivity.
  - intros H. unfold inline_part. cbn [inlineData option_map data].
    now rewrite (split_on_no_comma _ H).
Qed.

End TextFacts.

(* ================================================================== *)
(** * Sending, modifying and building: what each operation leaves *)
(* ================================================================== *)

Section Operations.
Context {P : Platform}.

Lemma send_available_sendable (st : LimoApp) :
  apiKeyMissing st = false -> send_available st = sendable st.
Proof.
  intros H. unfold send_available, sendable. rewrite H. simpl.
  now rewrite orb_comm.
Qed.

(** The state in which the chat request is issued. *)
Lemma handleSendMessage_begin_chat (st : LimoApp) :
  sendable st = true -> toBoolean (appData st) = false -> ai st = true ->
  let turn := {| role := role_user;
                 parts := user_parts (trim (currentPrompt st))
                            (attachment st) |} in
  handleSendMessage_begin st
  = (set_attachment None
       (set_displayHistory
          (displayHistory st ++
           [user_message (trim (currentPrompt st)) (attachment st)])
          (set_currentPrompt []
             (set_error None (set_isLoading true st)))),
     inr (Waiting
            {| model := model_name;
               contents := history st ++ [turn];
               config := ChatConfig chatSystemInstruction |}
            (AwaitChat (history st ++ [turn])))).
Proof.
  intros Hs Ha Hai. cbv zeta.
  rewrite (handleSendMessage_begin_routes st Hs), Ha.
  unfold generateContent, seq, this, ret. simpl. now rewrite Hai.
Qed.

(** X2.  The Enter key without Shift is the Send button; any other key,
    and Enter with Shift, does nothing.  The guard of [handleSendMessage]
    refuses in exactly the states in which [render] disables the Send
    button: there it changes nothing and issues no request, and in
    every other state the component becomes busy. *)
Theorem send_guard_is_the_button_condition (st : LimoApp) :
  apiKeyMissing st = false ->
  (send_available st = false ->
   handleSendMessage_begin st = (st, inr Returned))
  /\ (send_available st = true -> ai st = true ->
      isLoading (fst (handleSendMessage_begin st)) = true)
  /\ handlePromptKeydown (lit "Enter") false st = handleSendMessage_begin st
  /\ (forall key, handlePromptKeydown key true st = (st, inr Returned))
  /\ (forall key shift,
        jsstring_eqb key (lit "Enter") = false ->
        handlePromptKeydown key shift st = (st, inr Returned)).
Proof.
  intros Hk. rewrite (send_available_sendable st Hk).
  split; [|split; [|split; [|split]]].
  - unfold sendable. intros H. apply negb_false_iff in H.
    cbv beta iota zeta delta [handleSendMessage_begin seq this ret].
    now rewrite H.
  - intros Hs Hai. rewrite (handleSendMessage_begin_routes st Hs).
    destruct (toBoolean (appData st)) eqn:Ha.
    + cbv beta iota zeta delta [handleModificationRequest_begin
        generateContent seq assign this displayHistory_push ret lift].
      simpl. rewrite Ha. simpl.
      match goal with |- context [bind ?c ?k] => destruct (bind c k) end;
        simpl; [reflexivity|].
      now rewrite Hai.
    + unfold generateContent, seq, this, ret. simpl. now rewrite Hai.
  - reflexivity.
  - intros key. unfold handlePromptKeydown. simpl negb.
    now rewrite andb_false_r.
  - intros key shift H. unfold handlePromptKeydown. now rewrite H.
Qed.

(** The state a chat message that is answered leaves. *)
Lemma handleSendMessage_answered (st : LimoApp) (reply : jsstring) :
  sendable st = true -> toBoolean (appData st) = false -> ai st = true ->
  let t := trim (currentPrompt st) in
  fst (handleSendMessage (Fulfilled (Some reply)) st)
  = set_isLoading false
      (set_history
         ((history st
           ++ [ {| role := role_user;
                   parts := user_parts t (attachment st) |} ])
          ++ [ {| role := role_model;
                  parts := [text_part (text (reply_message reply))] |} ])
         (set_displayHistory
            ((displayHistory st ++ [user_message t (attachment st)])
             ++ [reply_message reply])
            (set_attachment None
               (set_currentPrompt []
                  (set_error None (set_isLoading true st)))))).
Proof.
  intros Hs Ha Hai t.
  pose proof (handleSendMessage_begin_chat st Hs Ha Hai) as Hb.
  cbv zeta in Hb. unfold handleSendMessage.
  rewrite (run_to_end_waiting _ Hb). simpl resume.
  unfold handleSendMessage_resume.
  now rewrite (try_catch_finally_returns (handleSendMessage_try_reply _ _ _)).
Qed.

(** X5.  A message sent in the clarifying chat and answered: the request
    carries the saved conversation followed by the new user turn; the
    transcript gains the user's message and the reply, the saved
    conversation gains the user turn and the model turn with the reply
    as displayed; the input line and the attachment are cleared, no error
    is shown, the component is idle again and [appData] is untouched. *)
Theorem answered_send_appends_both_turns (st : LimoApp) (reply : jsstring) :
  sendable st = true -> toBoolean (appData st) = false -> ai st = true ->
  let t := trim (currentPrompt st) in
  let turn := {| role := role_user; parts := user_parts t (attachment st) |} in
  let st' := fst (handleSendMessage (Fulfilled (Some reply)) st) in
  (exists st1,
     handleSendMessage_begin st
     = (st1, inr (Waiting
                    {| model := model_name;
                       contents := history st ++ [turn];
                       config := ChatConfig chatSystemInstruction |}
                    (AwaitChat (history st ++ [turn])))))
  /\ displayHistory st'
     = displayHistory st ++ [user_message t (attachment st);
                             reply_message reply]
  /\ history st'
     = history st
       ++ [turn;
           {| role := role_model;
              parts := [text_part (text (reply_message reply))] |}]
  /\ currentPrompt st' = [] /\ attachment st' = None
  /\ error st' = None /\ isLoading st' = false
  /\ appData st' = appData st.
Proof.
  intros Hs Ha Hai t turn st'.
  pose proof (handleSendMessage_begin_chat st Hs Ha Hai) as Hb.
  cbv zeta in Hb. fold t in Hb. fold turn in Hb.
  split; [eexists; exact Hb|].
  subst st'. rewrite (handleSendMessage_answered st reply Hs Ha Hai).
  simpl. rewrite <- !app_assoc. repeat split.
Qed.

Lemma nth_error_two_more {A} (l : list A) (x y : A) :
  nth_error ((l ++ [x]) ++ [y]) (length l) = Some x
  /\ nth_error ((l ++ [x]) ++ [y]) (S (length l)) = Some y.
Proof.
  rewrite <- app_assoc. split.
  - rewrite nth_error_app2 by lia. now rewrite Nat.sub_diag.
  - rewrite nth_error_app2 by lia.
    now replace (S (length l) - length l) with 1 by lia.
Qed.

(** X28.  The Build button is offered under a reply exactly when the
    trimmed reply ends with the token: after a chat message is answered,
    the button under the new reply is available if and only if the reply
    proposes a build, and no button is shown under the user's message. *)
Theorem build_is_offered_for_marked_replies (st : LimoApp)
  (reply : jsstring) :
  apiKeyMissing st = false ->
  sendable st = true -> toBoolean (appData st) = false -> ai st = true ->
  let st' := fst (handleSendMessage (Fulfilled (Some reply)) st) in
  let n := length (displayHistory st) in
  build_available st' (S n) = endsWith (trim reply) BUILD_PROPOSAL_TOKEN
  /\ build_available st' n = false
  /\ length (displayHistory st') = S (S n).
Proof.
  intros Hk Hs Ha Hai st' n. subst st' n.
  rewrite (handleSendMessage_answered st reply Hs Ha Hai).
  rewrite !build_available_button_at.
  cbn [apiKeyMissing isLoading displayHistory set_isLoading set_history
       set_displayHistory set_attachment set_currentPrompt set_error].
  rewrite Hk. unfold button_at.
  destruct (nth_error_two_more (displayHistory st)
              (user_message (trim (currentPrompt st)) (attachment st))
              (reply_message reply)) as [-> ->].
  split; [|split].
  - unfold build_button, reply_message. cbn.
    destruct (endsWith (trim reply) BUILD_PROPOSAL_TOKEN); reflexivity.
  - reflexivity.
  - rewrite !length_app. simpl. lia.
Qed.

(** X6.  A message sent in the clarifying chat that fails, because the
    request is rejected or because the response carries no text: the
    transcript and the saved conversation are exactly what they were
    before the send, the error is the classified message and the
    component is idle; the text that was typed and the attachment are
    not put back. *)
Theorem failed_send_restores_transcript_not_input (st : LimoApp)
  (o : Outcome) (e : Thrown) :
  sendable st = true -> toBoolean (appData st) = false -> ai st = true ->
  o = Rejected e
  \/ (o = Fulfilled None
      /\ e = ErrorObject
               (engine_message (ReadOfNullish false (lit "trim")))) ->
  let st' := fst (handleSendMessage o st) in
  displayHistory st' = displayHistory st
  /\ history st' = history st
  /\ appData st' = appData st
  /\ error st' = Some (handleApiError e)
  /\ isLoading st' = false
  /\ currentPrompt st' = [] /\ attachment st' = None.
Proof.
  intros Hs Ha Hai Ho st'. subst st'.
  pose proof (handleSendMessage_begin_chat st Hs Ha Hai) as Hb.
  cbv zeta in Hb. unfold handleSendMessage.
  rewrite (run_to_end_waiting _ Hb). simpl resume.
  destruct Ho as [->|[-> ->]].
  - unfold handleSendMessage_resume.
    rewrite (@try_catch_finally_throws _ _ _ _ e eq_refl).
    simpl. rewrite removelast_snoc. repeat split.
  - unfold handleSendMessage_resume.
    erewrite try_catch_finally_throws by reflexivity.
    simpl. rewrite removelast_snoc. repeat split.
Qed.

(** ** Modification *)

Lemma source_of_app (v : json) (a : AppData) (m : jsstring) :
  as_AppData v = Some a ->
  (let! c := get (Some v) f_code in
   let! html := interpolate c f_html in
   let! c := get (Some v) f_code in
   let! css := interpolate c f_css in
   let! c := get (Some v) f_code in
   let! javascript := interpolate c f_javascript in
   inr (modification_textContent html css javascript m))
  = inr (modification_textContent (html (code a)) (css (code a))
           (javascript (code a)) m).
Proof.
  intros H.
  destruct (as_AppData_inv _ _ H)
    as (ms & t & c & Hv & Hn & Ht & Hc & H1 & H2 & H3 & H4 & H5 & H6 & H7 & H8).
  unfold interpolate, get, bind. rewrite Hv. simpl field_name.
  rewrite Hc, H6, H7, H8. reflexivity.
Qed.

(** [handleModificationRequest] up to its request, step by step. *)
Lemma handleModificationRequest_begin_eq (request : jsstring)
  (st : LimoApp) :
  handleModificationRequest_begin request st
  = if negb (toBoolean (appData st)) then (st, inr Returned)
    else
      match
        (let! c := get (Some (appData st)) f_code in
         let! html := interpolate c f_html in
         let! c := get (Some (appData st)) f_code in
         let! css := interpolate c f_css in
         let! c := get (Some (appData st)) f_code in
         let! javascript := interpolate c f_javascript in
         inr (modification_textContent html css javascript request))
      with
      | inl e => (modification_started request st, inl e)
      | inr textContent =>
          generateContent
            {| model := model_name;
               contents :=
                 [ {| role := role_user;
                      parts :=
                        match find (fun p => is_some (inlineData p))
                                (user_parts request (attachment st)) with
                        | Some p => [p]
                        | None => []
                        end ++ [text_part textContent] |} ];
               config := JsonConfig (lit "application/json")
                           modification_responseSchema |}
            (AwaitModification (user_parts request (attachment st)))
            (modification_started request st)
      end.
Proof.
  cbv beta iota zeta delta [handleModificationRequest_begin
     seq assign this displayHistory_push ret lift].
  destruct (negb (toBoolean (appData st))); reflexivity.
Qed.

Lemma image_part_of_user_parts (request : jsstring)
  (att : option Attachment) (textContent : jsstring) :
  match find (fun p => is_some (inlineData p)) (user_parts request att) with
  | Some p => [p]
  | None => []
  end ++ [text_part textContent]
  = modification_parts att textContent.
Proof.
  unfold user_parts, modification_parts.
  destruct att as [a|]; [reflexivity|]. now destruct (is_nil request).
Qed.

Lemma handleModificationRequest_begin_app (request : jsstring)
  (st : LimoApp) (a : AppData) :
  as_AppData (appData st) = Some a -> ai st = true ->
  handleModificationRequest_begin request st
  = (modification_started request st,
     inr (Waiting
            {| model := model_name;
               contents :=
                 [ {| role := role_user;
                      parts :=
                        modification_parts (attachment st)
                          (modification_textContent (html (code a))
                             (css (code a)) (javascript (code a)) request) |} ];
               config := JsonConfig (lit "application/json")
                           modification_responseSchema |}
            (AwaitModification (user_parts request (attachment st))))).
Proof.
  intros Ha Hai. rewrite handleModificationRequest_begin_eq.
  rewrite (as_AppData_truthy _ _ Ha), (source_of_app _ _ request Ha).
  simpl negb. cbv iota. rewrite image_part_of_user_parts.
  unfold generateContent, seq, this, ret.
  change (ai (modification_started request st)) with (ai st).
  now rewrite Hai.
Qed.

(** X7.  A modification request does not carry the conversation.  Its
    contents are one user turn whose parts are the attachment, if there
    is one, and one text; the text contains the current HTML, CSS and
    JavaScript of the app under their headings, in this order, and after
    them the user's request; the response is asked for as JSON under the
    schema. *)
Theorem modification_request_carries_the_source (st : LimoApp)
  (a : AppData) (request : jsstring) :
  as_AppData (appData st) = Some a -> ai st = true ->
  let textContent :=
    modification_textContent (html (code a)) (css (code a))
      (javascript (code a)) request in
  (exists st1,
     handleModificationRequest_begin request st
     = (st1,
        inr (Waiting
               {| model := model_name;
                  contents :=
                    [ {| role := role_user;
                         parts := modification_parts (attachment st)
                                    textContent |} ];
                  config := JsonConfig (lit "application/json")
                              modification_responseSchema |}
               (AwaitModification (user_parts request (attachment st))))))
  /\ embeds_in_order textContent
       [ lit "**HTML:**"; html (code a);
         lit "**CSS:**"; css (code a);
         lit "**JavaScript:**"; javascript (code a);
         lit "modification request: " ++ dq ++ request ++ dq ].
Proof.
  intros Ha Hai textContent. split.
  - eexists. exact (handleModificationRequest_begin_app request st a Ha Hai).
  - subst textContent. unfold modification_textContent.
    generalize (html (code a)); generalize (css (code a));
      generalize (javascript (code a)); intros x1 x2 x3;
      in_order_tac [x1; x2; x3; request].
Qed.

(** X8.  A modification that is answered with an artifact whose name can
    be printed: [appData] is the parsed response; the transcript gains
    the user's message and the confirmation, the working message is gone;
    the saved conversation gains the user's parts and a model turn that
    summarises the change; the tab and the fullscreen mode stay as they
    were; the input line and the attachment are cleared, no error is
    shown and the component is idle. *)
Theorem answered_modification_replaces_the_app (st : LimoApp) (a : AppData)
  (request response : jsstring) (v : json) (name : jsstring) :
  as_AppData (appData st) = Some a -> ai st = true ->
  JSON_parse (trim response) = Some v ->
  interpolate (Some v) f_appName = inr name ->
  let st' :=
    fst (handleModificationRequest request (Fulfilled (Some response)) st) in
  appData st' = v
  /\ displayHistory st'
     = displayHistory st
       ++ [user_message request (attachment st);
           limo_says (modification_done name)]
  /\ history st'
     = history st
       ++ [ {| role := role_user;
               parts := user_parts request (attachment st) |};
            {| role := role_model;
               parts := [text_part (modification_summary name)] |} ]
  /\ activeTab st' = activeTab st /\ isFullscreen st' = isFullscreen st
  /\ currentPrompt st' = [] /\ attachment st' = None
  /\ error st' = None /\ isLoading st' = false.
Proof.
  intros Ha Hai Hv Hn st'. subst st'. unfold handleModificationRequest.
  rewrite (run_to_end_waiting _
             (handleModificationRequest_begin_app request st a Ha Hai)).
  simpl resume. unfold handleModificationRequest_resume.
  pose proof (handleModificationRequest_try_parsed
                (modification_started request st)
                (user_parts request (attachment st)) response v Hv) as Ht.
  rewrite Hn in Ht. rewrite (try_catch_finally_returns Ht).
  simpl. rewrite removelast_snoc, <- app_assoc. repeat split.
Qed.

(** ** Build *)

Lemma marked_out_of_range (index : nat) (l : list DisplayMessage) :
  length l <= index -> marked index l = l.
Proof.
  intros H. apply nth_error_ext. intros j. unfold marked.
  rewrite nth_error_mapi.
  destruct (nth_error l j) as [m|] eqn:E; [|reflexivity]. simpl.
  assert (j < length l) by (apply nth_error_Some; congruence).
  destruct (Nat.eqb_spec j index); [lia | reflexivity].
Qed.

(** X9.  [handleBuildApp] checks neither the busy flag nor whether an app
    exists: with a client it always issues its request, which carries the
    saved conversation followed by the build instruction.  Before that it
    marks the transcript entry at the given index as built, leaves every
    other entry as it is and appends the working message; for an index
    beyond the transcript nothing is marked and the request is issued all
    the same. *)
Theorem build_marks_the_indexed_entry (st : LimoApp) (index : nat) :
  ai st = true ->
  exists st1,
    handleBuildApp_begin index st
    = (st1,
       inr (Waiting
              {| model := model_name;
                 contents := history st ++ [buildInstruction];
                 config := JsonConfig (lit "application/json")
                             build_responseSchema |}
              AwaitBuild))
    /\ isLoading st1 = true /\ error st1 = None
    /\ appData st1 = appData st /\ history st1 = history st
    /\ length (displayHistory st1) = S (length (displayHistory st))
    /\ nth_error (displayHistory st1) (length (displayHistory st))
       = Some (limo_says build_working)
    /\ (forall j m,
          nth_error (displayHistory st) j = Some m ->
          nth_error (displayHistory st1) j
          = Some (if j =? index then with_buildCompleted m else m))
    /\ (length (displayHistory st) <= index ->
        displayHistory st1
        = displayHistory st ++ [limo_says build_working]).
Proof.
  intros Hai. eexists. split; [exact (handleBuildApp_begin_state index st Hai)|].
  simpl. fold (marked index (displayHistory st)).
  assert (Hlen : length (marked index (displayHistory st))
                 = length (displayHistory st)) by apply length_mapi.
  repeat split.
  - rewrite length_app, Hlen. simpl. lia.
  - rewrite nth_error_app2 by lia. rewrite Hlen, Nat.sub_diag. reflexivity.
  - intros j m Hj.
    assert (j < length (displayHistory st))
      by (apply nth_error_Some; congruence).
    rewrite nth_error_app1 by lia. unfold marked.
    now rewrite nth_error_mapi, Hj.
  - intros Hout. now rewrite marked_out_of_range.
Qed.

Lemma handleBuildApp_answered (st : LimoApp) (index : nat)
  (response : jsstring) (v : json) (name : jsstring) :
  ai st = true ->
  JSON_parse (trim response) = Some v ->
  interpolate (Some v) f_appName = inr name ->
  fst (handleBuildApp index (Fulfilled (Some response)) st)
  = set_isLoading false
      (set_activeTab tab_preview
         (set_displayHistory
            (marked index (displayHistory st) ++ [limo_says (build_done name)])
            (set_history
               (history st ++
                [ {| role := role_model;
                     parts := [text_part (build_summary name)] |} ])
               (set_appData v (set_error None st))))).
Proof.
  intros Hai Hv Hn. unfold handleBuildApp.
  rewrite (run_to_end_waiting _ (handleBuildApp_begin_state index st Hai)).
  simpl resume. unfold handleBuildApp_resume.
  match goal with
  | |- context [try_catch_finally _ _ _ ?s] =>
      pose proof (handleBuildApp_try_parsed s response v Hv) as Ht
  end.
  rewrite Hn in Ht. rewrite (try_catch_finally_returns Ht).
  simpl. rewrite removelast_snoc. reflexivity.
Qed.

(** X10.  A build that is answered with an artifact whose name can be
    printed: [appData] is the parsed response and the preview tab is
    selected, whichever tab was; the transcript is the marked transcript
    followed by the confirmation; the saved conversation gains one model
    turn, and the build instruction that was sent is not saved; what
    the user has typed and attached stays. *)
Theorem answered_build_installs_the_app (st : LimoApp) (index : nat)
  (response : jsstring) (v : json) (name : jsstring) :
  ai st = true ->
  JSON_parse (trim response) = Some v ->
  interpolate (Some v) f_appName = inr name ->
  let st' := fst (handleBuildApp index (Fulfilled (Some response)) st) in
  appData st' = v /\ activeTab st' = tab_preview
  /\ displayHistory st'
     = marked index (displayHistory st) ++ [limo_says (build_done name)]
  /\ history st'
     = history st
       ++ [ {| role := role_model;
               parts := [text_part (build_summary name)] |} ]
  /\ currentPrompt st' = currentPrompt st /\ attachment st' = attachment st
  /\ error st' = None /\ isLoading st' = false.
Proof.
  intros Hai Hv Hn st'. subst st'.
  rewrite (handleBuildApp_answered st index response v name Hai Hv Hn).
  repeat split.
Qed.

(** X11.  A build disables the button of its own proposal only.  After a
    build that succeeded, the Build button of every other transcript
    entry is available exactly when it was before, so an earlier proposal
    can still be built, which replaces the app. *)
Theorem build_leaves_other_proposals_buildable (st : LimoApp) (index : nat)
  (response : jsstring) (v : json) (name : jsstring) :
  ai st = true -> isLoading st = false ->
  JSON_parse (trim response) = Some v ->
  interpolate (Some v) f_appName = inr name ->
  let st' := fst (handleBuildApp index (Fulfilled (Some response)) st) in
  build_available st' index = false
  /\ forall j, j <> index -> build_available st' j = build_available st j.
Proof.
  intros Hai Hl Hv Hn st'. subst st'.
  rewrite (handleBuildApp_answered st index response v name Hai Hv Hn).
  assert (Hlen : length (marked index (displayHistory st))
                 = length (displayHistory st)) by apply length_mapi.
  assert (Hat : forall j,
    button_at (marked index (displayHistory st)
               ++ [limo_says (build_done name)]) j
    = if j =? index then false else button_at (displayHistory st) j).
  { intros j. unfold button_at.
    destruct (Nat.lt_ge_cases j (length (displayHistory st))) as [Hlt|Hge].
    - rewrite nth_error_app1 by lia. unfold marked. rewrite nth_error_mapi.
      destruct (nth_error (displayHistory st) j) as [m|]; simpl.
      + destruct (j =? index); [apply build_button_marked | reflexivity].
      + now destruct (j =? index).
    - rewrite nth_error_app2 by lia.
      assert (E : nth_error (displayHistory st) j = None)
        by now apply nth_error_None.
      rewrite E, Hlen.
      destruct (j - length (displayHistory st)) as [|[|n]]; simpl;
        now destruct (j =? index). }
  split.
  - rewrite build_available_button_at. simpl.
    rewrite Hat, Nat.eqb_refl. now rewrite andb_false_r.
  - intros j Hj. rewrite !build_available_button_at. simpl.
    rewrite Hat. apply Nat.eqb_neq in Hj. now rewrite Hj, Hl.
Qed.

End Operations.

(* ================================================================== *)
(** * Invariants of the page *)
(* ================================================================== *)

Section PageInvariants.
Context {P : Platform}.

(** Discharges the side conditions of [fire_keeps] for an invariant that
    every assignment of the handlers' synchronous parts keeps. *)
Ltac by_frame :=
  intros;
  first [ apply handlePromptInput_preserves
        | apply handlePromptKeydown_preserves
        | apply handleSendMessage_begin_preserves
        | apply handleBuildApp_begin_preserves
        | apply handleFileSelected_preserves
        | apply reader_onload_preserves
        | apply removeAttachment_preserves
        | apply toggleFullscreen_preserves
        | idtac ];
  intros; try assumption.

Lemma handleSendMessage_resume_cases (h : list HistoryContent) (o : Outcome)
  (st : LimoApp) :
  (exists e, fst (handleSendMessage_resume h o st) = failed_in st e)
  \/ exists t,
       fst (handleSendMessage_resume h o st)
       = set_isLoading false
           (set_history
              (h ++ [ {| role := role_model;
                         parts := [text_part (text (reply_message t))] |} ])
              (set_displayHistory (displayHistory st ++ [reply_message t])
                 st)).
Proof.
  destruct o as [e|[t|]].
  - left. now exists e.
  - right. exists t. reflexivity.
  - left. eexists. reflexivity.
Qed.

(** ** The key and the client *)

Lemma resume_keeps_key (k : Pending) (o : Outcome) (st : LimoApp) :
  apiKeyMissing (fst (resume k o st)) = apiKeyMissing st
  /\ ai (fst (resume k o st)) = ai st.
Proof.
  destruct k as [h|ps|]; simpl resume.
  - destruct (handleSendMessage_resume_cases h o st) as [[e ->]|[t ->]];
      now split.
  - apply (handleModificationRequest_resume_preserves
             (fun s => apiKeyMissing s = apiKeyMissing st /\ ai s = ai st));
      intros; try assumption. now split.
  - apply (handleBuildApp_resume_preserves
             (fun s => apiKeyMissing s = apiKeyMissing st /\ ai s = ai st));
      intros; try assumption. now split.
Qed.

Lemma fire_keeps_key (p : Page) (e : Event) :
  apiKeyMissing (component (fire p e)) = apiKeyMissing (component p)
  /\ ai (component (fire p e)) = ai (component p).
Proof.
  destruct e as [v|k s| |j|f|j r| | |t|j o].
  10: { unfold fire. destruct (nth_error (in_flight p) j) as [k|];
          [|now split]. simpl component. apply resume_keeps_key. }
  all: apply (fire_keeps
                (fun s => apiKeyMissing s = apiKeyMissing (component p)
                          /\ ai s = ai (component p)) p);
    try (intros; discriminate); try (now split); by_frame.
Qed.

Lemma enabled_needs_key (p : Page) (e : Event) :
  enabled p e = true -> apiKeyMissing (component p) = false.
Proof.
  unfold enabled. destruct (apiKeyMissing (component p)); [discriminate|].
  reflexivity.
Qed.

Lemma reachable_key (apiKey : option jsstring) (p : Page) :
  reachable apiKey p ->
  apiKeyMissing (component p) = key_missing apiKey
  /\ ai (component p) = negb (key_missing apiKey).
Proof.
  induction 1 as [|p e H IH He].
  - now destruct apiKey.
  - destruct (fire_keeps_key p e) as [-> ->]. exact IH.
Qed.

(** X1.  Whether the key is missing is decided once, by the constructor:
    an absent key and an empty key are missing.  In every reachable page
    the client exists exactly when the key is not missing, so wherever
    [render] offers a control the handlers find a client.  With the key
    missing, [render] shows the configuration error only, no event can
    happen, and the page stays as the constructor left it. *)
Theorem missing_key_leaves_an_inert_page (apiKey : option jsstring)
  (p : Page) :
  reachable apiKey p ->
  apiKeyMissing (component p) = key_missing apiKey
  /\ ai (component p) = negb (key_missing apiKey)
  /\ (key_missing apiKey = true ->
      p = initial apiKey
      /\ render (component p) = inr api_key_error_view
      /\ forall e, enabled p e = false).
Proof.
  intros H. destruct (reachable_key apiKey p H) as [Hm Ha].
  split; [exact Hm|]. split; [exact Ha|]. intros Hmiss.
  assert (Hp : p = initial apiKey).
  { destruct H as [|p e H He]; [reflexivity|].
    apply enabled_needs_key in He.
    destruct (reachable_key apiKey p H) as [Hq _]. congruence. }
  split; [exact Hp|]. split.
  - unfold render. now rewrite Hm, Hmiss.
  - intros e. unfold enabled. now rewrite Hm, Hmiss.
Qed.

(** ** One request at a time *)

Lemma generateContent_waiting (r r' : Request) (k k' : Pending)
  (st st1 : LimoApp) :
  generateContent r k st = (st1, inr (Waiting r' k')) ->
  st1 = st /\ k' = k /\ r' = r.
Proof.
  unfold generateContent, seq, this, ret.
  destruct (ai st).
  - now intros [= <- <- <-].
  - destruct (try_catch_finally _ _ _ st) as [s [e|u]]; discriminate.
Qed.

Lemma handleModificationRequest_begin_waiting (t : jsstring)
  (st st1 : LimoApp) (r : Request) (k : Pending) :
  handleModificationRequest_begin t st = (st1, inr (Waiting r k)) ->
  st1 = modification_started t st
  /\ k = AwaitModification (user_parts t (attachment st)).
Proof.
  rewrite handleModificationRequest_begin_eq.
  destruct (negb (toBoolean (appData st))); [discriminate|].
  match goal with |- context [match ?c with _ => _ end] => destruct c end;
    [discriminate|].
  intros H. apply generateContent_waiting in H as (-> & -> & _). now split.
Qed.

Lemma handleSendMessage_begin_waiting (st st1 : LimoApp) (r : Request)
  (k : Pending) :
  handleSendMessage_begin st = (st1, inr (Waiting r k)) ->
  sendable st = true
  /\ isLoading st1 = true /\ history st1 = history st
  /\ (k = AwaitModification
            (user_parts (trim (currentPrompt st)) (attachment st))
      \/ k = AwaitChat
               (history st ++
                [ {| role := role_user;
                     parts := user_parts (trim (currentPrompt st))
                                (attachment st) |} ])).
Proof.
  destruct (sendable st) eqn:Hs.
  - rewrite (handleSendMessage_begin_routes st Hs).
    destruct (toBoolean (appData st)).
    + intros H. apply handleModificationRequest_begin_waiting in H as [-> ->].
      repeat split. now left.
    + intros H. apply generateContent_waiting in H as (-> & -> & _).
      repeat split. now right.
  - unfold sendable in Hs. apply negb_false_iff in Hs.
    cbv beta iota zeta delta [handleSendMessage_begin seq this ret].
    rewrite Hs. discriminate.
Qed.

Lemma handleBuildApp_begin_waiting (i : nat) (st st1 : LimoApp)
  (r : Request) (k : Pending) :
  handleBuildApp_begin i st = (st1, inr (Waiting r k)) ->
  isLoading st1 = true /\ history st1 = history st /\ k = AwaitBuild.
Proof.
  cbv beta iota zeta delta [handleBuildApp_begin seq assign this
    displayHistory_push ret].
  intros H. apply generateContent_waiting in H as (-> & -> & _).
  repeat split.
Qed.

Lemma handlePromptKeydown_waiting (key : jsstring) (shift : bool)
  (st st1 : LimoApp) (r : Request) (k : Pending) :
  handlePromptKeydown key shift st = (st1, inr (Waiting r k)) ->
  handleSendMessage_begin st = (st1, inr (Waiting r k)).
Proof.
  unfold handlePromptKeydown.
  destruct (jsstring_eqb key (lit "Enter") && negb shift);
    [trivial | discriminate].
Qed.

Lemma fire_keeps_isLoading (p : Page) (e : Event) :
  match e with
  | PromptInput _ | FileSelected _ | ReaderLoad _ _
  | RemoveAttachmentClick | FullscreenClick | TabClick _ => True
  | _ => False
  end ->
  isLoading (component (fire p e)) = isLoading (component p)
  /\ in_flight (fire p e) = in_flight p.
Proof.
  destruct e as [v|k s| |j|f|j r| | |t|j o]; try contradiction; intros _;
    unfold fire; cbv zeta.
  - now split.
  - unfold handleFileSelected. destruct f as [f|]; [|now split].
    destruct (_ && _); now split.
  - destruct (nth_error (reading p) j); now split.
  - now split.
  - now split.
  - now split.
Qed.




(** ** The saved conversation *)

Lemma sendable_user_parts (st : LimoApp) :
  sendable st = true ->
  user_parts (trim (currentPrompt st)) (attachment st) <> [].
Proof.
  unfold sendable, user_parts. intros H.
  apply negb_true_iff, orb_false_iff in H as [H _].
  destruct (attachment st); [discriminate|].
  destruct (trim (currentPrompt st)); [discriminate|]. discriminate.
Qed.

Lemma handleModificationRequest_resume_history (ps : list HistoryPart)
  (o : Outcome) (st : LimoApp) :
  let st' := fst (handleModificationRequest_resume ps o st) in
  history st' = history st
  \/ exists name,
       history st'
       = history st
         ++ [ {| role := role_user; parts := ps |};
              {| role := role_model;
                 parts := [text_part (modification_summary name)] |} ].
Proof.
  cbv zeta. destruct o as [e|[t|]]; [now left| |now left].
  destruct (JSON_parse (trim t)) as [v|] eqn:E.
  - unfold handleModificationRequest_resume.
    pose proof (handleModificationRequest_try_parsed st ps t v E) as Ht.
    destruct (interpolate (Some v) f_appName) as [e|name].
    + rewrite (try_catch_finally_throws Ht). now left.
    + rewrite (try_catch_finally_returns Ht). right. now exists name.
  - rewrite (handleModificationRequest_resume_malformed _ _ _ E). now left.
Qed.

Lemma handleBuildApp_resume_history (o : Outcome) (st : LimoApp) :
  let st' := fst (handleBuildApp_resume o st) in
  history st' = history st
  \/ exists name,
       history st'
       = history st
         ++ [ {| role := role_model;
                 parts := [text_part (build_summary name)] |} ].
Proof.
  cbv zeta. destruct o as [e|[t|]]; [now left| |now left].
  destruct (JSON_parse (trim t)) as [v|] eqn:E.
  - unfold handleBuildApp_resume.
    pose proof (handleBuildApp_try_parsed st t v E) as Ht.
    destruct (interpolate (Some v) f_appName) as [e|name].
    + rewrite (try_catch_finally_throws Ht). now left.
    + rewrite (try_catch_finally_returns Ht). right. now exists name.
  - rewrite (handleBuildApp_resume_malformed _ _ E). now left.
Qed.

Lemma resume_has_parts (k : Pending) (o : Outcome) (st : LimoApp) :
  pending_has_parts k -> Forall has_parts (history st) ->
  Forall has_parts (history (fst (resume k o st))).
Proof.
  intros Hk H. destruct k as [h|ps|]; simpl resume; simpl in Hk.
  - destruct (handleSendMessage_resume_cases h o st) as [[e ->]|[t ->]].
    + exact H.
    + simpl. apply Forall_app. split; [exact Hk|].
      constructor; [discriminate | constructor].
  - destruct (handleModificationRequest_resume_history ps o st)
      as [->|[name ->]]; [exact H|].
    apply Forall_app. split; [exact H|].
    constructor; [exact Hk|]. constructor; [discriminate | constructor].
  - destruct (handleBuildApp_resume_history o st) as [->|[name ->]];
      [exact H|].
    apply Forall_app. split; [exact H|].
    constructor; [discriminate | constructor].
Qed.

Lemma fire_keeps_history (p : Page) (e : Event) :
  (forall i o, e <> Settle i o) ->
  history (component (fire p e)) = history (component p).
Proof.
  intros Hne.
  apply (fire_keeps (fun s => history s = history (component p)) p e Hne);
    try reflexivity; by_frame.
Qed.

Lemma Forall_remove_nth {A} (Q : A -> Prop) (i : nat) (l : list A) :
  Forall Q l -> Forall Q (remove_nth i l).
Proof.
  intros H. revert i. unfold remove_nth.
  induction H as [|x l Hx Hl IH]; intros [|i]; cbn [firstn skipn app].
  - constructor.
  - constructor.
  - exact Hl.
  - constructor; [exact Hx | apply IH].
Qed.

Lemma after_begin_has_parts (p : Page) (r : LimoApp * Completion Started) :
  Forall pending_has_parts (in_flight p) ->
  (forall st1 rq k, r = (st1, inr (Waiting rq k)) -> pending_has_parts k) ->
  Forall pending_has_parts (in_flight (after_begin p r)).
Proof.
  intros Hp Hw. destruct r as [st1 [e|[|rq k]]]; simpl; try exact Hp.
  apply Forall_app. split; [exact Hp|].
  constructor; [now apply (Hw st1 rq k) | constructor].
Qed.

Lemma handleSendMessage_begin_has_parts (st st1 : LimoApp) (r : Request)
  (k : Pending) :
  Forall has_parts (history st) ->
  handleSendMessage_begin st = (st1, inr (Waiting r k)) ->
  pending_has_parts k.
Proof.
  intros Hh H.
  apply handleSendMessage_begin_waiting in H as (Hs & _ & _ & [->| ->]).
  - now apply sendable_user_parts.
  - simpl. apply Forall_app. split; [exact Hh|].
    constructor; [|constructor]. now apply sendable_user_parts.
Qed.

Lemma fire_has_parts (p : Page) (e : Event) :
  Forall has_parts (history (component p))
  /\ Forall pending_has_parts (in_flight p) ->
  Forall has_parts (history (component (fire p e)))
  /\ Forall pending_has_parts (in_flight (fire p e)).
Proof.
  intros [Hh Hp].
  destruct e as [v|key s| |j|f|j r| | |t|j o].
  10: { unfold fire. destruct (nth_error (in_flight p) j) as [k|] eqn:E;
          [|now split].
        simpl. split.
        - apply resume_has_parts; [|exact Hh].
          rewrite Forall_forall in Hp. apply Hp.
          now apply nth_error_In in E.
        - now apply Forall_remove_nth. }
  all: split;
    [ rewrite fire_keeps_history by (intros; discriminate); exact Hh | ].
  - exact Hp.
  - apply after_begin_has_parts; [exact Hp|]. intros st1 rq k H.
    apply handlePromptKeydown_waiting in H.
    now apply (handleSendMessage_begin_has_parts _ _ _ _ Hh H).
  - apply after_begin_has_parts; [exact Hp|]. intros st1 rq k H.
    now apply (handleSendMessage_begin_has_parts _ _ _ _ Hh H).
  - apply after_begin_has_parts; [exact Hp|]. intros st1 rq k H.
    apply handleBuildApp_begin_waiting in H as (_ & _ & ->). exact I.
  - now rewrite (proj2 (fire_keeps_isLoading p (FileSelected f) I)).
  - now rewrite (proj2 (fire_keeps_isLoading p (ReaderLoad j r) I)).
  - exact Hp.
  - exact Hp.
  - exact Hp.
Qed.

(** X13.  In every reachable page every turn of the saved conversation
    has at least one part: a message is only sent with a text or an
    attachment, and what a request saves when it settles is what was
    sent together with a model turn that carries a text. *)
Theorem saved_turns_have_parts (apiKey : option jsstring) (p : Page) :
  reachable apiKey p ->
  Forall has_parts (history (component p)).
Proof.
  intros H.
  assert (Hinv : Forall has_parts (history (component p))
                 /\ Forall pending_has_parts (in_flight p)).
  { induction H as [|p e H IH He].
    - simpl. split; constructor.
    - now apply fire_has_parts. }
  exact (proj1 Hinv).
Qed.

(** ** The error banner *)

Lemma handleApiError_banner (e : Thrown) :
  In (handleApiError e) banner_messages.
Proof.
  unfold banner_messages, user_facing_messages, handleApiError.
  destruct e as [m|]; [|simpl; tauto].
  destruct (_ || _); [simpl; tauto|].
  destruct (includes _ _); [simpl; tauto|].
  destruct (includes _ _); simpl; tauto.
Qed.

(** One step of a handler keeps the error among the banner messages. *)
Ltac banner_step :=
  first
    [ preserve_step; cbv zeta
    | lazymatch goal with
      | |- forall st, error_is_a_banner_message st ->
                      error_is_a_banner_message _ =>
          let s := fresh "s" in let H := fresh "H" in
          intros s H; unfold error_is_a_banner_message in *;
          cbn [error set_error set_isLoading set_currentPrompt
               set_attachment set_history set_displayHistory set_appData
               set_activeTab set_isFullscreen];
          first [ exact H | exact I | apply handleApiError_banner
                | now left ]
      end ].

Lemma catch_clause_banner (e : Thrown) :
  preserves error_is_a_banner_message (catch_clause e).
Proof.
  unfold catch_clause, displayHistory_pop. repeat banner_step.
Qed.

Lemma finally_clause_banner :
  preserves error_is_a_banner_message finally_clause.
Proof. unfold finally_clause. repeat banner_step. Qed.

Lemma generateContent_banner (r : Request) (k : Pending) :
  preserves error_is_a_banner_message (generateContent r k).
Proof.
  unfold generateContent. repeat banner_step;
    auto using catch_clause_banner, finally_clause_banner.
Qed.

Lemma handleModificationRequest_begin_banner (t : jsstring) :
  preserves error_is_a_banner_message (handleModificationRequest_begin t).
Proof.
  unfold handleModificationRequest_begin, displayHistory_push.
  repeat banner_step; auto using generateContent_banner.
Qed.

Lemma handleSendMessage_begin_banner :
  preserves error_is_a_banner_message handleSendMessage_begin.
Proof.
  unfold handleSendMessage_begin, displayHistory_push.
  repeat banner_step;
    auto using generateContent_banner, handleModificationRequest_begin_banner.
Qed.

Lemma handleBuildApp_begin_banner (i : nat) :
  preserves error_is_a_banner_message (handleBuildApp_begin i).
Proof.
  unfold handleBuildApp_begin, displayHistory_push.
  repeat banner_step; auto using generateContent_banner.
Qed.

Lemma handlePromptKeydown_banner (k : jsstring) (s : bool) :
  preserves error_is_a_banner_message (handlePromptKeydown k s).
Proof.
  unfold handlePromptKeydown.
  repeat banner_step; auto using handleSendMessage_begin_banner.
Qed.

Lemma handleFileSelected_banner (f : option File) :
  preserves error_is_a_banner_message (handleFileSelected f).
Proof. unfold handleFileSelected. repeat banner_step. Qed.

Lemma resume_banner (k : Pending) (o : Outcome) :
  preserves error_is_a_banner_message (resume k o).
Proof.
  destruct k as [h|ps|]; simpl resume.
  - unfold handleSendMessage_resume, handleSendMessage_try, await,
      response_text_trim, displayHistory_push.
    repeat banner_step;
      auto using catch_clause_banner, finally_clause_banner.
  - unfold handleModificationRequest_resume, handleModificationRequest_try,
      await, response_text_trim, displayHistory_push, displayHistory_pop.
    repeat banner_step;
      auto using catch_clause_banner, finally_clause_banner.
  - unfold handleBuildApp_resume, handleBuildApp_try,
      await, response_text_trim, displayHistory_push, displayHistory_pop.
    repeat banner_step;
      auto using catch_clause_banner, finally_clause_banner.
Qed.

Lemma fire_banner (p : Page) (e : Event) :
  error_is_a_banner_message (component p) ->
  error_is_a_banner_message (component (fire p e)).
Proof.
  intros H. destruct e as [v|k s| |j|f|j r| | |t|j o].
  10: { unfold fire. destruct (nth_error (in_flight p) j) as [k|];
          [|exact H]. simpl component. now apply resume_banner. }
  all: apply (fire_keeps error_is_a_banner_message p);
    try (intros; discriminate); try exact H; intros.
  all: first [ apply handlePromptKeydown_banner
             | apply handleSendMessage_begin_banner
             | apply handleBuildApp_begin_banner
             | apply handleFileSelected_banner
             | idtac ].
  all: try (unfold handlePromptInput, reader_onload, removeAttachment,
              toggleFullscreen; repeat banner_step).
  all: try assumption.
Qed.

(** X14.  In every reachable page the error is unset or one of five
    fixed texts: the message about an unsupported file and the four
    messages of the classifier.  The message of a caught exception is
    never shown as it is, and none of the five is empty, so an error that
    is set is always shown. *)
Theorem banner_shows_fixed_messages_only (apiKey : option jsstring)
  (p : Page) :
  reachable apiKey p ->
  match error (component p) with
  | None => True
  | Some m => In m banner_messages /\ string_truthy (Some m) = true
  end.
Proof.
  intros H.
  assert (Hinv : error_is_a_banner_message (component p)).
  { induction H as [|p e H IH He].
    - unfold error_is_a_banner_message. now destruct apiKey.
    - now apply fire_banner. }
  unfold error_is_a_banner_message in Hinv.
  destruct (error (component p)) as [m|]; [|exact I].
  split; [exact Hinv|].
  unfold banner_messages, user_facing_messages in Hinv. simpl in Hinv.
  destruct Hinv as [<-|[<-|[<-|[<-|[<-|[]]]]]]; reflexivity.
Qed.

(** ** Reading files *)

Lemma fire_file_selected (p : Page) (f : File) :
  accepted f = true ->
  fire p (FileSelected (Some f))
  = {| component := set_error None (component p);
       in_flight := in_flight p;
       reading := reading p ++ [f] |}.
Proof.
  unfold accepted. intros H. unfold fire, handleFileSelected.
  apply orb_true_iff in H.
  destruct (startsWith (file_type f) (lit "image/")),
           (startsWith (file_type f) (lit "audio/"));
    try reflexivity.
  destruct H; discriminate.
Qed.

(** X29.  A read that was started is not cancelled by the selection of
    another file: both reads go on, and each sets the attachment when it
    finishes.  When two accepted files are selected one after the other,
    the attachment is the file whose read finishes last, which need not
    be the file selected last. *)
Theorem last_finished_read_is_the_attachment (p : Page) (f g : File)
  (rf rg : jsstring) :
  reading p = [] -> accepted f = true -> accepted g = true ->
  let p2 := fire (fire p (FileSelected (Some f))) (FileSelected (Some g)) in
  reading p2 = [f; g]
  /\ attachment (component p2) = attachment (component p)
  /\ attachment
       (component (fire (fire p2 (ReaderLoad 0 rf)) (ReaderLoad 0 rg)))
     = Some (attachment_of g rg)
  /\ attachment
       (component (fire (fire p2 (ReaderLoad 1 rg)) (ReaderLoad 0 rf)))
     = Some (attachment_of f rf).
Proof.
  intros Hr Hf Hg p2. subst p2.
  rewrite (fire_file_selected p f Hf), (fire_file_selected _ g Hg).
  cbn [reading component in_flight]. rewrite Hr.
  repeat split.
Qed.

End PageInvariants.

(* ================================================================== *)
(** * What the page shows *)
(* ================================================================== *)

Section Shown.
Context {P : Platform}.

(** X18.  The two confirmations show the name of the app in bold: the
    asterisks around it in the message become [<strong>] and [</strong>]
    in the markup, when the name contains no asterisk and no line
    terminator. *)
Theorem confirmations_show_the_name_in_bold (name : jsstring) :
  free_of is_asterisk name = true ->
  free_of isLineTerminator name = true ->
  emphasis_markup (build_done name)
  = lit "I've created the first version of <strong>" ++ name
    ++ lit "</strong>! You can see it in the preview. Let me know what you'd like to change or add."
  /\ emphasis_markup (modification_done name)
     = lit "I've updated <strong>" ++ name
       ++ lit "</strong> with your changes! Check it out in the preview.".
Proof.
  intros Ha Hl. split.
  - change (build_done name)
      with (lit "I've created the first version of " ++ two_asterisks
            ++ name ++ two_asterisks
            ++ lit "! You can see it in the preview. Let me know what you'd like to change or add.").
    unfold emphasis_markup at 1.
    rewrite (replace_emphasis_span _
               (lit "I've created the first version of ") name
               (lit "! You can see it in the preview. Let me know what you'd like to change or add.")
               eq_refl Ha Hl (Nat.le_refl _)).
    reflexivity.
  - change (modification_done name)
      with (lit "I've updated " ++ two_asterisks ++ name ++ two_asterisks
            ++ lit " with your changes! Check it out in the preview.").
    unfold emphasis_markup at 1.
    rewrite (replace_emphasis_span _
               (lit "I've updated ") name
               (lit " with your changes! Check it out in the preview.")
               eq_refl Ha Hl (Nat.le_refl _)).
    reflexivity.
Qed.

(** ** The output panel *)

Lemma renderOutput_without_app (st : LimoApp) :
  toBoolean (appData st) = false ->
  renderOutput st
  = inr (if isLoading st then building_view
         else if string_truthy (error st)
              then error_view (match error st with
                               | Some e => e
                               | None => []
                               end)
              else placeholder_view).
Proof.
  intros H. unfold renderOutput. rewrite H. simpl.
  destruct (isLoading st), (string_truthy (error st)); reflexivity.
Qed.

Lemma renderOutput_with_app (st : LimoApp) :
  toBoolean (appData st) = true ->
  renderOutput st
  = let! content :=
      match activeTab st with
      | tab_preview =>
          let! srcdoc := getIframeContent st in
          inr (preview_content srcdoc)
      | tab_code =>
          let! c := get (Some (appData st)) f_code in
          let! h := get c f_html in
          let! c := get (Some (appData st)) f_code in
          let! s := get c f_css in
          let! c := get (Some (appData st)) f_code in
          let! j := get c f_javascript in
          inr (code_content h s j)
      end in
    inr (tabs_view (activeTab st) (isFullscreen st) content).
Proof.
  intros H. unfold renderOutput. rewrite H. simpl.
  now rewrite !andb_false_r.
Qed.

(** X20.  What the output panel shows.  Without an app it never fails:
    it shows the spinner while the component is busy, even when an error
    is set; otherwise the error, if one is set; otherwise the
    placeholder.  With an app it shows the tab bar or fails, and the
    error is left to the chat panel.  The empty template of the fourth
    branch is never shown: the branches before it leave no state for
    it. *)
Theorem output_panel_cases (st : LimoApp) :
  (toBoolean (appData st) = false ->
   renderOutput st
   = inr (if isLoading st then building_view
          else if string_truthy (error st)
               then error_view (match error st with
                                | Some e => e
                                | None => []
                                end)
               else placeholder_view))
  /\ (toBoolean (appData st) = true ->
      forall v, renderOutput st = inr v ->
      exists content,
        v = tabs_view (activeTab st) (isFullscreen st) content)
  /\ renderOutput st <> inr empty_view.
Proof.
  split; [apply renderOutput_without_app|]. split.
  - intros H v. rewrite (renderOutput_with_app st H). unfold bind.
    match goal with
    | |- context [match ?c with inl _ => _ | inr _ => _ end] => destruct c
    end; [discriminate|].
    intros [= <-]. now eexists.
  - destruct (toBoolean (appData st)) eqn:H.
    + rewrite (renderOutput_with_app st H). unfold bind.
      match goal with
      | |- context [match ?c with inl _ => _ | inr _ => _ end] => destruct c
      end; discriminate.
    + rewrite (renderOutput_without_app st H).
      destruct (isLoading st), (string_truthy (error st)); discriminate.
Qed.

Lemma code_blocks_of_app (v : json) (a : AppData) :
  as_AppData v = Some a ->
  (let! c := get (Some v) f_code in
   let! h := get c f_html in
   let! c := get (Some v) f_code in
   let! s := get c f_css in
   let! c := get (Some v) f_code in
   let! j := get c f_javascript in
   inr (code_content h s j))
  = inr (code_content (Some (JString (html (code a))))
           (Some (JString (css (code a))))
           (Some (JString (javascript (code a))))).
Proof.
  intros H.
  destruct (as_AppData_inv _ _ H)
    as (ms & t & c & Hv & Hn & Ht & Hc & H1 & H2 & H3 & H4 & H5 & H6 & H7 & H8).
  unfold get, bind. rewrite Hv. simpl field_name.
  rewrite Hc. simpl field_name. rewrite H6, H7, H8. reflexivity.
Qed.

(** X21.  With a fully populated artifact [render] does not fail.  The
    output panel shows the tab bar; on the preview tab the frame is given
    the document of the artifact, on the code tab the three code blocks
    hold its HTML, CSS and JavaScript.  The chat panel has one bubble per
    transcript entry, and the Build button that is enabled under entry
    [i] is the one that calls [handleBuildApp] with [i]. *)
Theorem render_shows_a_full_app (st : LimoApp) (a : AppData) :
  apiKeyMissing st = false ->
  as_AppData (appData st) = Some a ->
  exists v,
    render st = inr (main_view v)
    /\ output v
       = tabs_view (activeTab st) (isFullscreen st)
           (match activeTab st with
            | tab_preview => preview_content (document a)
            | tab_code =>
                code_content (Some (JString (html (code a))))
                  (Some (JString (css (code a))))
                  (Some (JString (javascript (code a))))
            end)
    /\ length (chat_history v) = length (displayHistory st)
    /\ forall i,
         build_available st i = true
         <-> exists b,
               nth_error (chat_history v) i = Some b
               /\ bubble_button b
                  = Some {| click_index := i; button_disabled := false |}.
Proof.
  intros Hk Ha. unfold render. rewrite Hk.
  rewrite (renderOutput_with_app st (as_AppData_truthy _ _ Ha)).
  assert (Hc : match activeTab st with
               | tab_preview =>
                   let! srcdoc := getIframeContent st in
                   inr (preview_content srcdoc)
               | tab_code =>
                   let! c := get (Some (appData st)) f_code in
                   let! h := get c f_html in
                   let! c := get (Some (appData st)) f_code in
                   let! s := get c f_css in
                   let! c := get (Some (appData st)) f_code in
                   let! j := get c f_javascript in
                   inr (code_content h s j)
               end
               = inr (match activeTab st with
                      | tab_preview => preview_content (document a)
                      | tab_code =>
                          code_content (Some (JString (html (code a))))
                            (Some (JString (css (code a))))
                            (Some (JString (javascript (code a))))
                      end)).
  { destruct (activeTab st).
    - now rewrite (getIframeContent_document st a Ha).
    - exact (code_blocks_of_app _ _ Ha). }
  rewrite Hc. cbn [bind]. eexists. split; [reflexivity|].
  cbn [output chat_history]. split; [reflexivity|].
  split; [apply length_mapi|].
  intros i. rewrite build_available_button_at, Hk. cbn [negb andb].
  unfold button_at. rewrite nth_error_mapi.
  destruct (nth_error (displayHistory st) i) as [m|]; cbn [option_map].
  - unfold render_message. cbn [bubble_button].
    destruct (build_button m), (isLoading st); cbn [andb negb]; split;
      intros H; try discriminate; try reflexivity;
      try (destruct H as (b & [= <-] & Hb); discriminate).
    eexists. split; reflexivity.
  - cbn [andb]. split; [discriminate | intros (b & Hb & _); discriminate].
Qed.

Lemma handleBuildApp_answered_state (st : LimoApp) (index : nat)
  (response : jsstring) (v : json) (name : jsstring) :
  ai st = true ->
  JSON_parse (trim response) = Some v ->
  interpolate (Some v) f_appName = inr name ->
  let st' := fst (handleBuildApp index (Fulfilled (Some response)) st) in
  appData st' = v /\ activeTab st' = tab_preview
  /\ apiKeyMissing st' = apiKeyMissing st /\ error st' = None.
Proof.
  intros Hai Hv Hn st'. subst st'.
  rewrite (handleBuildApp_answered st index response v name Hai Hv Hn).
  repeat split.
Qed.

(** X22.  A build answered with an object that has no [theme] is
    reported as a success, with no error; but the preview tab is then
    selected and the next [render] fails with the [TypeError] of reading
    [headerFont] from [undefined]. *)
Theorem artifact_without_theme_breaks_render (st : LimoApp) (index : nat)
  (response : jsstring) (ms : list (jsstring * json)) (name : jsstring) :
  ai st = true -> apiKeyMissing st = false ->
  JSON_parse (trim response) = Some (JObject ms) ->
  interpolate (Some (JObject ms)) f_appName = inr name ->
  obj_get ms (lit "theme") = None ->
  let st' := fst (handleBuildApp index (Fulfilled (Some response)) st) in
  error st' = None
  /\ render st'
     = inl (ErrorObject
              (engine_message (ReadOfNullish false (lit "headerFont")))).
Proof.
  intros Hai Hk Hv Hn Ht st'.
  destruct (handleBuildApp_answered_state st index response (JObject ms)
              name Hai Hv Hn) as (Ha & Htab & Hkey & He).
  fold st' in Ha, Htab, Hkey, He. split; [exact He|].
  unfold render. rewrite Hkey, Hk.
  rewrite renderOutput_with_app by now rewrite Ha.
  rewrite Htab. unfold getIframeContent. rewrite Ha.
  cbn [toBoolean negb]. unfold get at 1. cbn [field_name bind].
  rewrite Ht. cbn [bind].
  destruct (get (Some (JObject ms)) f_code) as [e|c] eqn:Ec.
  - unfold get in Ec. discriminate.
  - reflexivity.
Qed.

(** X15.  The preview document is the empty string exactly when
    [appData] is falsy; for any other [appData] the renderer returns a
    document that is not empty or fails. *)
Theorem preview_is_empty_exactly_without_an_app (st : LimoApp) :
  getIframeContent st = inr [] <-> toBoolean (appData st) = false.
Proof.
  split.
  - destruct (toBoolean (appData st)) eqn:H; [|reflexivity].
    unfold getIframeContent. rewrite H. cbn [negb]. unfold bind.
    repeat match goal with
           | |- context [match ?c with inl _ => _ | inr _ => _ end] =>
               destruct c; try discriminate
           end.
    all: unfold iframe_document; intros [= E];
      apply (f_equal (@length _)) in E; rewrite length_app in E;
      simpl in E; discriminate.
  - intros H. unfold getIframeContent. now rewrite H.
Qed.

End Shown.

(* ================================================================== *)
(** * The single-prompt component *)
(* ================================================================== *)

Section SinglePrompt.
Context {P : Platform}.

Lemma handleGenerateClick_begin_issues (st : Legacy.LimoApp) :
  Legacy.prompt st <> [] -> Legacy.isLoading st = false ->
  Legacy.handleGenerateClick_begin st
  = (Legacy.set_appData JNull
       (Legacy.set_error None (Legacy.set_isLoading true st)),
     Some {| Legacy.model := lit "gemini-2.5-flash";
             Legacy.contents := Legacy.generation_prompt (Legacy.prompt st);
             Legacy.config := JsonConfig (lit "application/json")
                                Legacy.responseSchema |}).
Proof.
  intros Hp Hl. unfold Legacy.handleGenerateClick_begin. rewrite Hl.
  assert (En : is_nil (Legacy.prompt st) = false)
    by (destruct (Legacy.prompt st); [contradiction | reflexivity]).
  now rewrite En.
Qed.

(** X23.  [handleGenerateClick] returns at once, changing nothing and
    issuing no request, exactly when the prompt is the empty string or
    the component is busy; these are the states in which [render]
    disables the button.  The prompt is not trimmed: a prompt of spaces
    is sent.  Otherwise the component becomes busy, the error and the app
    are cleared before the request is issued, and the request ends with
    the prompt between double quotes. *)
Theorem generate_guard (st : Legacy.LimoApp) :
  (Legacy.handleGenerateClick_begin st = (st, None)
   <-> Legacy.prompt st = [] \/ Legacy.isLoading st = true)
  /\ (forall v, Legacy.render st = inr v ->
      (Legacy.generate_disabled v = true
       <-> Legacy.prompt st = [] \/ Legacy.isLoading st = true))
  /\ (Legacy.prompt st <> [] -> Legacy.isLoading st = false ->
      Legacy.handleGenerateClick_begin st
      = (Legacy.set_appData JNull
           (Legacy.set_error None (Legacy.set_isLoading true st)),
         Some {| Legacy.model := lit "gemini-2.5-flash";
                 Legacy.contents := Legacy.generation_prompt (Legacy.prompt st);
                 Legacy.config := JsonConfig (lit "application/json")
                                    Legacy.responseSchema |})
      /\ endsWith (Legacy.generation_prompt (Legacy.prompt st))
           (lit "Idea: " ++ dq ++ Legacy.prompt st ++ dq) = true).
Proof.
  split; [split|split].
  - unfold Legacy.handleGenerateClick_begin.
    destruct (Legacy.prompt st) as [|c s] eqn:Ep; [now left|].
    destruct (Legacy.isLoading st); [now right|]. discriminate.
  - unfold Legacy.handleGenerateClick_begin.
    intros [H|H]; rewrite H; [reflexivity|]. now rewrite orb_true_r.
  - intros v. unfold Legacy.render, bind.
    destruct (Legacy.renderOutput st) as [e|o]; [discriminate|].
    intros [= <-]. cbn [Legacy.generate_disabled].
    destruct (Legacy.isLoading st), (Legacy.prompt st) as [|c s];
      cbn [is_nil orb]; split; intros H; try reflexivity;
      try discriminate; try (now left); try (now right).
    destruct H; discriminate.
  - intros Hp Hl. split; [now apply handleGenerateClick_begin_issues|].
    apply endsWith_iff.
    let q := eval vm_compute in
      (firstn (length (Legacy.generation_prompt []) - 8)
         (Legacy.generation_prompt [])) in
    exists q.
    reflexivity.
Qed.

Lemma handleGenerateClick_running (o : Outcome) (st : Legacy.LimoApp) :
  Legacy.prompt st <> [] -> Legacy.isLoading st = false ->
  Legacy.handleGenerateClick o st
  = Legacy.handleGenerateClick_resume o
      (Legacy.set_appData JNull
         (Legacy.set_error None (Legacy.set_isLoading true st))).
Proof.
  intros Hp Hl. unfold Legacy.handleGenerateClick.
  now rewrite (handleGenerateClick_begin_issues st Hp Hl).
Qed.

Lemma handleGenerateClick_resume_parsed (t : jsstring) (v : json)
  (st : Legacy.LimoApp) :
  JSON_parse (trim t) = Some v ->
  Legacy.handleGenerateClick_resume (Fulfilled (Some t)) st
  = Legacy.set_isLoading false
      (Legacy.set_activeTab tab_preview (Legacy.set_appData v st)).
Proof.
  intros H. unfold Legacy.handleGenerateClick_resume,
    Legacy.handleGenerateClick_try, JSON_parse_c.
  now rewrite H.
Qed.

Lemma handleGenerateClick_resume_unusable (o : Outcome)
  (st : Legacy.LimoApp) :
  unusable o ->
  Legacy.handleGenerateClick_resume o st
  = Legacy.set_isLoading false
      (Legacy.set_error (Some Legacy.generation_failed_message) st).
Proof.
  intros H. unfold Legacy.handleGenerateClick_resume,
    Legacy.handleGenerateClick_try, JSON_parse_c.
  destruct o as [e|[t|]]; [reflexivity| |reflexivity].
  now rewrite (H t eq_refl).
Qed.

(** X24.  What a generation leaves.  When the text of the response
    parses, [appData] is the parsed value, the preview tab is selected
    and no error is set.  When the request is rejected, or the response
    has no text, or its text does not parse, the error is one fixed
    message whatever the cause, and there is no app: the app that was
    shown before the click is gone, since it was cleared when the
    request was issued.  In both cases the component is idle again and
    the prompt stays in the input. *)
Theorem generation_outcomes (st : Legacy.LimoApp) (o : Outcome) :
  Legacy.prompt st <> [] -> Legacy.isLoading st = false ->
  let st' := Legacy.handleGenerateClick o st in
  Legacy.isLoading st' = false
  /\ Legacy.prompt st' = Legacy.prompt st
  /\ (forall t v,
        o = Fulfilled (Some t) -> JSON_parse (trim t) = Some v ->
        Legacy.appData st' = v
        /\ Legacy.activeTab st' = tab_preview
        /\ Legacy.error st' = None)
  /\ (unusable o ->
      Legacy.appData st' = JNull
      /\ Legacy.error st' = Some Legacy.generation_failed_message
      /\ Legacy.activeTab st' = Legacy.activeTab st).
Proof.
  intros Hp Hl st'. subst st'.
  rewrite (handleGenerateClick_running o st Hp Hl).
  assert (Hcases : unusable o
                   \/ exists t v, o = Fulfilled (Some t)
                                  /\ JSON_parse (trim t) = Some v).
  { destruct o as [e|[t|]]; try (left; intros t' [=]; fail).
    destruct (JSON_parse (trim t)) as [v|] eqn:E.
    - right. now exists t, v.
    - left. now intros t' [= <-]. }
  destruct Hcases as [Hu|(t & v & -> & Hv)].
  - rewrite (handleGenerateClick_resume_unusable o _ Hu).
    split; [reflexivity|]. split; [reflexivity|]. split.
    + intros t v -> Hv. specialize (Hu t eq_refl). congruence.
    + intros _. repeat split.
  - rewrite (handleGenerateClick_resume_parsed t v _ Hv).
    split; [reflexivity|]. split; [reflexivity|]. split.
    + intros t' v' [= <-] Hv'. rewrite Hv in Hv'. injection Hv' as <-.
      repeat split.
    + intros Hu. specialize (Hu t eq_refl). congruence.
Qed.

(** ** The page of the single-prompt component *)

Lemma legacy_fire_invariant (p : Legacy.Page) (e : Legacy.Event) :
  Legacy.enabled p e = true ->
  legacy_invariant p -> legacy_invariant (Legacy.fire p e).
Proof.
  unfold legacy_invariant. cbv zeta.
  destruct p as [st n]. cbn [Legacy.component Legacy.in_flight].
  intros He (Hn & Hbusy & Herr).
  destruct e as [v| |t|o]; cbn [Legacy.enabled Legacy.fire
    Legacy.component Legacy.in_flight] in *.
  - repeat split; auto; now apply Hbusy.
  - apply negb_true_iff, orb_false_iff in He as [Hl Hp].
    assert (Hp' : Legacy.prompt st <> [])
      by (intros E; rewrite E in Hp; discriminate).
    rewrite (handleGenerateClick_begin_issues st Hp' Hl).
    cbn [Legacy.component Legacy.in_flight]. rewrite Hl in Hn. subst n.
    repeat split; reflexivity.
  - repeat split; auto; now apply Hbusy.
  - destruct n as [|n]; [discriminate|].
    destruct (Legacy.isLoading st) eqn:Hl; [|discriminate].
    injection Hn as ->. destruct (Hbusy eq_refl) as [He0 Ha0].
    cbn [Legacy.component Legacy.in_flight].
    assert (Hcases : unusable o
                     \/ exists t v, o = Fulfilled (Some t)
                                    /\ JSON_parse (trim t) = Some v).
    { destruct o as [e|[t|]]; try (left; intros t' [=]; fail).
      destruct (JSON_parse (trim t)) as [v|] eqn:E.
      - right. now exists t, v.
      - left. now intros t' [= <-]. }
    destruct Hcases as [Hu|(t & v & -> & Hv)].
    + rewrite (handleGenerateClick_resume_unusable o _ Hu).
      repeat split; try discriminate. intros _. exact Ha0.
    + rewrite (handleGenerateClick_resume_parsed t v _ Hv).
      repeat split; try discriminate. cbn. intros H. now rewrite He0 in H.
Qed.

(** X25.  In every reachable page of the single-prompt component at most
    one request is in flight, and one is in flight exactly while the
    component is busy.  Whenever an app is stored the component is idle
    and no error is set, so the output panel, which shows the spinner
    and the error before anything else, never hides an app. *)
Theorem single_prompt_page_invariant (p : Legacy.Page) :
  Legacy.reachable p ->
  let st := Legacy.component p in
  Legacy.in_flight p <= 1
  /\ (Legacy.in_flight p = 1 <-> Legacy.isLoading st = true)
  /\ (toBoolean (Legacy.appData st) = true ->
      Legacy.isLoading st = false /\ Legacy.error st = None
      /\ forall v, Legacy.renderOutput st = inr v ->
                   exists content, v = Legacy.tabs_view (Legacy.activeTab st)
                                         content).
Proof.
  intros H.
  assert (Hinv : legacy_invariant p).
  { induction H as [|p e H IH He].
    - unfold legacy_invariant. cbn. repeat split; congruence.
    - now apply legacy_fire_invariant. }
  destruct Hinv as (Hn & Hbusy & Herr). cbv zeta in *.
  split; [|split].
  - rewrite Hn. destruct (Legacy.isLoading _); lia.
  - rewrite Hn. destruct (Legacy.isLoading _); split; congruence.
  - intros Ht.
    assert (Hl : Legacy.isLoading (Legacy.component p) = false).
    { destruct (Legacy.isLoading _) eqn:E; [|reflexivity].
      destruct (Hbusy eq_refl) as [_ Ha]. rewrite Ha in Ht. discriminate. }
    assert (He : Legacy.error (Legacy.component p) = None).
    { destruct (Legacy.error _) as [m|] eqn:E; [|reflexivity].
      rewrite Herr in Ht; [discriminate | congruence]. }
    split; [exact Hl|]. split; [exact He|].
    intros v. unfold Legacy.renderOutput. rewrite Hl, He, Ht.
    cbn [string_truthy negb]. unfold bind.
    match goal with
    | |- context [match ?c with inl _ => _ | inr _ => _ end] => destruct c
    end; [discriminate|].
    intros [= <-]. now eexists.
Qed.

(** X26.  From the click to the preview: when the response to a
    generation is the text of a fully populated artifact, the next
    [render] shows the preview tab, and the frame is given the document
    of that artifact; the button is enabled again. *)
Theorem generated_app_is_previewed (st : Legacy.LimoApp) (t : jsstring)
  (v : json) (a : AppData) :
  Legacy.prompt st <> [] -> Legacy.isLoading st = false ->
  JSON_parse (trim t) = Some v -> as_AppData v = Some a ->
  Legacy.render (Legacy.handleGenerateClick (Fulfilled (Some t)) st)
  = inr {| Legacy.textarea_value := Legacy.prompt st;
           Legacy.textarea_disabled := false;
           Legacy.generate_disabled := false;
           Legacy.generate_spinner := false;
           Legacy.output :=
             Legacy.tabs_view tab_preview
               (Legacy.preview_content (legacy_document a)) |}.
Proof.
  intros Hp Hl Hv Ha.
  rewrite (handleGenerateClick_running _ st Hp Hl).
  rewrite (handleGenerateClick_resume_parsed t v _ Hv).
  unfold Legacy.render, Legacy.renderOutput.
  cbn [Legacy.isLoading Legacy.error Legacy.appData Legacy.activeTab
       Legacy.prompt Legacy.set_isLoading Legacy.set_activeTab
       Legacy.set_appData Legacy.set_error string_truthy].
  rewrite (as_AppData_truthy _ _ Ha). cbn [negb].
  rewrite (legacy_getIframeContent_document v a Ha). cbn [bind orb].
  assert (En : is_nil (Legacy.prompt st) = false)
    by (destruct (Legacy.prompt st); [contradiction | reflexivity]).
  now rewrite En.
Qed.

End SinglePrompt.

(* ================================================================== *)
(** * The transcript keeps its greeting *)
(* ================================================================== *)

Section Greeting.
Context {P : Platform}.









(** ** How the operations on the transcript use the room *)






(** ** The handlers *)













End Greeting.

(* ================================================================== *)
(** * The further theorems at concrete inputs *)
(* ================================================================== *)

Lemma unmarked_text_is_inserted_as_is_witness :
  includes (text markup_message) two_asterisks = false
  /\ bubble_markup (render_message false 1 markup_message)
     = lit "<img src=x onerror=alert(1)>".
Proof.
  split; [vm_compute; reflexivity|].
  refine (unmarked_text_is_inserted_as_is false 1 markup_message _).
  vm_compute. reflexivity.
Defined.

Lemma emphasis_of_a_span_witness :
  emphasis_markup (lit "Try **this** now")
  = lit "Try <strong>this</strong> now".
Proof.
  refine (emphasis_of_a_span (lit "Try ") (lit "this") (lit " now") _ _ _);
    vm_compute; reflexivity.
Defined.

Lemma emphasis_does_not_span_lines_witness :
  isLineTerminator 10%N = true
  /\ emphasis_markup (lit "a **b" ++ 10%N :: lit "c** d")
     = lit "a **b" ++ 10%N :: lit "c** d".
Proof.
  split; [vm_compute; reflexivity|].
  refine (emphasis_does_not_span_lines (lit "a ") (lit "b") (lit "c")
            (lit " d") 10%N _ _ _ _ _);
    vm_compute; reflexivity.
Defined.

Lemma inline_part_of_data_url_witness :
  dataUrl cat_picture = data_url (lit "image/png") (lit "iVBORw0KGgo=")
  /\ inline_part cat_picture
     = inline_data_part (lit "image/png") (Some (lit "iVBORw0KGgo=")).
Proof.
  split; [reflexivity|].
  refine (proj1 (inline_part_of_data_url cat_picture (lit "image/png")
                   (lit "iVBORw0KGgo=") _ _ _ _ _ _));
    first [ discriminate | vm_compute; reflexivity ].
Defined.

Lemma send_guard_is_the_button_condition_witness :
  let st := component proposed_page in
  apiKeyMissing st = false
  /\ send_available st = false
  /\ @handleSendMessage_begin example_platform st = (st, inr Returned).
Proof.
  split; [vm_compute; reflexivity|]. split; [vm_compute; reflexivity|].
  refine (proj1 (@send_guard_is_the_button_condition example_platform
                   (component proposed_page) _) _);
    vm_compute; reflexivity.
Defined.

Lemma answered_send_appends_both_turns_witness :
  let st := component described_page in
  sendable st = true /\ toBoolean (appData st) = false /\ ai st = true
  /\ map author
       (displayHistory
          (fst (@handleSendMessage example_platform
                  (Fulfilled (Some (lit "Shall I build it? [PROPOSE_BUILD]")))
                  st)))
     = [limo; user; limo].
Proof.
  split; [vm_compute; reflexivity|]. split; [vm_compute; reflexivity|].
  split; [vm_compute; reflexivity|].
  rewrite (proj1 (proj2 (@answered_send_appends_both_turns example_platform
             (component described_page)
             (lit "Shall I build it? [PROPOSE_BUILD]")
             eq_refl eq_refl eq_refl))).
  vm_compute. reflexivity.
Defined.

Lemma failed_send_restores_transcript_not_input_witness :
  let st := component described_page in
  let e := ErrorObject (lit "fetch failed") in
  let st' := fst (@handleSendMessage example_platform (Rejected e) st) in
  sendable st = true /\ toBoolean (appData st) = false /\ ai st = true
  /\ displayHistory st' = displayHistory st
  /\ currentPrompt st' = [].
Proof.
  split; [vm_compute; reflexivity|]. split; [vm_compute; reflexivity|].
  split; [vm_compute; reflexivity|].
  pose proof (@failed_send_restores_transcript_not_input example_platform
                (component described_page)
                (Rejected (ErrorObject (lit "fetch failed")))
                (ErrorObject (lit "fetch failed"))
                eq_refl eq_refl eq_refl (or_introl eq_refl)) as H.
  split; [exact (proj1 H) | exact (proj1 (proj2 (proj2 (proj2 (proj2 (proj2 H))))))].
Defined.

Lemma modification_request_carries_the_source_witness :
  let st := component change_typed_page in
  as_AppData (appData st) = Some example_app /\ ai st = true
  /\ embeds_in_order
       (modification_textContent (html (code example_app))
          (css (code example_app)) (javascript (code example_app))
          (lit "make the board blue"))
       [ lit "**HTML:**"; html (code example_app);
         lit "**CSS:**"; css (code example_app);
         lit "**JavaScript:**"; javascript (code example_app);
         lit "modification request: " ++ dq ++ lit "make the board blue"
         ++ dq ].
Proof.
  split; [vm_compute; reflexivity|]. split; [vm_compute; reflexivity|].
  refine (proj2 (@modification_request_carries_the_source example_platform
                   (component change_typed_page) example_app
                   (lit "make the board blue") _ _));
    vm_compute; reflexivity.
Defined.

Lemma answered_modification_replaces_the_app_witness :
  let st := component change_typed_page in
  as_AppData (appData st) = Some example_app /\ ai st = true
  /\ JSON_parse (trim (lit "{}")) = Some (JObject [])
  /\ @interpolate example_platform (Some (JObject [])) f_appName
     = inr (lit "undefined")
  /\ appData
       (fst (@handleModificationRequest example_platform
               (lit "make the board blue") (Fulfilled (Some (lit "{}"))) st))
     = JObject [].
Proof.
  split; [vm_compute; reflexivity|]. split; [vm_compute; reflexivity|].
  split; [vm_compute; reflexivity|]. split; [vm_compute; reflexivity|].
  refine (proj1 (@answered_modification_replaces_the_app example_platform
                   (component change_typed_page) example_app
                   (lit "make the board blue") (lit "{}") (JObject [])
                   (lit "undefined") _ _ _ _));
    vm_compute; reflexivity.
Defined.

Lemma build_marks_the_indexed_entry_witness :
  let st := component proposed_page in
  ai st = true
  /\ exists st1 r,
       @handleBuildApp_begin example_platform 7 st
       = (st1, inr (Waiting r AwaitBuild))
       /\ displayHistory st1 = displayHistory st ++ [limo_says build_working].
Proof.
  split; [vm_compute; reflexivity|].
  destruct (@build_marks_the_indexed_entry example_platform
              (component proposed_page) 7 eq_refl)
    as (st1 & H1 & _ & _ & _ & _ & _ & _ & _ & H2).
  exists st1. eexists. split; [exact H1|].
  apply H2. vm_compute. repeat constructor.
Defined.

Lemma answered_build_installs_the_app_witness :
  let st := component proposed_page in
  ai st = true
  /\ JSON_parse (trim example_app_text) = Some (AppData_to_json example_app)
  /\ @interpolate example_platform (Some (AppData_to_json example_app))
       f_appName = inr (lit "TicTacToe")
  /\ history
       (fst (@handleBuildApp example_platform 2
               (Fulfilled (Some example_app_text)) st))
     = history st
       ++ [ {| role := role_model;
               parts := [text_part (build_summary (lit "TicTacToe"))] |} ].
Proof.
  split; [vm_compute; reflexivity|]. split; [vm_compute; reflexivity|].
  split; [vm_compute; reflexivity|].
  refine (proj1 (proj2 (proj2 (proj2
            (@answered_build_installs_the_app example_platform
               (component proposed_page) 2 example_app_text
               (AppData_to_json example_app) (lit "TicTacToe") _ _ _)))));
    vm_compute; reflexivity.
Defined.

Lemma build_leaves_other_proposals_buildable_witness :
  let st := component proposed_page in
  ai st = true /\ isLoading st = false
  /\ JSON_parse (trim example_app_text) = Some (AppData_to_json example_app)
  /\ build_available
       (fst (@handleBuildApp example_platform 0
               (Fulfilled (Some example_app_text)) st)) 2
     = build_available st 2.
Proof.
  split; [vm_compute; reflexivity|]. split; [vm_compute; reflexivity|].
  split; [vm_compute; reflexivity|].
  refine (proj2 (@build_leaves_other_proposals_buildable example_platform
                   (component proposed_page) 0 example_app_text
                   (AppData_to_json example_app) (lit "TicTacToe")
                   _ _ _ _) 2 _);
    first [ discriminate | vm_compute; reflexivity ].
Defined.

Lemma missing_key_leaves_an_inert_page_witness :
  @reachable example_platform None (initial None)
  /\ forall e, enabled (initial None) e = false.
Proof.
  split; [constructor|].
  refine (proj2 (proj2 (proj2 (proj2
            (@missing_key_leaves_an_inert_page example_platform None
               (initial None) _)) _))).
  - constructor.
  - reflexivity.
Defined.


Lemma saved_turns_have_parts_witness :
  @reachable example_platform example_key built_page
  /\ Forall has_parts (history (component built_page)).
Proof.
  assert (H : @reachable example_platform example_key built_page).
  { apply (@run_reachable example_platform example_key
             (proposal_events ++
              [ BuildClick 2; Settle 0 (Fulfilled (Some example_app_text)) ])
             (initial example_key)); [constructor | vm_compute; reflexivity]. }
  split; [exact H|].
  exact (@saved_turns_have_parts example_platform example_key built_page H).
Defined.

Lemma banner_shows_fixed_messages_only_witness :
  let p := @fire example_platform proposed_page
             (FileSelected (Some pdf_file)) in
  @reachable example_platform example_key p
  /\ match error (component p) with
     | None => True
     | Some m => In m banner_messages /\ string_truthy (Some m) = true
     end.
Proof.
  assert (H : @reachable example_platform example_key
                (@fire example_platform proposed_page
                   (FileSelected (Some pdf_file)))).
  { apply (@run_reachable example_platform example_key
             (proposal_events ++ [FileSelected (Some pdf_file)])
             (initial example_key)); [constructor | vm_compute; reflexivity]. }
  split; [exact H|].
  exact (@banner_shows_fixed_messages_only example_platform example_key _ H).
Defined.

Lemma confirmations_show_the_name_in_bold_witness :
  emphasis_markup (build_done (lit "TicTacToe"))
  = lit "I've created the first version of <strong>TicTacToe</strong>! You can see it in the preview. Let me know what you'd like to change or add.".
Proof.
  refine (proj1 (@confirmations_show_the_name_in_bold (lit "TicTacToe") _ _));
    vm_compute; reflexivity.
Defined.

Lemma render_shows_a_full_app_witness :
  let st := component built_page in
  apiKeyMissing st = false
  /\ as_AppData (appData st) = Some example_app
  /\ exists v,
       @render example_platform st = inr (main_view v)
       /\ output v
          = tabs_view tab_preview false (preview_content (document example_app)).
Proof.
  split; [vm_compute; reflexivity|]. split; [vm_compute; reflexivity|].
  destruct (@render_shows_a_full_app example_platform (component built_page)
              example_app eq_refl eq_refl) as (v & H1 & H2 & _).
  exists v. split; [exact H1 | exact H2].
Defined.

Lemma artifact_without_theme_breaks_render_witness :
  let st := component proposed_page in
  let st' := fst (@handleBuildApp example_platform 2
                    (Fulfilled (Some themeless_app_text)) st) in
  ai st = true /\ apiKeyMissing st = false
  /\ error st' = None
  /\ @render example_platform st'
     = inl (ErrorObject
              (lit "Cannot read properties of undefined (reading 'headerFont')")).
Proof.
  split; [vm_compute; reflexivity|]. split; [vm_compute; reflexivity|].
  refine (@artifact_without_theme_breaks_render example_platform
            (component proposed_page) 2 themeless_app_text
            [ (lit "appName", JString (lit "TicTacToe"));
              (lit "code", JObject []) ]
            (lit "TicTacToe") _ _ _ _ _);
    vm_compute; reflexivity.
Defined.

Lemma generation_outcomes_witness :
  Legacy.prompt idea_typed <> [] /\ Legacy.isLoading idea_typed = false
  /\ Legacy.appData
       (@Legacy.handleGenerateClick example_platform
          (Fulfilled (Some (lit "not json"))) idea_typed)
     = JNull.
Proof.
  split; [discriminate|]. split; [reflexivity|].
  refine (proj1 (proj2 (proj2 (proj2
            (@generation_outcomes example_platform idea_typed
               (Fulfilled (Some (lit "not json"))) _ _))) _)).
  - discriminate.
  - reflexivity.
  - intros t [= <-]. vm_compute. reflexivity.
Defined.

Lemma single_prompt_page_invariant_witness :
  @Legacy.reachable example_platform generated_page
  /\ Legacy.in_flight generated_page <= 1.
Proof.
  assert (H : @Legacy.reachable example_platform generated_page).
  { unfold generated_page.
    repeat (apply Legacy.reachable_fire; [|vm_compute; reflexivity]).
    constructor. }
  split; [exact H|].
  exact (proj1 (@single_prompt_page_invariant example_platform
                  generated_page H)).
Defined.

Lemma generated_app_is_previewed_witness :
  Legacy.prompt idea_typed <> [] /\ Legacy.isLoading idea_typed = false
  /\ JSON_parse (trim example_app_text) = Some (AppData_to_json example_app)
  /\ as_AppData (AppData_to_json example_app) = Some example_app
  /\ option_map Legacy.output
       (match @Legacy.render example_platform
                (@Legacy.handleGenerateClick example_platform
                   (Fulfilled (Some example_app_text)) idea_typed) with
        | inr v => Some v
        | inl _ => None
        end)
     = Some (Legacy.tabs_view tab_preview
               (Legacy.preview_content (legacy_document example_app))).
Proof.
  split; [discriminate|]. split; [reflexivity|].
  split; [vm_compute; reflexivity|]. split; [vm_compute; reflexivity|].
  rewrite (@generated_app_is_previewed example_platform idea_typed
             example_app_text (AppData_to_json example_app) example_app);
    first [ reflexivity | discriminate | vm_compute; reflexivity ].
Defined.


Lemma build_is_offered_for_marked_replies_witness :
  let st := component described_page in
  apiKeyMissing st = false /\ sendable st = true
  /\ toBoolean (appData st) = false /\ ai st = true
  /\ build_available
       (fst (@handleSendMessage example_platform
               (Fulfilled (Some (lit "Shall I build it? [PROPOSE_BUILD]")))
               st)) 2
     = true.
Proof.
  split; [vm_compute; reflexivity|]. split; [vm_compute; reflexivity|].
  split; [vm_compute; reflexivity|]. split; [vm_compute; reflexivity|].
  refine (eq_trans
            (proj1 (@build_is_offered_for_marked_replies example_platform
                      (component described_page)
                      (lit "Shall I build it? [PROPOSE_BUILD]")
                      eq_refl eq_refl eq_refl eq_refl)) _).
  vm_compute. reflexivity.
Defined.

Lemma last_finished_read_is_the_attachment_witness :
  let p2 := @fire example_platform
              (@fire example_platform proposed_page
                 (FileSelected (Some cat_file)))
              (FileSelected (Some dog_file)) in
  reading proposed_page = []
  /\ accepted cat_file = true /\ accepted dog_file = true
  /\ attachment
       (component
          (@fire example_platform
             (@fire example_platform p2 (ReaderLoad 1 (lit "data:dog")))
             (ReaderLoad 0 (lit "data:cat"))))
     = Some (attachment_of cat_file (lit "data:cat")).
Proof.
  split; [vm_compute; reflexivity|]. split; [vm_compute; reflexivity|].
  split; [vm_compute; reflexivity|].
  exact (proj2 (proj2 (proj2
           (@last_finished_read_is_the_attachment example_platform
              proposed_page cat_file dog_file (lit "data:cat")
              (lit "data:dog") eq_refl eq_refl eq_refl)))).
Defined.
